(** * Funding-rate monitor: analytics core and stream client

    A shallow embedding of [business_core.py] (class [BusinessCore]), of
    [binance_client.py] (class [BinanceWebSocketClient]) and of the port
    search of [main.py] (class [PortManager]), with the properties of the
    deviation score, the champion table, the top-K ranking, the rolling
    window, the message counter and the host cursor, the invariants of the
    stores over every sequence of calls, and the port search.

    Conventions.
    - A Python [float] is an IEEE-754 binary64 value: Rocq's primitive
      [float], with the same rounding for [+ - * / sqrt] and the same
      comparisons (every comparison with NaN is false).
    - A Python [str] is the string of the bytes of its UTF-8 text; a
      substring test on the bytes is the test on the characters.
    - [time.time()] and [pd.Timestamp.now()] are inputs: a function that
      reads the clock takes the value read as an argument.
    - A dict whose iteration order is observed ([current_rates]) is an
      insertion-ordered association list; the other dicts are finite maps.
    - Every call of [self.logger] that can be reached appends an event to
      the [log] field, with the values its message formats.
    - The [try] ... [except Exception] wrappers of the core's methods guard
      operations that do not raise on the modelled data (the lengths are
      tested before the rows are read); their handlers are left out.
    - [await asyncio.sleep] between two connection attempts only passes
      time and is left out. *)

From Stdlib Require Import ZArith Uint63 PrimFloat FloatOps FloatAxioms SpecFloat Lia.
From Stdlib Require Import Ascii String Sorted Permutation.
From stdpp Require Import gmap strings list fin_maps sorting.

#[local] Set Warnings "-inexact-float,-register-all".
#[local] Open Scope Z_scope.
#[local] Open Scope nat_scope.

(** ** Python floats *)

Module Float.

(** [float(n)] for a small non-negative integer [n] (a length). *)
Definition of_nat (n : nat) : float :=
  PrimFloat.of_uint63 (Uint63.of_Z (Z.of_nat n)).

(** [math.isnan] / [pd.isna] on a float. *)
Definition isna (x : float) : bool := negb (PrimFloat.eqb x x).

(** [x > y] in Python is [y < x]. *)
Definition gtb (x y : float) : bool := PrimFloat.ltb y x.

End Float.

(** ** NumPy: the sum of a float64 array

    [ndarray.sum] of a one-dimensional contiguous float64 array is
    [np.add.reduce]: the result starts as the identity of [add], [0.0],
    and the inner loop adds to it the pairwise sum of the whole array
    ([DOUBLE_pairwise_sum]). Every addition rounds, so the order is part
    of the result: fewer than 8 values are added from the left; up to
    [PW_BLOCKSIZE] values are added into eight accumulators, which are
    then combined as a balanced tree, the values after the last full
    group of eight going in at the end; a longer array is cut in two
    (the first half a multiple of eight) and the sums of the halves
    added. *)

Module Ndarray.

Definition PW_BLOCKSIZE : nat := 128.

(** The accumulators [r[0]], ..., [r[7]]. *)
Definition Acc8 : Type :=
  float * float * float * float * float * float * float * float.

(** [for (i = 8; i < n - (n % 8); i += 8) r[j] += a[i + j]]: the full
    groups of eight are added in, the values left over are returned. *)
Fixpoint accumulate (r : Acc8) (a : list float) : Acc8 * list float :=
  match a with
  | b0 :: b1 :: b2 :: b3 :: b4 :: b5 :: b6 :: b7 :: a' =>
    let '(r0, r1, r2, r3, r4, r5, r6, r7) := r in
    accumulate (r0 + b0, r1 + b1, r2 + b2, r3 + b3,
                r4 + b4, r5 + b5, r6 + b6, r7 + b7)%float a'
  | _ => (r, a)
  end.

(** The two branches without recursion: [n < 8], where the sum starts
    from [-0.0] and runs from the left, and [n <= PW_BLOCKSIZE]. *)
Definition block_sum (a : list float) : float :=
  match a with
  | a0 :: a1 :: a2 :: a3 :: a4 :: a5 :: a6 :: a7 :: rest =>
    let '((r0, r1, r2, r3, r4, r5, r6, r7), rest) :=
      accumulate (a0, a1, a2, a3, a4, a5, a6, a7) rest in
    let res := (((r0 + r1) + (r2 + r3)) + ((r4 + r5) + (r6 + r7)))%float in
    foldl PrimFloat.add res rest
  | _ => foldl PrimFloat.add (-0)%float a
  end.

(** [DOUBLE_pairwise_sum]. The recursion is on a counter that starts at
    the length of the array; both halves of an array longer than
    [PW_BLOCKSIZE] are shorter than it, so the counter never runs out
    (lemma [pairwise_sum_unfold]). *)
Fixpoint pairwise (fuel : nat) (a : list float) : float :=
  let n := length a in
  if n <=? PW_BLOCKSIZE then block_sum a else
  match fuel with
  | 0 => nan
  | S fuel' =>
    let n2 := n / 2 in
    let n2 := n2 - n2 mod 8 in
    (pairwise fuel' (take n2 a) + pairwise fuel' (drop n2 a))%float
  end.

Definition pairwise_sum (a : list float) : float := pairwise (length a) a.

(** [a.sum()] *)
Definition sum (a : list float) : float := (0 + pairwise_sum a)%float.

End Ndarray.

(** ** pandas

    The library calls the source makes, restricted to what it uses: a
    [pd.Series] of floats indexed by timestamps is the list of its
    (timestamp, value) rows. [mean] and [std] follow pandas' own
    implementation ([nanops.nanmean], [nanops.nanvar] with [ddof=1], as
    they run without the optional bottleneck accelerator): both sum
    with [ndarray.sum]. The series of the core hold no NaN (a rate is
    stored only when it lies strictly between -1000 and 1000), so
    [skipna] has nothing to mask and the count is the length. *)

Module Pandas.

(** [pd.Timestamp]: nanoseconds since the epoch. *)
Abbreviation Timestamp := Z (only parsing).

(** A series is the list of its rows. *)
Abbreviation Series := (list (Z * float)) (only parsing).

Definition values (s : Series) : list float := s.*2.

(** [pd.concat([s, pd.Series([x], index=[t])])] *)
Definition concat1 (s : Series) (t : Timestamp) (x : float) : Series :=
  s ++ [(t, x)].

(** [s.iloc[start:]] with Python's slice rule: a negative [start] counts
    from the end and is clamped at the first row, a non-negative one is
    clamped at the length. *)
Definition iloc_from (start : Z) (s : Series) : Series :=
  let n := Z.of_nat (length s) in
  let i := if (start <? 0)%Z then Z.max 0 (n + start) else Z.min start n in
  drop (Z.to_nat i) s.

(** [s.iloc[:-1]] *)
Definition iloc_init (s : Series) : Series := take (length s - 1) s.

(** [s.iloc[-1]]; [None] stands for the [IndexError] on an empty series. *)
Definition iloc_last (s : Series) : option float := last (values s).

(** [s.mean()]: the sum over the count. *)
Definition mean (s : Series) : float :=
  (Ndarray.sum (values s) / Float.of_nat (length s))%float.

(** [s.var()] with pandas' default [ddof=1]: the squared deviations from
    the mean, summed and divided by [count - 1]. With one row this is
    0/0, the NaN pandas returns. *)
Definition var (s : Series) : float :=
  let avg := mean s in
  let sqr := (λ x, let d := (avg - x)%float in (d * d)%float) <$> values s in
  (Ndarray.sum sqr / Float.of_nat (length s - 1))%float.

(** [s.std()]: the sample standard deviation. *)
Definition std (s : Series) : float := PrimFloat.sqrt (var s).

End Pandas.

(** ** Python dicts that are iterated

    [dict] keeps insertion order: assigning to a present key keeps its
    place, a new key goes last. *)

Module PyDict.

Abbreviation t V := (list (string * V)) (only parsing).

Section Dict.
Context {V : Type}.

Fixpoint get (k : string) (d : t V) : option V :=
  match d with
  | [] => None
  | (k', v) :: d' => if decide (k = k') then Some v else get k d'
  end.

Fixpoint set (k : string) (v : V) (d : t V) : t V :=
  match d with
  | [] => [(k, v)]
  | (k', v') :: d' =>
      if decide (k = k') then (k, v) :: d' else (k', v') :: set k v d'
  end.

(** [d.pop(k, None)] *)
Definition pop (k : string) (d : t V) : t V :=
  filter (λ kv, kv.1 ≠ k) d.

(** [d.keys()], in iteration order. *)
Definition keys (d : t V) : list string := d.*1.

End Dict.

End PyDict.

(** ** Decoded JSON

    What [json.loads] returns. A number is held as the float [float()]
    makes of it. *)

Inductive json : Type :=
| JNull
| JBool (b : bool)
| JNum (x : float)
| JStr (s : string)
| JList (l : list json)
| JDict (d : list (string * json)).

Module Json.

(** [k in item] and [item[k]] on a decoded object (the first binding of
    a key is searched; [json.loads] keeps one binding per key). *)
Fixpoint lookup (k : string) (d : list (string * json)) : option json :=
  match d with
  | [] => None
  | (k', v) :: d' => if decide (k = k') then Some v else lookup k d'
  end.

End Json.

(** ** Python strings *)

Module PyStr.

Fixpoint startswith (p s : string) : bool :=
  match p, s with
  | EmptyString, _ => true
  | String a p', String b s' => bool_decide (a = b) && startswith p' s'
  | String _ _, EmptyString => false
  end.

(** [k in s]: [k] occurs in [s] as a substring. *)
Fixpoint contains (k s : string) : bool :=
  startswith k s ||
  match s with
  | EmptyString => false
  | String _ s' => contains k s'
  end.

(** [s.endswith(p)] *)
Fixpoint endswith (s p : string) : bool :=
  bool_decide (s = p) ||
  match s with
  | EmptyString => false
  | String _ s' => endswith s' p
  end.

(** A byte that continues a character of UTF-8 text ([10xxxxxx]). *)
Definition is_continuation (a : ascii) : bool :=
  let n := nat_of_ascii a in (128 <=? n) && (n <? 192).

(** [s[:n]], the first [n] characters of a [str] given by its UTF-8
    text: the bytes before the one that starts character [n + 1]. *)
Fixpoint slice_to (n : nat) (s : string) : string :=
  match s with
  | EmptyString => EmptyString
  | String a s' =>
    if is_continuation a then String a (slice_to n s')
    else match n with
         | 0 => EmptyString
         | S n' => String a (slice_to n' s')
         end
  end.

End PyStr.

(** ** config.py *)

Module Config.

Definition TOP_RANKING_COUNT : nat := 5.
Definition STATS_PRINT_INTERVAL : nat := 100.
Definition SYMBOL_SUFFIX_FILTER : string := "USDT".
Definition SYMBOL_EXCLUDE_KEYWORDS : list string := ["UP"; "DOWN"].
Definition MOVING_AVERAGE_WINDOW : Z := 512.

End Config.

(** ** business_core.py: the state of a [BusinessCore] *)

(** A value of [champion_records]. *)
Record ChampionRecord : Type := mkChampion {
  max_volatility : float;
  z_score : float;
  moving_average : float;
  std_dev : float;
  champion_old_rate : float;
  champion_new_rate : float;
  champion_timestamp : float;
  champion_age_hours : float
}.

(** A value of [volatility_data]. In the source [champion_info] is the
    champion dict itself, not a copy; the only write to a champion dict
    ([champion_age_hours]) is followed, in the same call, by the rebuild
    of this entry, so the entry holds the record's value at that point. *)
Record VolatilityInfo : Type := mkVolatility {
  combined : float;
  v_z_score : float;
  v_moving_average : float;
  v_std_dev : float;
  rate_change : float;
  champion_info : ChampionRecord;
  timestamp : float
}.

(** The ranking thread, as far as [start] and [stop] see it. *)
Record Thread : Type := mkThread { is_alive : bool }.

(** The calls of [self.logger], with the values they format. *)
Inductive LogEvent : Type :=
| LogCoreInit
| LogRankingThreadStarted
| LogStoppingRankingThread
| LogRankingThreadStopped
| LogExtractFailed
| LogInvalidRate (symbol : json) (rate : float)
| LogChampionExpired (symbol : string)
| LogNewChampion (symbol : string) (z : float)
| LogStatistics (updates symbols : nat)
| LogTop5Updated (top5 : list string)
| LogRankingError
| LogCleanupStart (n : nat)
| LogCleanupDone (n : nat).

Record BusinessCore : Type := mkCore {
  current_rates : PyDict.t float;
  rate_history : gmap string Pandas.Series;
  volatility_data : gmap string VolatilityInfo;
  top5_symbols : list string;
  champion_records : gmap string ChampionRecord;
  total_symbols : nat;
  data_update_count : nat;
  last_update_time : option float;
  symbol_last_seen : gmap string float;
  ranking_thread : option Thread;
  stop_event : bool;
  window_size : Z;
  champion_ttl : float;
  log : list LogEvent
}.

(** [BusinessCore.__init__] *)
Definition init : BusinessCore :=
  {| current_rates := [];
     rate_history := ∅;
     volatility_data := ∅;
     top5_symbols := [];
     champion_records := ∅;
     total_symbols := 0;
     data_update_count := 0;
     last_update_time := None;
     symbol_last_seen := ∅;
     ranking_thread := None;
     stop_event := false;
     window_size := Config.MOVING_AVERAGE_WINDOW;
     champion_ttl := (15 * 60)%float;
     log := [LogCoreInit] |}.

(** Attribute assignments. *)
Section Setters.
Variable st : BusinessCore.

Definition set_current_rates (v : PyDict.t float) : BusinessCore :=
  mkCore v (rate_history st) (volatility_data st) (top5_symbols st)
    (champion_records st) (total_symbols st) (data_update_count st)
    (last_update_time st) (symbol_last_seen st) (ranking_thread st)
    (stop_event st) (window_size st) (champion_ttl st) (log st).

Definition set_rate_history (v : gmap string Pandas.Series) : BusinessCore :=
  mkCore (current_rates st) v (volatility_data st) (top5_symbols st)
    (champion_records st) (total_symbols st) (data_update_count st)
    (last_update_time st) (symbol_last_seen st) (ranking_thread st)
    (stop_event st) (window_size st) (champion_ttl st) (log st).

Definition set_volatility_data (v : gmap string VolatilityInfo) : BusinessCore :=
  mkCore (current_rates st) (rate_history st) v (top5_symbols st)
    (champion_records st) (total_symbols st) (data_update_count st)
    (last_update_time st) (symbol_last_seen st) (ranking_thread st)
    (stop_event st) (window_size st) (champion_ttl st) (log st).

Definition set_top5_symbols (v : list string) : BusinessCore :=
  mkCore (current_rates st) (rate_history st) (volatility_data st) v
    (champion_records st) (total_symbols st) (data_update_count st)
    (last_update_time st) (symbol_last_seen st) (ranking_thread st)
    (stop_event st) (window_size st) (champion_ttl st) (log st).

Definition set_champion_records (v : gmap string ChampionRecord) : BusinessCore :=
  mkCore (current_rates st) (rate_history st) (volatility_data st)
    (top5_symbols st) v (total_symbols st) (data_update_count st)
    (last_update_time st) (symbol_last_seen st) (ranking_thread st)
    (stop_event st) (window_size st) (champion_ttl st) (log st).

Definition set_statistics (total count : nat) (t : option float) : BusinessCore :=
  mkCore (current_rates st) (rate_history st) (volatility_data st)
    (top5_symbols st) (champion_records st) total count t
    (symbol_last_seen st) (ranking_thread st)
    (stop_event st) (window_size st) (champion_ttl st) (log st).

Definition set_symbol_last_seen (v : gmap string float) : BusinessCore :=
  mkCore (current_rates st) (rate_history st) (volatility_data st)
    (top5_symbols st) (champion_records st) (total_symbols st)
    (data_update_count st) (last_update_time st) v (ranking_thread st)
    (stop_event st) (window_size st) (champion_ttl st) (log st).

Definition set_ranking_thread (v : option Thread) : BusinessCore :=
  mkCore (current_rates st) (rate_history st) (volatility_data st)
    (top5_symbols st) (champion_records st) (total_symbols st)
    (data_update_count st) (last_update_time st) (symbol_last_seen st) v
    (stop_event st) (window_size st) (champion_ttl st) (log st).

Definition set_stop_event (v : bool) : BusinessCore :=
  mkCore (current_rates st) (rate_history st) (volatility_data st)
    (top5_symbols st) (champion_records st) (total_symbols st)
    (data_update_count st) (last_update_time st) (symbol_last_seen st)
    (ranking_thread st) v (window_size st) (champion_ttl st) (log st).

(** [self.logger.<level>(...)] *)
Definition logger (e : LogEvent) : BusinessCore :=
  mkCore (current_rates st) (rate_history st) (volatility_data st)
    (top5_symbols st) (champion_records st) (total_symbols st)
    (data_update_count st) (last_update_time st) (symbol_last_seen st)
    (ranking_thread st) (stop_event st) (window_size st) (champion_ttl st)
    (log st ++ [e]).

End Setters.

(** [champion_info['champion_age_hours'] = h] *)
Definition set_champion_age_hours (c : ChampionRecord) (h : float) : ChampionRecord :=
  {| max_volatility := max_volatility c;
     z_score := z_score c;
     moving_average := moving_average c;
     std_dev := std_dev c;
     champion_old_rate := champion_old_rate c;
     champion_new_rate := champion_new_rate c;
     champion_timestamp := champion_timestamp c;
     champion_age_hours := h |}.

(** The [volatility_data] entry [_calculate_volatility] builds from the
    champion record (lines 252-260). *)
Definition volatility_entry (c : ChampionRecord) (current_time : float) : VolatilityInfo :=
  {| combined := max_volatility c;
     v_z_score := z_score c;
     v_moving_average := moving_average c;
     v_std_dev := std_dev c;
     rate_change := (champion_new_rate c - champion_old_rate c)%float;
     champion_info := c;
     timestamp := current_time |}.

(** The clock values one call of [_process_single_item] may read. *)
Record Clock : Type := mkClock {
  pd_now : Pandas.Timestamp;   (* pd.Timestamp.now(), the new row's index *)
  seen_time : float;           (* time.time() stored in symbol_last_seen *)
  calc_time : float            (* time.time() read by _calculate_volatility *)
}.

(** ** business_core.py: the methods *)

Section Core.

(** [float(s)] for a [str]: the value parsed, [None] for [ValueError]. *)
Variable float_of_str : string → option float.

(** [np.argsort] with its default [kind]: the positions of the array in
    ascending order of value. Which of two equal values comes first is
    not fixed by NumPy's default. *)
Variable np_argsort : list float → list nat.

(** [float(v)]; [None] stands for [ValueError] or [TypeError]. *)
Definition py_float (v : json) : option float :=
  match v with
  | JNum x => Some x
  | JBool b => Some (if b then 1 else 0)%float
  | JStr s => float_of_str s
  | JNull | JList _ | JDict _ => None
  end.

(** [_extract_rate]: [None] is the pair [(None, None)]. A failed
    [float()] leaves the [try] block, so no later field pair is tried. *)
Definition _extract_rate (st : BusinessCore) (item : list (string * json))
  : BusinessCore * option (json * float) :=
  let convert (symbol v : json) (scale : bool) :=
    match py_float v with
    | Some x => (st, Some (symbol, if scale then (x * 100)%float else x))
    | None => (logger st LogExtractFailed, None)
    end in
  match Json.lookup "s" item, Json.lookup "r" item with
  | Some s, Some r => convert s r true
  | _, _ =>
    match Json.lookup "symbol" item, Json.lookup "fundingRate" item with
    | Some s, Some r => convert s r true
    | _, _ =>
      match Json.lookup "symbol" item, Json.lookup "funding_rate" item with
      | Some s, Some r => convert s r false
      | _, _ => (st, None)
      end
    end
  end.

Definition is_str (v : json) : bool :=
  match v with JStr _ => true | _ => false end.

Definition is_none (v : json) : bool :=
  match v with JNull => true | _ => false end.

(** [_validate_item] *)
Definition _validate_item (st : BusinessCore) (item : json) : BusinessCore * bool :=
  match item with
  | JDict d =>
    let '(st1, r) := _extract_rate st d in
    match r with
    | None => (st1, false)
    | Some (symbol, rate) =>
      if is_none symbol then (st1, false)
      else if negb (is_str symbol)
              || negb (PrimFloat.ltb (-1000) rate && PrimFloat.ltb rate 1000)
      then (logger st1 (LogInvalidRate symbol rate), false)
      else (st1, true)
    end
  | _ => (st, false)
  end.

(** [_should_process_symbol] *)
Definition _should_process_symbol (symbol : string) : bool :=
  if negb (PyStr.endswith symbol Config.SYMBOL_SUFFIX_FILTER) then false
  else if existsb (λ keyword, PyStr.contains keyword symbol)
            Config.SYMBOL_EXCLUDE_KEYWORDS then false
  else true.

(** [_calculate_volatility]. [current_time] is what [time.time()] returns
    on line 218; it is read only past the guards. *)
Definition _calculate_volatility (st : BusinessCore) (symbol : string)
    (old_rate new_rate : float) (current_time : float) : BusinessCore :=
  match rate_history st !! symbol with
  | None => st
  | Some history_series =>
    if length history_series <? 3 then st else
    let historical_data := Pandas.iloc_init history_series in
    if length historical_data <? 2 then st else
    let moving_average := Pandas.mean historical_data in
    let std_dev := Pandas.std historical_data in
    if Float.isna std_dev || PrimFloat.ltb std_dev 1e-10 then st else
    let z_score := ((new_rate - moving_average) / std_dev)%float in
    let current_volatility := PrimFloat.abs z_score in
    (* drop an expired champion *)
    let st1 :=
      match champion_records st !! symbol with
      | Some champion =>
        let champion_age := (current_time - champion_timestamp champion)%float in
        if Float.gtb champion_age (champion_ttl st)
        then logger (set_champion_records st (delete symbol (champion_records st)))
               (LogChampionExpired symbol)
        else st
      | None => st
      end in
    let is_new_champion :=
      match champion_records st1 !! symbol with
      | None => true
      | Some champion => Float.gtb current_volatility (max_volatility champion)
      end in
    let st2 :=
      if is_new_champion
      then logger (set_champion_records st1
                     (<[symbol := {| max_volatility := current_volatility;
                                     z_score := z_score;
                                     moving_average := moving_average;
                                     std_dev := std_dev;
                                     champion_old_rate := old_rate;
                                     champion_new_rate := new_rate;
                                     champion_timestamp := current_time;
                                     champion_age_hours := 0 |}]>
                        (champion_records st1)))
             (LogNewChampion symbol z_score)
      else st1 in
    match champion_records st2 !! symbol with
    | Some champion =>
      let champion_age_hours :=
        ((current_time - champion_timestamp champion) / 3600)%float in
      let champion_info := set_champion_age_hours champion champion_age_hours in
      let st3 := set_champion_records st2
                   (<[symbol := champion_info]> (champion_records st2)) in
      set_volatility_data st3
        (<[symbol := volatility_entry champion_info current_time]>
           (volatility_data st3))
    | None => st2
    end
  end.

(** [_process_single_item]. Past [_validate_item] the symbol is a [str];
    the other shapes of the second [_extract_rate] cannot occur and
    return [False] as its [None] tests do. *)
Definition _process_single_item (st : BusinessCore) (clk : Clock) (item : json)
  : BusinessCore * bool :=
  let '(st1, valid) := _validate_item st item in
  if negb valid then (st1, false) else
  match item with
  | JDict d =>
    let '(st2, r) := _extract_rate st1 d in
    match r with
    | Some (JStr symbol, new_rate) =>
      if negb (_should_process_symbol symbol) then (st2, false) else
      let old_rate := default new_rate (PyDict.get symbol (current_rates st2)) in
      let st3 := set_current_rates st2
                   (PyDict.set symbol new_rate (current_rates st2)) in
      let current_time := pd_now clk in
      let series :=
        match rate_history st3 !! symbol with
        | None => [(current_time, new_rate)]
        | Some s => Pandas.concat1 s current_time new_rate
        end in
      let series :=
        if (window_size st3 <? Z.of_nat (length series))%Z
        then Pandas.iloc_from (- window_size st3) series
        else series in
      let st4 := set_rate_history st3 (<[symbol := series]> (rate_history st3)) in
      let st5 := set_symbol_last_seen st4
                   (<[symbol := seen_time clk]> (symbol_last_seen st4)) in
      let rate_diff := PrimFloat.abs (new_rate - old_rate)%float in
      let st6 :=
        if Float.gtb rate_diff 1e-9
        then _calculate_volatility st5 symbol old_rate new_rate (calc_time clk)
        else st5 in
      (st6, true)
    | _ => (st2, false)
    end
  | _ => (st1, false)
  end.

(** [_update_statistics] *)
Definition _update_statistics (st : BusinessCore) (processed_count : nat)
    (now : float) : BusinessCore :=
  let st1 := set_statistics st (length (current_rates st))
               (data_update_count st + 1) (Some now) in
  if decide (data_update_count st1 `mod` Config.STATS_PRINT_INTERVAL = 0)
  then logger st1 (LogStatistics (data_update_count st1) (total_symbols st1))
  else st1.

(** [_cleanup_caches] *)
Definition _cleanup_caches (st : BusinessCore) (current_time : float) : BusinessCore :=
  let inactive_threshold := (72 * 3600)%float in
  let inactive_symbols :=
    (filter (λ kv, Float.gtb (current_time - kv.2)%float inactive_threshold = true)
       (map_to_list (symbol_last_seen st))).*1 in
  match inactive_symbols with
  | [] => st
  | _ =>
    let n := length inactive_symbols in
    let st1 := logger st (LogCleanupStart n) in
    let st2 := set_current_rates st1 (foldr PyDict.pop (current_rates st1) inactive_symbols) in
    let st3 := set_volatility_data st2 (foldr delete (volatility_data st2) inactive_symbols) in
    let st4 := set_rate_history st3 (foldr delete (rate_history st3) inactive_symbols) in
    let st5 := set_champion_records st4 (foldr delete (champion_records st4) inactive_symbols) in
    let st6 := set_symbol_last_seen st5 (foldr delete (symbol_last_seen st5) inactive_symbols) in
    logger st6 (LogCleanupDone n)
  end.

(** The loop of [update_data] over the items; [clk i] is the clock as
    item [i] reads it. *)
Fixpoint process_items (st : BusinessCore) (clk : nat → Clock) (i : nat)
    (items : list json) (processed_count : nat) : BusinessCore * nat :=
  match items with
  | [] => (st, processed_count)
  | item :: items' =>
    let '(st1, ok) := _process_single_item st (clk i) item in
    process_items st1 clk (S i) items'
      (if ok then processed_count + 1 else processed_count)
  end.

(** [update_data]. [stats_time] and [cleanup_time] are the clock as
    [_update_statistics] and [_cleanup_caches] read it. *)
Definition update_data (st : BusinessCore) (data : json) (clk : nat → Clock)
    (stats_time cleanup_time : float) : BusinessCore :=
  let items_to_process :=
    match data with
    | JList l => l
    | JDict _ => [data]
    | _ => []
    end in
  let '(st1, processed_count) := process_items st clk 0 items_to_process 0 in
  if 0 <? processed_count then
    let st2 := _update_statistics st1 processed_count stats_time in
    if decide (data_update_count st2 `mod` 100 = 0)
    then _cleanup_caches st2 cleanup_time
    else st2
  else st1.

(** [_calculate_current_zscore] *)
Definition _calculate_current_zscore (st : BusinessCore) (symbol : string) : float :=
  match rate_history st !! symbol with
  | None => 0%float
  | Some history_series =>
    if length history_series <? 3 then 0%float else
    let historical_data := Pandas.iloc_init history_series in
    match Pandas.iloc_last history_series with
    | None => 0%float
    | Some current_rate =>
      if length historical_data <? 2 then 0%float else
      let moving_average := Pandas.mean historical_data in
      let std_dev := Pandas.std historical_data in
      if Float.isna std_dev || PrimFloat.ltb std_dev 1e-10 then 0%float else
      let z_score := ((current_rate - moving_average) / std_dev)%float in
      PrimFloat.abs z_score
    end
  end.

(** The score [_update_top5_ranking] derives for one symbol (the body of
    its loop, lines 281-289). *)
Definition ranking_score (st : BusinessCore) (current_time : float)
    (symbol : string) : float :=
  match champion_records st !! symbol with
  | Some champion_info =>
    if PrimFloat.leb (current_time - champion_timestamp champion_info)%float
         (champion_ttl st)
    then max_volatility champion_info
    else _calculate_current_zscore st symbol
  | None => _calculate_current_zscore st symbol
  end.

(** [ranking_data] as the loop leaves it. *)
Definition ranking_data (st : BusinessCore) (current_time : float)
  : list (string * float) :=
  omap (λ symbol,
          let score := ranking_score st current_time symbol in
          if Float.gtb score 0 then Some (symbol, score) else None)
       (PyDict.keys (current_rates st)).

(** [symbols[sorted_indices[:top_count]].tolist()]; [None] is the
    [IndexError] of a position outside the array. *)
Definition take_symbols (symbols : list string) (indices : list nat)
  : option (list string) :=
  mapM (λ i, symbols !! i) indices.

(** [_update_top5_ranking]; [current_time] is its [time.time()]. *)
Definition _update_top5_ranking (st : BusinessCore) (current_time : float)
  : BusinessCore :=
  let ranking_data := ranking_data st current_time in
  match ranking_data with
  | [] => st
  | _ =>
    let scores := ranking_data.*2 in
    let symbols := ranking_data.*1 in
    let sorted_indices := rev (np_argsort scores) in
    let top_count := Nat.min Config.TOP_RANKING_COUNT (length sorted_indices) in
    match take_symbols symbols (take top_count sorted_indices) with
    | None => logger st LogRankingError
    | Some new_top5 =>
      if decide (new_top5 = top5_symbols st) then st
      else logger (set_top5_symbols st new_top5) (LogTop5Updated new_top5)
    end
  end.

(** One turn of [_ranking_loop]. *)
Definition _ranking_loop_turn (st : BusinessCore) (current_time : float)
  : BusinessCore :=
  if stop_event st then st else _update_top5_ranking st current_time.

End Core.

(** [start] *)
Definition start (st : BusinessCore) : BusinessCore :=
  match ranking_thread st with
  | None =>
    let st1 := set_stop_event st false in
    let st2 := set_ranking_thread st1 (Some {| is_alive := true |}) in
    logger st2 LogRankingThreadStarted
  | Some _ => st
  end.

(** [stop]; [join] returns once the loop has seen the event and ended. *)
Definition stop (st : BusinessCore) : BusinessCore :=
  let st1 := logger st LogStoppingRankingThread in
  let st2 := set_stop_event st1 true in
  let st3 :=
    match ranking_thread st2 with
    | Some th =>
      if is_alive th then set_ranking_thread st2 (Some {| is_alive := false |})
      else st2
    | None => st2
    end in
  logger st3 LogRankingThreadStopped.

(** What [_format_champion_time] renders, by the values it formats: the
    label chosen by the age and its operand, and the timestamp shown as
    the absolute time. *)
Inductive TimeDisplay : Type :=
| TimeUnknown
| TimeJustNow (timestamp : float)
| TimeSecondsAgo (time_diff timestamp : float)
| TimeMinutesAgo (minutes timestamp : float)
| TimeHoursAgo (hours timestamp : float).

(** [_format_champion_time]; [now] is its [time.time()]. *)
Definition _format_champion_time (timestamp now : float) : TimeDisplay :=
  if PrimFloat.eqb timestamp 0 then TimeUnknown else
  let time_diff := (now - timestamp)%float in
  if PrimFloat.ltb time_diff 1 then TimeJustNow timestamp
  else if PrimFloat.ltb time_diff 60 then TimeSecondsAgo time_diff timestamp
  else if PrimFloat.ltb time_diff 3600 then TimeMinutesAgo (time_diff / 60)%float timestamp
  else TimeHoursAgo (time_diff / 3600)%float timestamp.

(** An entry of the list [get_top5_data] returns (its constant fields
    [champion_badge] and [trend] left out). *)
Record Top5Entry : Type := mkTop5Entry {
  entry_symbol : string;
  entry_current_rate : float;
  entry_rate_change : float;
  entry_volatility : float;
  entry_z_score : float;
  entry_moving_average : float;
  entry_std_dev : float;
  entry_champion_time_display : TimeDisplay;
  entry_color_class : string;
  entry_timestamp : float
}.

(** The loop of [get_top5_data]; [now i] is the clock as the entry of the
    symbol at position [i] of [top5_symbols] reads it. *)
Fixpoint top5_entries (st : BusinessCore) (now : nat → float) (i : nat)
    (symbols : list string) : list Top5Entry :=
  match symbols with
  | [] => []
  | symbol :: symbols' =>
    match volatility_data st !! symbol with
    | None => top5_entries st now (S i) symbols'
    | Some volatility_info =>
      let champion := champion_info volatility_info in
      let change := rate_change volatility_info in
      let color_class :=
        if Float.gtb change 0 then "text-red-400"
        else if PrimFloat.ltb change 0 then "text-green-400"
        else "text-gray-400" in
      {| entry_symbol := symbol;
         entry_current_rate := champion_new_rate champion;
         entry_rate_change := change;
         entry_volatility := combined volatility_info;
         entry_z_score := z_score champion;
         entry_moving_average := moving_average champion;
         entry_std_dev := std_dev champion;
         entry_champion_time_display :=
           _format_champion_time (champion_timestamp champion) (now i);
         entry_color_class := color_class;
         entry_timestamp := timestamp volatility_info |}
      :: top5_entries st now (S i) symbols'
    end
  end.

(** [get_top5_data] *)
Definition get_top5_data (st : BusinessCore) (now : nat → float) : list Top5Entry :=
  top5_entries st now 0 (top5_symbols st).

(** What [get_statistics] returns; the nested dicts
    [cache_statistics] and [quality_statistics] are flattened. *)
Record Statistics : Type := mkStatistics {
  stat_total_symbols : nat;
  stat_data_updates : nat;
  stat_last_update : option float;
  stat_top5_count : nat;
  stat_has_data : bool;
  stat_volatility_data_count : nat;
  stat_history_total_points : nat;
  stat_champion_records_count : nat;
  stat_pandas_series_count : nat;
  stat_avg_series_length : float;
  stat_active_symbols : nat;
  stat_champion_coverage : float
}.

(** [a / b] on two ints: Python rounds the exact quotient, which for
    ints a float holds exactly (lengths are) is the quotient of the two
    floats. *)
Definition true_div (a b : nat) : float :=
  (Float.of_nat a / Float.of_nat b)%float.

(** [get_statistics] *)
Definition get_statistics (st : BusinessCore) : Statistics :=
  let total_history_points :=
    sum_list ((λ kv, length kv.2) <$> map_to_list (rate_history st)) in
  {| stat_total_symbols := length (current_rates st);
     stat_data_updates := data_update_count st;
     stat_last_update := last_update_time st;
     stat_top5_count := length (top5_symbols st);
     stat_has_data := 0 <? length (current_rates st);
     stat_volatility_data_count := size (volatility_data st);
     stat_history_total_points := total_history_points;
     stat_champion_records_count := size (champion_records st);
     stat_pandas_series_count := size (rate_history st);
     stat_avg_series_length :=
       true_div total_history_points (Nat.max (size (rate_history st)) 1);
     stat_active_symbols := size (symbol_last_seen st);
     stat_champion_coverage :=
       true_div (size (champion_records st))
         (Nat.max (length (current_rates st)) 1) |}.

(** [get_last_update_age]; [now] is its [time.time()]. *)
Definition get_last_update_age (st : BusinessCore) (now : float) : option float :=
  match last_update_time st with
  | None => None
  | Some t => Some (now - t)%float
  end.

(** What [get_symbol_analysis] returns; the nested dicts [statistics]
    and [recent_trend] are flattened, and an empty [champion_info] dict
    is [None]. *)
Record SymbolAnalysis : Type := mkSymbolAnalysis {
  analysis_symbol : string;
  analysis_current_rate : float;
  analysis_data_points : nat;
  analysis_mean : float;
  analysis_std : float;
  analysis_min : float;
  analysis_max : float;
  analysis_median : float;
  analysis_last_5_mean : option float;
  analysis_last_10_mean : option float;
  analysis_champion_info : option ChampionRecord;
  analysis_last_update : float
}.

Section Analysis.

(** [Series.min()], [Series.max()] and [Series.median()] of pandas. *)
Variable series_min series_max series_median : Pandas.Series → float.

(** [get_symbol_analysis]; [None] is the [None] it returns. *)
Definition get_symbol_analysis (st : BusinessCore) (symbol : string)
  : option SymbolAnalysis :=
  match rate_history st !! symbol with
  | None => None
  | Some history_series =>
    if length history_series <? 2 then None else
    Some {| analysis_symbol := symbol;
            analysis_current_rate :=
              default 0%float (PyDict.get symbol (current_rates st));
            analysis_data_points := length history_series;
            analysis_mean := Pandas.mean history_series;
            analysis_std := Pandas.std history_series;
            analysis_min := series_min history_series;
            analysis_max := series_max history_series;
            analysis_median := series_median history_series;
            analysis_last_5_mean :=
              if 5 <=? length history_series
              then Some (Pandas.mean (Pandas.iloc_from (-5) history_series))
              else None;
            analysis_last_10_mean :=
              if 10 <=? length history_series
              then Some (Pandas.mean (Pandas.iloc_from (-10) history_series))
              else None;
            analysis_champion_info := champion_records st !! symbol;
            analysis_last_update :=
              default 0%float (symbol_last_seen st !! symbol) |}
  end.

End Analysis.

(** ** binance_client.py *)

Module BinanceWebSocketClient.

Definition BACKUP_HOSTS : list string :=
  ["fstream.binance.com"; "fstream1.binance.com"; "fstream2.binance.com"].

Definition RECONNECT_INTERVALS : list nat := [1; 2; 5; 10; 20; 30; 60].

Definition MAX_CONNECTION_HOURS : float := 23.9%float.

(** What [_classify_error] tells apart. *)
Inductive ErrorType : Type :=
| ErrTimeout
| ErrRefused
| ErrDns
| ErrUnreachable
| ErrUnknown (head : string).

(** The calls of [self.logger]. *)
Inductive LogEvent : Type :=
| LogClientInit
| LogConnecting (url : string)
| LogConnected (count : nat)
| LogLoopExited
| LogProactiveReconnect
| LogConnectionClosed
| LogMessageLoopError (error : string)
| LogJsonDecodeFailed (message : string)
| LogHandlerFailed (error : string)
| LogSwitchHost (host : option string)
| LogConnectFailed (kind : ErrorType) (wait_time attempt : nat).

Record t : Type := mkClient {
  stream_path : string;
  websocket : option string;      (* the open socket, by its url *)
  is_connected : bool;
  is_running : bool;
  connection_start_time : float;
  message_count : nat;
  reconnect_count : nat;
  current_host_index : nat;
  log : list LogEvent
}.

(** [__init__] *)
Definition init (stream_path : string) : t :=
  {| stream_path := stream_path;
     websocket := None;
     is_connected := false;
     is_running := false;
     connection_start_time := 0;
     message_count := 0;
     reconnect_count := 0;
     current_host_index := 0;
     log := [LogClientInit] |}.

Definition logger (c : t) (e : LogEvent) : t :=
  mkClient (stream_path c) (websocket c) (is_connected c) (is_running c)
    (connection_start_time c) (message_count c) (reconnect_count c)
    (current_host_index c) (log c ++ [e]).

Definition set_message_count (c : t) (n : nat) : t :=
  mkClient (stream_path c) (websocket c) (is_connected c) (is_running c)
    (connection_start_time c) n (reconnect_count c)
    (current_host_index c) (log c).

Definition set_current_host_index (c : t) (i : nat) : t :=
  mkClient (stream_path c) (websocket c) (is_connected c) (is_running c)
    (connection_start_time c) (message_count c) (reconnect_count c) i (log c).

Definition set_is_running (c : t) (b : bool) : t :=
  mkClient (stream_path c) (websocket c) (is_connected c) b
    (connection_start_time c) (message_count c) (reconnect_count c)
    (current_host_index c) (log c).

(** [self.websocket = ws; self.is_connected = b] *)
Definition set_connection (c : t) (ws : option string) (b : bool) : t :=
  mkClient (stream_path c) ws b (is_running c)
    (connection_start_time c) (message_count c) (reconnect_count c)
    (current_host_index c) (log c).

(** The assignments on entering the [async with] body (lines 138-142). *)
Definition set_connected (c : t) (url : string) (now : float) : t :=
  mkClient (stream_path c) (Some url) true (is_running c)
    now (message_count c) (reconnect_count c + 1)
    (current_host_index c) (log c).

(** What one pass of the receive loop meets: the clock
    [_should_reconnect] reads, then the outcome of the bounded [recv]. *)
Inductive Recv : Type :=
| RecvMessage (message : string)
| RecvTimeout
| RecvConnectionClosed
| RecvError (error : string).

(** The input of the receive loop: a pass, or [stop()] clearing
    [is_running] while the loop is suspended. *)
Inductive LoopEvent : Type :=
| Pass (now : float) (r : Recv)
| StopRequested.

(** How a modelled loop ends: it left the [while], or the input ran out
    and it is suspended in [recv]. *)
Inductive LoopStatus : Type := Exited | Suspended.

(** One connection attempt: [websockets.connect] raises, or it yields a
    socket (at time [now]) and the receive loop runs on [events]. *)
Inductive Attempt : Type :=
| ConnectFailed (error : string)
| ConnectOk (now : float) (events : list LoopEvent).

(** [str.lower], as far as [_classify_error] observes it. The lowered
    message is only searched for keywords made of ASCII letters and a
    space, so the letters A to Z are lowered and every other byte of the
    UTF-8 text is kept. The characters outside ASCII that [str.lower]
    turns into text with an ASCII letter are U+212A, which gives [k], a
    letter of no keyword, and U+0130, which gives [i] followed by the
    combining mark U+0307, where no keyword ends with [i]: neither adds
    nor removes an occurrence of a keyword. *)
Definition lower_ascii (a : ascii) : ascii :=
  let n := nat_of_ascii a in
  if (65 <=? n) && (n <=? 90) then ascii_of_nat (n + 32) else a.

Fixpoint lower (s : string) : string :=
  match s with
  | EmptyString => EmptyString
  | String a s' => String (lower_ascii a) (lower s')
  end.

(** [_classify_error] *)
Definition _classify_error (error_str : string) : ErrorType :=
  let error_lower := lower error_str in
  if PyStr.contains "timeout" error_lower then ErrTimeout
  else if PyStr.contains "refused" error_lower then ErrRefused
  else if PyStr.contains "dns" error_lower
          || PyStr.contains "name resolution" error_lower then ErrDns
  else if PyStr.contains "unreachable" error_lower then ErrUnreachable
  else ErrUnknown (PyStr.slice_to 50 error_str).

(** [_get_reconnect_interval] *)
Definition _get_reconnect_interval (attempt : nat) : nat :=
  match RECONNECT_INTERVALS !! attempt with
  | Some w => w
  | None => default 0 (last RECONNECT_INTERVALS)
  end.

(** [_should_reconnect]; [now] is its [time.time()]. *)
Definition _should_reconnect (c : t) (now : float) : bool :=
  let connection_duration := (now - connection_start_time c)%float in
  let max_seconds := (MAX_CONNECTION_HOURS * 3600)%float in
  Float.gtb connection_duration max_seconds.

(** [_get_current_url]; [None] is the [IndexError]. *)
Definition _get_current_url (c : t) : option string :=
  host ← BACKUP_HOSTS !! current_host_index c;
  Some ("wss://" +:+ host +:+ stream_path c).

(** [_switch_to_next_host] *)
Definition _switch_to_next_host (c : t) : t :=
  let c1 := set_current_host_index c
              ((current_host_index c + 1) `mod` length BACKUP_HOSTS) in
  logger c1 (LogSwitchHost (BACKUP_HOSTS !! current_host_index c1)).

(** [_handle_connection_error] *)
Definition _handle_connection_error (c : t) (error : string) (attempt : nat) : t :=
  let c1 := set_connection c None false in
  if negb (is_running c1) then c1 else
  let error_type := _classify_error error in
  let wait_time := _get_reconnect_interval attempt in
  logger c1 (LogConnectFailed error_type wait_time attempt).

Section Handler.

(** [json.loads]; [None] is [JSONDecodeError]. *)
Variable json_loads : string → option json.

(** The registered handler acts on a world [World] of its own; it
    returns the world it leaves and the exception it raised, if any. *)
Variable World : Type.
Variable data_handler : option (json → World → World * option string).

(** [_call_handler_safely]: both branches call the handler on [data]
    and share the [except]. *)
Definition _call_handler_safely (c : t) (w : World)
    (handler : json → World → World * option string) (data : json) : t * World :=
  let '(w', raised) := handler data w in
  match raised with
  | Some e => (logger c (LogHandlerFailed e), w')
  | None => (c, w')
  end.

(** [_process_message] *)
Definition _process_message (c : t) (w : World) (message : string) : t * World :=
  let c1 := set_message_count c (message_count c + 1) in
  match json_loads message with
  | Some data =>
    match data_handler with
    | Some handler => _call_handler_safely c1 w handler data
    | None => (c1, w)
    end
  | None => (logger c1 (LogJsonDecodeFailed message), w)
  end.

(** The statements after the [while] of [_message_loop]. *)
Definition leave_message_loop (c : t) : t := set_connection c None false.

(** [_message_loop] *)
Fixpoint _message_loop (events : list LoopEvent) (c : t) (w : World)
  : t * World * LoopStatus :=
  if is_connected c && is_running c then
    match events with
    | [] => (c, w, Suspended)
    | StopRequested :: events' =>
      _message_loop events' (set_is_running c false) w
    | Pass now r :: events' =>
      if _should_reconnect c now
      then (leave_message_loop (logger c LogProactiveReconnect), w, Exited)
      else
        match r with
        | RecvMessage message =>
          let '(c1, w1) := _process_message c w message in
          _message_loop events' c1 w1
        | RecvTimeout => _message_loop events' c w
        | RecvConnectionClosed =>
          (leave_message_loop (logger c LogConnectionClosed), w, Exited)
        | RecvError e =>
          (leave_message_loop (logger c (LogMessageLoopError e)), w, Exited)
        end
    end
  else (leave_message_loop c, w, Exited).

(** [_connection_loop], over the attempts the network grants. *)
Fixpoint _connection_loop (attempts : list Attempt) (reconnect_attempt : nat)
    (c : t) (w : World) : t * World * LoopStatus :=
  if is_running c then
    match attempts with
    | [] => (c, w, Suspended)
    | a :: attempts' =>
      let failed (c : t) (error : string) :=
        let c1 := _handle_connection_error c error reconnect_attempt in
        let c2 := _switch_to_next_host c1 in
        _connection_loop attempts' (reconnect_attempt + 1) c2 w in
      match _get_current_url c with
      | None => failed c "list index out of range"
      | Some current_url =>
        let c0 := logger c (LogConnecting current_url) in
        match a with
        | ConnectFailed error => failed c0 error
        | ConnectOk now events =>
          let c1 := set_connected c0 current_url now in
          let c2 := logger c1 (LogConnected (reconnect_count c1)) in
          let '(c3, w3, status) := _message_loop events c2 w in
          match status with
          | Suspended => (c3, w3, Suspended)
          | Exited => _connection_loop attempts' 0 c3 w3
          end
        end
      end
    end
  else (logger c LogLoopExited, w, Exited).

End Handler.

Section Waits.

Variable json_loads : string → option json.
Variable World : Type.
Variable data_handler : option (json → World → World * option string).

(** The waits [_connection_loop] sleeps between attempts
    ([asyncio.sleep(wait_time)], line 155), oldest first, on the run
    [_connection_loop] makes of the same attempts. *)
Fixpoint connection_waits (attempts : list Attempt) (reconnect_attempt : nat)
    (c : t) (w : World) : list nat :=
  if is_running c then
    match attempts with
    | [] => []
    | a :: attempts' =>
      let failed (c : t) (error : string) :=
        let c1 := _handle_connection_error c error reconnect_attempt in
        let c2 := _switch_to_next_host c1 in
        let reconnect_attempt := reconnect_attempt + 1 in
        let wait_time := _get_reconnect_interval reconnect_attempt in
        wait_time :: connection_waits attempts' reconnect_attempt c2 w in
      match _get_current_url c with
      | None => failed c "list index out of range"
      | Some current_url =>
        let c0 := logger c (LogConnecting current_url) in
        match a with
        | ConnectFailed error => failed c0 error
        | ConnectOk now events =>
          let c1 := set_connected c0 current_url now in
          let c2 := logger c1 (LogConnected (reconnect_count c1)) in
          let '(c3, w3, status) :=
            _message_loop json_loads World data_handler events c2 w in
          match status with
          | Suspended => []
          | Exited => connection_waits attempts' 0 c3 w3
          end
        end
      end
    end
  else [].

End Waits.

(** What [get_status] returns. *)
Record Status : Type := mkStatus {
  status_is_connected : bool;
  status_is_running : bool;
  status_current_host : string;
  status_connection_count : nat;
  status_message_count : nat;
  status_connection_duration_hours : float;
  status_current_url : string
}.

(** [get_status]; [now] is its [time.time()], [None] the [IndexError]
    of a cursor outside the host list. *)
Definition get_status (c : t) (now : float) : option Status :=
  let connection_duration :=
    if Float.gtb (connection_start_time c) 0
    then (now - connection_start_time c)%float else 0%float in
  current_host ← BACKUP_HOSTS !! current_host_index c;
  current_url ← _get_current_url c;
  Some {| status_is_connected := is_connected c;
          status_is_running := is_running c;
          status_current_host := current_host;
          status_connection_count := reconnect_count c;
          status_message_count := message_count c;
          status_connection_duration_hours := (connection_duration / 3600)%float;
          status_current_url := current_url |}.

End BinanceWebSocketClient.

(** ** main.py: the port manager *)

Module PortManager.

(** How [socket.bind] ends on a port: bound, an [OSError] (the port is
    taken), or another exception. *)
Inductive BindResult : Type :=
| Bound
| BindOSError (error : string)
| BindOtherError (error : string).

(** The messages of [_log_debug], [_log_info], [_log_warning] and
    [_log_error], with the values they format. *)
Inductive LogEvent : Type :=
| LogPortTaken (port : Z) (error : string)
| LogPortCheckFailed (error : string)
| LogPreferredAvailable (port : Z)
| LogPreferredTaken (port : Z)
| LogFoundPort (port : Z)
| LogNoPortFound (preferred_port port_range : Z).

(** The ports [_is_reserved_port] keeps for common services. *)
Definition reserved_ports : list Z :=
  [3306; 5432; 6379; 27017; 9200; 5672; 8000; 8888; 9000]%Z.

(** [_is_reserved_port] *)
Definition _is_reserved_port (port : Z) : bool :=
  if (port <? 1024)%Z then true
  else bool_decide (port ∈ reserved_ports).

Section Ports.

(** Whether [self.logger] was set by [__init__]; without it
    [_log_debug] writes nothing and the other levels print. *)
Variable has_logger : bool.

(** The outcome of binding the test socket to [(host, port)]. Within one
    search no port is tried twice. *)
Variable bind : string → Z → BindResult.

(** [_log_debug] *)
Definition _log_debug (e : LogEvent) : list LogEvent :=
  if has_logger then [e] else [].

(** [is_port_available], with the messages it writes. *)
Definition is_port_available (host : string) (port : Z) : bool * list LogEvent :=
  match bind host port with
  | Bound => (true, [])
  | BindOSError e => (false, _log_debug (LogPortTaken port e))
  | BindOtherError e => (false, [LogPortCheckFailed e])
  end.

(** The first loop of [find_available_port] (lines 141-150) over the
    offsets left; [None] when it ends without returning. *)
Fixpoint search_up (host : string) (preferred_port : Z) (offsets : list Z)
  : option Z * list LogEvent :=
  match offsets with
  | [] => (None, [])
  | offset :: offsets' =>
    let candidate_port := (preferred_port + offset)%Z in
    if _is_reserved_port candidate_port
    then search_up host preferred_port offsets'
    else
      let '(available, log1) := is_port_available host candidate_port in
      if available then (Some candidate_port, log1 ++ [LogFoundPort candidate_port])
      else
        let '(r, log2) := search_up host preferred_port offsets' in
        (r, log1 ++ log2)
  end.

(** The second loop (lines 153-164), with its [break]. *)
Fixpoint search_down (host : string) (preferred_port : Z) (offsets : list Z)
  : option Z * list LogEvent :=
  match offsets with
  | [] => (None, [])
  | offset :: offsets' =>
    let candidate_port := (preferred_port - offset)%Z in
    if (candidate_port <? 1024)%Z then (None, [])
    else if _is_reserved_port candidate_port
    then search_down host preferred_port offsets'
    else
      let '(available, log1) := is_port_available host candidate_port in
      if available then (Some candidate_port, log1 ++ [LogFoundPort candidate_port])
      else
        let '(r, log2) := search_down host preferred_port offsets' in
        (r, log1 ++ log2)
  end.

(** [range(1, n + 1)] *)
Definition offsets_to (n : Z) : list Z := seqZ 1 n.

(** [find_available_port], with the messages it writes; [None] is the
    [None] it returns. *)
Definition find_available_port (host : string) (preferred_port port_range : Z)
  : option Z * list LogEvent :=
  let '(available, log0) := is_port_available host preferred_port in
  if available then (Some preferred_port, log0 ++ [LogPreferredAvailable preferred_port])
  else
    let log1 := log0 ++ [LogPreferredTaken preferred_port] in
    match search_up host preferred_port (offsets_to port_range) with
    | (Some port, log2) => (Some port, log1 ++ log2)
    | (None, log2) =>
      match search_down host preferred_port
              (offsets_to (Z.min (preferred_port - 1024) port_range)) with
      | (Some port, log3) => (Some port, log1 ++ log2 ++ log3)
      | (None, log3) =>
        (None, log1 ++ log2 ++ log3 ++ [LogNoPortFound preferred_port port_range])
      end
    end.

End Ports.

End PortManager.

(** ** The deviation score in the specification's words

    Steps 1 to 5 of the scoring algorithm, on the retained rates of one
    symbol (oldest first), to compare the two routines of the source
    against. [None] is "no score is produced". *)

Module Spec.

(** Step 2: the historical partition is every point but the most recent,
    the current point is the most recent. *)
Definition historical (window : list float) : list float :=
  take (length window - 1) window.

Definition current (window : list float) : option float := last window.

(** Step 3: the sample mean, and the sample standard deviation with the
    [n - 1] divisor. The values are binary64 and a sum of them rounds at
    every addition; the sums are taken as NumPy takes them. *)
Definition sample_mean (xs : list float) : float :=
  (Ndarray.sum xs / Float.of_nat (length xs))%float.

Definition sample_std (xs : list float) : float :=
  let m := sample_mean xs in
  PrimFloat.sqrt
    (Ndarray.sum ((λ x, ((m - x) * (m - x))%float) <$> xs)
     / Float.of_nat (length xs - 1))%float.

(** The epsilon of step 4. *)
Definition epsilon : float := 1e-10%float.

(** Steps 1, 4 and 5 around them. *)
Definition z_value (window : list float) : option float :=
  if length window <? 3 then None else
  match current window with
  | None => None
  | Some x =>
    let hist := historical window in
    if length hist <? 2 then None else
    let sd := sample_std hist in
    if Float.isna sd || PrimFloat.ltb sd epsilon then None
    else Some ((x - sample_mean hist) / sd)%float
  end.

Definition deviation_score (window : list float) : option float :=
  PrimFloat.abs <$> z_value window.

End Spec.

(** ** Instances for running the model *)

Module Numpy.

(** An [argsort] that meets NumPy's contract: the stable ascending sort
    of the positions (of an array without NaN). *)
Definition at_index (a : list float) (i : nat) : float := default nan (a !! i).

Definition precedes (a : list float) (i j : nat) : Prop :=
  PrimFloat.ltb (at_index a j) (at_index a i) = false.

#[global] Instance precedes_dec a i j : Decision (precedes a i j).
Proof. unfold precedes. apply _. Defined.

Definition argsort (a : list float) : list nat :=
  merge_sort (precedes a) (seq 0 (length a)).

End Numpy.

Module Sample.

(** [float()] on the strings of the examples: none is used, the examples
    carry JSON numbers. *)
Definition float_of_str (s : string) : option float := None.

(** An observation under the ['symbol'] / ['funding_rate'] field pair. *)
Definition observation (symbol : string) (rate : float) : json :=
  JDict [("symbol", JStr symbol); ("funding_rate", JNum rate)].

(** A clock that reads [t] everywhere. *)
Definition at_time (t : float) : Clock :=
  {| pd_now := 0%Z; seen_time := t; calc_time := t |}.

(** One observation of BTCUSDT pushed through [update_data], every clock
    reading [t]; and a run of them. *)
Definition ingest (st : BusinessCore) (t : float) (rate : float) : BusinessCore :=
  update_data float_of_str st (observation "BTCUSDT" rate) (λ _, at_time t) t t.

Definition ingest_all (st : BusinessCore) (t : float) (rates : list float)
  : BusinessCore :=
  foldl (λ st rate, ingest st t rate) st rates.

(** A core configured with window size [w]. *)
Definition core_with_window (w : Z) : BusinessCore :=
  mkCore [] ∅ ∅ [] ∅ 0 0 None ∅ None false w (15 * 60)%float [LogCoreInit].

(** [json.loads] on the frames of the examples. *)
Definition json_loads (message : string) : option json :=
  if decide (message = "[]") then Some (JList [])
  else if decide (message = "{}") then Some (JDict [])
  else if decide (message = "not json") then None
  else None.

End Sample.

(** * Properties *)

(** ** The order of binary64 values

    The comparisons of [PrimFloat], read through their specification
    [SFcompare]: on values that are not NaN they are the lexicographic
    order of a key in [Z * Z * Z]. *)

Module FloatOrder.

(** A key in Z*Z*Z whose lexicographic order is the order of the
    non-NaN floats. *)
Definition key (f : spec_float) : Z * Z * Z :=
  match f with
  | S754_zero _ => (0, 0, 0)
  | S754_infinity s => (if s then -2 else 2, 0, 0)
  | S754_nan => (0, 0, 0)
  | S754_finite s m e => if s then (-1, - e, Z.neg m) else (1, e, Z.pos m)
  end%Z.

Definition lex (a b : Z * Z * Z) : comparison :=
  match (a.1.1 ?= b.1.1)%Z with
  | Eq => match (a.1.2 ?= b.1.2)%Z with
          | Eq => (a.2 ?= b.2)%Z
          | c => c
          end
  | c => c
  end.

Definition is_nan (f : spec_float) : bool :=
  match f with S754_nan => true | _ => false end.

Lemma SFcompare_key f1 f2 :
  SFcompare f1 f2 =
  if is_nan f1 || is_nan f2 then None else Some (lex (key f1) (key f2)).
Proof.
  destruct f1 as [s1|s1| |s1 m1 e1], f2 as [s2|s2| |s2 m2 e2];
    try destruct s1; try destruct s2; try reflexivity; cbn -[Z.compare Z.opp].
  unfold lex; cbn -[Z.compare Z.opp].
  destruct (Z.compare_spec e1 e2), (Z.compare_spec (- e1) (- e2));
      try lia; reflexivity.
Qed.

Definition lexle (a b : Z * Z * Z) : Prop := lex a b <> Gt.
Definition lexlt (a b : Z * Z * Z) : Prop := lex a b = Lt.

#[local] Instance lexle_dec a b : Decision (lexle a b).
Proof. unfold lexle. apply _. Defined.

#[local] Instance lexlt_dec a b : Decision (lexlt a b).
Proof. unfold lexlt. apply _. Defined.

Lemma lex_spec a b :
  match lex a b with
  | Eq => a = b
  | Lt => (a.1.1 < b.1.1 \/ a.1.1 = b.1.1 /\ (a.1.2 < b.1.2 \/ a.1.2 = b.1.2 /\ a.2 < b.2))%Z
  | Gt => (b.1.1 < a.1.1 \/ a.1.1 = b.1.1 /\ (b.1.2 < a.1.2 \/ a.1.2 = b.1.2 /\ b.2 < a.2))%Z
  end.
Proof.
  destruct a as [[a1 a2] a3], b as [[b1 b2] b3]; unfold lex; cbn.
  destruct (Z.compare_spec a1 b1); [|lia..].
  destruct (Z.compare_spec a2 b2); [|lia..].
  destruct (Z.compare_spec a3 b3); [|lia..].
  congruence.
Qed.

Lemma lexle_trans a b c : lexle a b -> lexle b c -> lexle a c.
Proof.
  unfold lexle. intros Hab Hbc.
  pose proof (lex_spec a b) as H1. pose proof (lex_spec b c) as H2.
  pose proof (lex_spec a c) as H3.
  destruct a as [[a1 a2] a3], b as [[b1 b2] b3], c as [[c1 c2] c3].
  destruct (lex (a1, a2, a3) (b1, b2, b3)), (lex (b1, b2, b3) (c1, c2, c3)),
    (lex (a1, a2, a3) (c1, c2, c3));
    try congruence; cbn in *; simplify_eq; lia.
Qed.

Lemma lex_antisym a b : lex b a = CompOpp (lex a b).
Proof.
  pose proof (lex_spec a b) as H1. pose proof (lex_spec b a) as H2.
  destruct a as [[a1 a2] a3], b as [[b1 b2] b3].
  destruct (lex (a1, a2, a3) (b1, b2, b3)), (lex (b1, b2, b3) (a1, a2, a3));
    try reflexivity; cbn in *; simplify_eq; lia.
Qed.

Lemma lex_refl a : lex a a = Eq.
Proof.
  destruct a as [[a1 a2] a3]. unfold lex; cbn. by rewrite !Z.compare_refl.
Qed.

Definition fkey (x : float) : Z * Z * Z := key (Prim2SF x).

Lemma isna_spec x : Float.isna x = is_nan (Prim2SF x).
Proof.
  unfold Float.isna. rewrite FloatAxioms.eqb_spec. unfold SFeqb. rewrite SFcompare_key.
  destruct (is_nan (Prim2SF x)); [done|]. cbn. by rewrite lex_refl.
Qed.

Lemma leb_key x y :
  PrimFloat.leb x y =
  negb (Float.isna x) && negb (Float.isna y) && bool_decide (lexle (fkey x) (fkey y)).
Proof.
  rewrite FloatAxioms.leb_spec, !isna_spec. unfold SFleb. rewrite SFcompare_key.
  unfold fkey.
  destruct (is_nan (Prim2SF x)), (is_nan (Prim2SF y)); cbn; try done.
  symmetry. destruct (lex _ _) eqn:E;
    [apply bool_decide_eq_true_2 | apply bool_decide_eq_true_2
    | apply bool_decide_eq_false_2]; unfold lexle; rewrite E; congruence.
Qed.

Lemma ltb_key x y :
  PrimFloat.ltb x y =
  negb (Float.isna x) && negb (Float.isna y) && bool_decide (lexlt (fkey x) (fkey y)).
Proof.
  rewrite FloatAxioms.ltb_spec, !isna_spec. unfold SFltb. rewrite SFcompare_key.
  unfold fkey.
  destruct (is_nan (Prim2SF x)), (is_nan (Prim2SF y)); cbn; try done.
  symmetry. destruct (lex _ _) eqn:E;
    [apply bool_decide_eq_false_2 | apply bool_decide_eq_true_2
    | apply bool_decide_eq_false_2]; unfold lexlt; rewrite E; congruence.
Qed.

Lemma leb_trans x y z :
  PrimFloat.leb x y = true -> PrimFloat.leb y z = true -> PrimFloat.leb x z = true.
Proof.
  rewrite !leb_key, !andb_true_iff, !bool_decide_eq_true.
  intros [[??]?] [[??]?]. eauto using lexle_trans.
Qed.

Lemma ltb_false_leb x y :
  Float.isna x = false -> Float.isna y = false ->
  PrimFloat.ltb y x = false -> PrimFloat.leb x y = true.
Proof.
  rewrite ltb_key, leb_key. intros -> ->. cbn.
  rewrite bool_decide_eq_false, bool_decide_eq_true.
  unfold lexlt, lexle. rewrite (lex_antisym (fkey x) (fkey y)).
  destruct (lex (fkey x) (fkey y)); cbn; congruence.
Qed.

Lemma ltb_true_notna x y :
  PrimFloat.ltb x y = true -> Float.isna x = false /\ Float.isna y = false.
Proof.
  rewrite ltb_key, !andb_true_iff, !negb_true_iff. tauto.
Qed.

Lemma leb_true_notna x y :
  PrimFloat.leb x y = true -> Float.isna x = false /\ Float.isna y = false.
Proof.
  rewrite leb_key, !andb_true_iff, !negb_true_iff. tauto.
Qed.

Lemma ltb_leb_false x y :
  PrimFloat.ltb x y = true -> PrimFloat.leb y x = false.
Proof.
  rewrite ltb_key, leb_key, !andb_true_iff, bool_decide_eq_true.
  intros [[-> ->] Hlt]. cbn. apply bool_decide_eq_false.
  unfold lexlt, lexle in *. rewrite (lex_antisym (fkey x) (fkey y)), Hlt. cbn. congruence.
Qed.

End FloatOrder.

(** ** What the data methods leave alone

    The thread handle, the stop event, the window size and the TTL are
    written by [__init__], [start] and [stop] only. *)

Definition same_control (a b : BusinessCore) : Prop :=
  ranking_thread a = ranking_thread b ∧ stop_event a = stop_event b ∧
  window_size a = window_size b ∧ champion_ttl a = champion_ttl b.

#[global] Instance same_control_equiv : Equivalence same_control.
Proof.
  split.
  - by intros a.
  - intros a b (?&?&?&?). by repeat split.
  - intros a b c (?&?&?&?) (?&?&?&?). repeat split; congruence.
Qed.

Section CoreFrame.

Variable float_of_str : string → option float.
Variable np_argsort : list float → list nat.

Lemma _extract_rate_control st item :
  same_control (_extract_rate float_of_str st item).1 st.
Proof.
  unfold _extract_rate. repeat case_match; simplify_eq/=; done.
Qed.

Lemma _validate_item_control st item :
  same_control (_validate_item float_of_str st item).1 st.
Proof.
  unfold _validate_item. destruct item; try done.
  pose proof (_extract_rate_control st d) as H.
  destruct (_extract_rate float_of_str st d) as [st1 [[symbol rate]|]]; simpl in *;
    repeat case_match; simpl; done.
Qed.

Lemma _calculate_volatility_control st symbol old_rate new_rate t :
  same_control (_calculate_volatility st symbol old_rate new_rate t) st.
Proof.
  unfold _calculate_volatility. repeat case_match; simpl; done.
Qed.

Lemma _process_single_item_control st clk item :
  same_control (_process_single_item float_of_str st clk item).1 st.
Proof.
  unfold _process_single_item.
  pose proof (_validate_item_control st item) as Hv.
  destruct (_validate_item float_of_str st item) as [st1 valid]; simpl in *.
  destruct valid; simpl; [|done].
  destruct item; try done.
  pose proof (_extract_rate_control st1 d) as He.
  destruct (_extract_rate float_of_str st1 d) as [st2 r]; simpl in *.
  assert (same_control st2 st) as H2 by (by etrans).
  destruct r as [[[] new_rate]|]; try done.
  case_match; simpl; [done|].
  case_match; simpl; [|done].
  etrans; [apply _calculate_volatility_control|done].
Qed.

Lemma process_items_control items st clk i n :
  same_control (process_items float_of_str st clk i items n).1 st.
Proof.
  revert st i n. induction items as [|item items IH]; intros st i n; simpl; [done|].
  pose proof (_process_single_item_control st (clk i) item) as H.
  destruct (_process_single_item float_of_str st (clk i) item) as [st1 ok].
  etrans; [apply IH|done].
Qed.

Lemma _update_statistics_control st n t :
  same_control (_update_statistics st n t) st.
Proof. unfold _update_statistics. case_match; done. Qed.

Lemma _cleanup_caches_control st t :
  same_control (_cleanup_caches st t) st.
Proof. unfold _cleanup_caches. case_match; done. Qed.

Lemma update_data_control st data clk t1 t2 :
  same_control (update_data float_of_str st data clk t1 t2) st.
Proof.
  unfold update_data.
  match goal with |- context [process_items _ _ _ _ ?l _] =>
    pose proof (process_items_control l st clk 0 0) as H;
    destruct (process_items float_of_str st clk 0 l 0) as [st1 n] end.
  simpl in H. repeat case_match; try done.
  - etrans; [apply _cleanup_caches_control|].
    etrans; [apply _update_statistics_control|done].
  - etrans; [apply _update_statistics_control|done].
Qed.

Lemma _update_top5_ranking_control st t :
  same_control (_update_top5_ranking np_argsort st t) st.
Proof. unfold _update_top5_ranking. repeat case_match; done. Qed.

End CoreFrame.

(** ** Restarting the core *)

(** The calls a process makes on a core, and a turn of the ranking loop. *)
Inductive CoreCall : Type :=
| CallStart
| CallStop
| CallUpdateData (data : json) (clk : nat → Clock) (stats_time cleanup_time : float)
| RankingTurn (current_time : float).

Section Restart.

Variable float_of_str : string → option float.
Variable np_argsort : list float → list nat.

Definition run_call (st : BusinessCore) (c : CoreCall) : BusinessCore :=
  match c with
  | CallStart => start st
  | CallStop => stop st
  | CallUpdateData data clk t1 t2 => update_data float_of_str st data clk t1 t2
  | RankingTurn t => _ranking_loop_turn np_argsort st t
  end.

Definition run_calls (st : BusinessCore) (cs : list CoreCall) : BusinessCore :=
  foldl run_call st cs.

(** The core after a [stop] that followed a [start]: the handle is set,
    its thread has ended, the event is set. *)
Definition stopped (st : BusinessCore) : Prop :=
  ranking_thread st = Some {| is_alive := false |} ∧ stop_event st = true.

Lemma stopped_stop_start st : stopped (stop (start st)).
Proof.
  unfold stopped, stop, start.
  destruct (ranking_thread st) as [[[]]|] eqn:E; simpl; rewrite ?E; simpl; done.
Qed.

Lemma start_stopped st : stopped st → start st = st.
Proof. intros [H _]. unfold start. by rewrite H. Qed.

Lemma stopped_same_control a b : same_control a b → stopped b → stopped a.
Proof. intros (?&?&_) [??]. split; congruence. Qed.

Lemma stopped_run_call st c : stopped st → stopped (run_call st c).
Proof.
  intros H. destruct c; simpl.
  - by rewrite start_stopped.
  - destruct H as [H1 H2]. unfold stopped, stop. simpl. rewrite H1. simpl. by rewrite H1.
  - eapply stopped_same_control; [apply update_data_control|done].
  - unfold _ranking_loop_turn. destruct H as [H1 H2]. by rewrite H2.
Qed.

Lemma stopped_run_calls cs st : stopped st → stopped (run_calls st cs).
Proof.
  revert st. induction cs as [|c cs IH]; intros st H; simpl; [done|].
  apply IH, stopped_run_call, H.
Qed.

(** C10. Once [stop()] has been called on a started core, whatever the
    process calls next, [start()] returns the core as it found it: the
    handle written by the first [start] is still there, so nothing is
    cleared and no thread is created; the old thread has ended and the
    stop event stays set, so no turn of the ranking loop runs again. *)
Theorem start_after_stop_is_noop (st : BusinessCore) (cs : list CoreCall) :
  let st1 := run_calls (stop (start st)) cs in
  start st1 = st1 ∧
  ranking_thread st1 = Some {| is_alive := false |} ∧
  stop_event st1 = true ∧
  (∀ t, _ranking_loop_turn np_argsort st1 t = st1).
Proof.
  intros st1.
  assert (stopped st1) as H by apply stopped_run_calls, stopped_stop_start.
  split; [by apply start_stopped|]. destruct H as [H1 H2].
  repeat split; try done. intros t. unfold _ranking_loop_turn. by rewrite H2.
Qed.

End Restart.

(** ** The stream client *)

Module ClientFacts.

Import BinanceWebSocketClient.

(** The hosts the log shows the cursor moving to, oldest first. *)
Definition switched_hosts (l : list LogEvent) : list string :=
  omap (λ e, match e with LogSwitchHost (Some h) => Some h | _ => None end) l.

Section Loop.

Variable json_loads : string → option json.
Variable World : Type.
Variable data_handler : option (json → World → World * option string).

Lemma _switch_to_next_host_index c :
  current_host_index (_switch_to_next_host c)
  = (current_host_index c + 1) `mod` length BACKUP_HOSTS.
Proof. reflexivity. Qed.

Lemma _handle_connection_error_frame c e n :
  current_host_index (_handle_connection_error c e n) = current_host_index c ∧
  is_running (_handle_connection_error c e n) = is_running c.
Proof. unfold _handle_connection_error. by case_match. Qed.

Lemma failed_attempts errors : ∀ attempt c w,
  is_running c = true →
  current_host_index c < length BACKUP_HOSTS →
  ∃ c', _connection_loop json_loads World data_handler
          (ConnectFailed <$> errors) attempt c w = (c', w, Suspended) ∧
        is_running c' = true ∧
        current_host_index c'
        = (current_host_index c + length errors) `mod` length BACKUP_HOSTS.
Proof.
  induction errors as [|e errors IH]; intros attempt c w Hrun Hlt.
  - exists c. split; [simpl; by rewrite Hrun|]. split; [done|].
    rewrite Nat.add_0_r. symmetry. by apply Nat.mod_small.
  - cbn [fmap list_fmap _connection_loop length]. rewrite Hrun.
    set (step := λ c0 : t, _switch_to_next_host (_handle_connection_error c0 e attempt)).
    assert (∀ c0, is_running c0 = true → current_host_index c0 = current_host_index c →
            ∃ c', _connection_loop json_loads World data_handler
                    (ConnectFailed <$> errors) (attempt + 1) (step c0) w
                  = (c', w, Suspended) ∧
                  is_running c' = true ∧
                  current_host_index c'
                  = (current_host_index c + S (length errors)) `mod` length BACKUP_HOSTS)
      as Hstep.
    { intros c0 Hrun0 Hidx.
      destruct (_handle_connection_error_frame c0 e attempt) as [Hi Hr].
      assert (is_running (step c0) = true) as Hrun1 by (unfold step; simpl; congruence).
      assert (current_host_index (step c0)
              = (current_host_index c + 1) `mod` length BACKUP_HOSTS) as Hidx1.
      { unfold step. rewrite _switch_to_next_host_index. congruence. }
      destruct (IH (attempt + 1) (step c0) w Hrun1) as (c' & Heq & Hr' & Hi').
      { rewrite Hidx1. by apply Nat.mod_upper_bound. }
      exists c'. split; [done|]. split; [done|].
      rewrite Hi', Hidx1. rewrite Nat.Div0.add_mod_idemp_l.
      f_equal. lia. }
    destruct (lookup_lt_is_Some_2 BACKUP_HOSTS _ Hlt) as [host Hhost].
    unfold _get_current_url. rewrite Hhost.
    by apply (Hstep (logger c (LogConnecting _))).
Qed.

(** Handling a frame leaves the host cursor where it is. *)
Lemma _process_message_keeps_host c w m :
  current_host_index (_process_message json_loads World data_handler c w m).1
  = current_host_index c.
Proof.
  unfold _process_message, _call_handler_safely.
  destruct (json_loads m) as [data|]; [|done].
  destruct data_handler as [handler|]; [|done].
  by destruct (handler data w) as [w' [e|]].
Qed.

(** The receive loop never moves the host cursor: a connection that was
    established and then closed, by the peer or by an error, is followed
    by a new attempt on the same host. *)
Lemma _message_loop_keeps_host events : ∀ c w,
  current_host_index (_message_loop json_loads World data_handler events c w).1.1
  = current_host_index c.
Proof.
  induction events as [|ev events IH]; intros c w; simpl.
  - by destruct (is_connected c && is_running c).
  - destruct (is_connected c && is_running c); [|done].
    destruct ev as [now r|]; [|by rewrite IH].
    destruct (_should_reconnect c now); [done|].
    destruct r as [m| | |e]; [|by rewrite IH|done|done].
    pose proof (_process_message_keeps_host c w m) as Hm.
    destruct (_process_message json_loads World data_handler c w m) as [c1 w1].
    by rewrite IH.
Qed.

(** Frames arriving one per pass of the receive loop, each with the
    clock of its pass. *)
Definition frames (ms : list (float * string)) : list LoopEvent :=
  (λ p, Pass p.1 (RecvMessage p.2)) <$> ms.

(** The payloads of the frames that decode, and the frames that do not. *)
Definition decoded (ms : list (float * string)) : list json :=
  omap (λ p, json_loads p.2) ms.

Definition undecodable (ms : list (float * string)) : list string :=
  filter (λ m, json_loads m = None) ms.*2.

(** One invocation of the registered handler (none registered: nothing). *)
Definition call_handler (w : World) (data : json) : World :=
  match data_handler with
  | Some handler => (handler data w).1
  | None => w
  end.

(** The decode failures a log reports. *)
Definition decode_failures (l : list LogEvent) : list string :=
  omap (λ e, match e with LogJsonDecodeFailed m => Some m | _ => None end) l.

Lemma _process_message_spec c w m :
  let r := _process_message json_loads World data_handler c w m in
  message_count r.1 = message_count c + 1 ∧
  is_connected r.1 = is_connected c ∧
  is_running r.1 = is_running c ∧
  connection_start_time r.1 = connection_start_time c ∧
  r.2 = match json_loads m with Some d => call_handler w d | None => w end ∧
  decode_failures (log r.1)
  = decode_failures (log c) ++ match json_loads m with None => [m] | Some _ => [] end.
Proof.
  unfold _process_message, call_handler, _call_handler_safely, decode_failures.
  destruct (json_loads m) as [d|]; simpl.
  - destruct data_handler as [h|]; simpl.
    + destruct (h d w) as [w' [e|]]; simpl; rewrite ?omap_app, ?app_nil_r; done.
    + by rewrite app_nil_r.
  - by rewrite omap_app.
Qed.

(** C8, as the code has it. A frame that fails to decode is logged and
    the receive loop goes on: it stays connected, running and waiting
    for the next frame. The handler is invoked on the payloads that
    decode, once each and in order, and on nothing else. The message
    counter is incremented for every frame received, before the frame
    is decoded: it counts the frames, decodable or not. *)
Theorem message_loop_counts_frames (ms : list (float * string)) (c : t) (w : World) :
  is_connected c = true → is_running c = true →
  Forall (λ p, _should_reconnect c p.1 = false) ms →
  let r := _message_loop json_loads World data_handler (frames ms) c w in
  r.2 = Suspended ∧
  is_connected r.1.1 = true ∧ is_running r.1.1 = true ∧
  message_count r.1.1 = message_count c + length ms ∧
  r.1.2 = foldl call_handler w (decoded ms) ∧
  decode_failures (log r.1.1) = decode_failures (log c) ++ undecodable ms.
Proof.
  revert c w. induction ms as [|[now m] ms IH]; intros c w Hc Hr Hall.
  - simpl. rewrite Hc, Hr. simpl. by rewrite Nat.add_0_r, app_nil_r.
  - apply Forall_cons in Hall as [Hnow Hall]. simpl in Hnow.
    cbn [frames fmap list_fmap _message_loop fst snd].
    rewrite Hc, Hr, Hnow. cbn [andb].
    pose proof (_process_message_spec c w m) as Hm.
    destruct (_process_message json_loads World data_handler c w m) as [c1 w1].
    cbn [fst snd] in Hm. destruct Hm as (Hcnt & Hc1 & Hr1 & Hst & Hw & Hlog).
    specialize (IH c1 w1). cbn zeta in IH. fold (frames ms).
    destruct IH as (Hs & Hc' & Hr' & Hcnt' & Hw' & Hlog'); try congruence.
    { eapply Forall_impl; [exact Hall|]. intros p Hp.
      unfold _should_reconnect in *. by rewrite Hst. }
    repeat split; try done.
    + rewrite Hcnt', Hcnt. simpl. lia.
    + rewrite Hw', Hw. unfold decoded. simpl.
      by destruct (json_loads m).
    + rewrite Hlog', Hlog, <- app_assoc. f_equal.
      unfold undecodable. simpl. rewrite filter_cons.
      destruct (json_loads m); by case_decide.
Qed.

End Loop.

(** A client whose first connection attempt succeeds at time 0 and then
    receives the frames [ms]; no handler is registered. *)
Definition receive (ms : list (float * string)) : t :=
  (_connection_loop Sample.json_loads unit None
     [ConnectOk 0 (frames ms)] 0
     (set_is_running (init "/ws/!markPrice@arr@1s") true) ()).1.1.

(** C8 fails as stated: a fresh client that receives the single frame
    [not json], which does not decode, has its message counter at 1,
    while no message was decoded. *)
Lemma counter_counts_undecodable_frame :
  Sample.json_loads "not json" = None ∧
  decoded Sample.json_loads [(1%float, "not json")] = [] ∧
  message_count (receive [(1%float, "not json")]) = 1 ∧
  decode_failures (log (receive [(1%float, "not json")])) = ["not json"].
Proof. vm_compute. done. Qed.

(** The loop theorem at a client connected at time 0 that receives one
    undecodable and one decodable frame. *)
Lemma message_loop_counts_frames_witness :
  let c := set_connected (set_is_running (init "/ws/!markPrice@arr@1s") true)
             "wss://fstream.binance.com/ws/!markPrice@arr@1s" 0 in
  let ms := [(1%float, "not json"); (2%float, "[]")] in
  let r := _message_loop Sample.json_loads unit None (frames ms) c () in
  (is_connected c = true ∧ is_running c = true ∧
   Forall (λ p, _should_reconnect c p.1 = false) ms) ∧
  r.2 = Suspended ∧
  is_connected r.1.1 = true ∧ is_running r.1.1 = true ∧
  message_count r.1.1 = message_count c + length ms ∧
  r.1.2 = foldl (call_handler unit None) () (decoded Sample.json_loads ms) ∧
  decode_failures (log r.1.1)
  = decode_failures (log c) ++ undecodable Sample.json_loads ms.
Proof.
  assert (Forall (λ p : float * string,
                    _should_reconnect
                      (set_connected (set_is_running (init "/ws/!markPrice@arr@1s") true)
                         "wss://fstream.binance.com/ws/!markPrice@arr@1s" 0) p.1 = false)
                 [(1%float, "not json"); (2%float, "[]")]) as Hall
    by (repeat constructor).
  split; [split; [reflexivity|split; [reflexivity|exact Hall]]|].
  exact (message_loop_counts_frames Sample.json_loads unit None
           [(1%float, "not json"); (2%float, "[]")]
           (set_connected (set_is_running (init "/ws/!markPrice@arr@1s") true)
              "wss://fstream.binance.com/ws/!markPrice@arr@1s" 0) ()
           eq_refl eq_refl Hall).
Defined.

End ClientFacts.

(** ** Ingesting one item *)

(** The core without its log. *)
Definition unlogged (st : BusinessCore) : BusinessCore :=
  mkCore (current_rates st) (rate_history st) (volatility_data st)
    (top5_symbols st) (champion_records st) (total_symbols st)
    (data_update_count st) (last_update_time st) (symbol_last_seen st)
    (ranking_thread st) (stop_event st) (window_size st) (champion_ttl st) [].

Lemma unlogged_logger st e : unlogged (logger st e) = unlogged st.
Proof. reflexivity. Qed.

Section Ingest.

Variable float_of_str : string → option float.

(** What [_extract_rate] returns for an item, whatever the core. *)
Definition extracted (item : list (string * json)) : option (json * float) :=
  (_extract_rate float_of_str init item).2.

(** The observation an item stands for when [_process_single_item]
    accepts it: the checks of [_validate_item] and
    [_should_process_symbol] on what [_extract_rate] returns. *)
Definition reading (item : json) : option (string * float) :=
  match item with
  | JDict d =>
    match extracted d with
    | Some (JStr symbol, rate) =>
      if PrimFloat.ltb (-1000) rate && PrimFloat.ltb rate 1000
         && _should_process_symbol symbol
      then Some (symbol, rate) else None
    | _ => None
    end
  | _ => None
  end.

(** The series of a symbol after one more row, cut to the window (lines
    126-136). *)
Definition next_series (st : BusinessCore) (t : Pandas.Timestamp)
    (symbol : string) (new_rate : float) : Pandas.Series :=
  let series :=
    match rate_history st !! symbol with
    | None => [(t, new_rate)]
    | Some s => Pandas.concat1 s t new_rate
    end in
  if (window_size st <? Z.of_nat (length series))%Z
  then Pandas.iloc_from (- window_size st) series
  else series.

(** The core once the rate is stored, before any scoring (lines 119-138). *)
Definition stored (st : BusinessCore) (clk : Clock) (symbol : string)
    (new_rate : float) : BusinessCore :=
  let st3 := set_current_rates st (PyDict.set symbol new_rate (current_rates st)) in
  let st4 := set_rate_history st3
               (<[symbol := next_series st (pd_now clk) symbol new_rate]>
                  (rate_history st3)) in
  set_symbol_last_seen st4 (<[symbol := seen_time clk]> (symbol_last_seen st4)).

(** The rate the new one is compared with (line 119). *)
Definition previous_rate (st : BusinessCore) (symbol : string) (new_rate : float)
  : float :=
  default new_rate (PyDict.get symbol (current_rates st)).

(** The gate of line 142: the rate changed. *)
Definition rate_changed (st : BusinessCore) (symbol : string) (new_rate : float)
  : bool :=
  Float.gtb (PrimFloat.abs (new_rate - previous_rate st symbol new_rate)%float) 1e-9.

(** The body of [_process_single_item] past its checks (lines 119-145). *)
Definition record_observation (st : BusinessCore) (clk : Clock) (symbol : string)
    (new_rate : float) : BusinessCore :=
  if rate_changed st symbol new_rate
  then _calculate_volatility (stored st clk symbol new_rate) symbol
         (previous_rate st symbol new_rate) new_rate (calc_time clk)
  else stored st clk symbol new_rate.

Lemma _extract_rate_cases st d :
  _extract_rate float_of_str st d = (st, extracted d) ∨
  _extract_rate float_of_str st d = (logger st LogExtractFailed, None)
  ∧ extracted d = None.
Proof.
  unfold extracted, _extract_rate.
  repeat case_match; simplify_eq/=; auto.
Qed.

Lemma process_accepted st clk item symbol rate :
  reading item = Some (symbol, rate) →
  _process_single_item float_of_str st clk item
  = (record_observation st clk symbol rate, true).
Proof.
  unfold reading. destruct item as [| | | | |d]; try done.
  destruct (extracted d) as [[[| | |s| |] r]|] eqn:Hex; try done.
  destruct (PrimFloat.ltb (-1000) r && PrimFloat.ltb r 1000) eqn:Hrange; [|done].
  destruct (_should_process_symbol s) eqn:Hsym; [|done].
  simpl. intros [= -> ->].
  unfold _process_single_item, _validate_item.
  destruct (_extract_rate_cases st d) as [->|[_ ?]]; [|congruence].
  rewrite Hex. simpl. rewrite Hrange. simpl.
  destruct (_extract_rate_cases st d) as [->|[_ ?]]; [|congruence].
  rewrite Hex, Hsym. simpl.
  unfold record_observation, rate_changed, previous_rate, stored, next_series.
  simpl. done.
Qed.

Lemma process_rejected st clk item :
  reading item = None →
  (_process_single_item float_of_str st clk item).2 = false ∧
  unlogged (_process_single_item float_of_str st clk item).1 = unlogged st.
Proof.
  unfold reading, _process_single_item, _validate_item.
  destruct item as [| | | | |d]; try done.
  destruct (_extract_rate_cases st d) as [->|[-> ->]]; [|done].
  destruct (extracted d) as [[[| | |s| |] r]|] eqn:Hex; try done.
  simpl.
  destruct (PrimFloat.ltb (-1000) r && PrimFloat.ltb r 1000) eqn:Hrange; simpl; [|done].
  destruct (_extract_rate_cases st d) as [->|[_ ?]]; [|congruence].
  rewrite Hex. destruct (_should_process_symbol s); done.
Qed.

End Ingest.

(** ** NumPy's pairwise sum *)

(** The counter of [Ndarray.pairwise] never runs out: any counter that is
    at least the length of the array gives the same sum. *)
Lemma pairwise_enough_fuel : ∀ fuel1 fuel2 (a : list float),
  length a ≤ fuel1 → length a ≤ fuel2 →
  Ndarray.pairwise fuel1 a = Ndarray.pairwise fuel2 a.
Proof.
  induction fuel1 as [|fuel1 IH]; intros fuel2 a H1 H2.
  - destruct a; [|simpl in H1; lia]. by destruct fuel2.
  - destruct fuel2 as [|fuel2].
    { destruct a; [done|simpl in H2; lia]. }
    cbn [Ndarray.pairwise].
    destruct (Nat.leb_spec (length a) Ndarray.PW_BLOCKSIZE) as [|Hn]; [done|].
    unfold Ndarray.PW_BLOCKSIZE in Hn.
    set (n2 := length a / 2 - (length a / 2) mod 8).
    assert (0 < n2 < length a) as Hn2.
    { pose proof (Nat.mod_upper_bound (length a / 2) 8).
      pose proof (Nat.div_mod_eq (length a) 2).
      pose proof (Nat.mod_upper_bound (length a) 2). subst n2. lia. }
    f_equal; apply IH; rewrite ?length_take, ?length_drop; lia.
Qed.

(** [DOUBLE_pairwise_sum] as the C function reads: an array of at most
    [PW_BLOCKSIZE] values is summed as one block, a longer one is cut
    at [n / 2] rounded down to a multiple of eight and the sums of the two
    parts are added. *)
Lemma pairwise_sum_unfold (a : list float) :
  Ndarray.pairwise_sum a
  = if length a <=? Ndarray.PW_BLOCKSIZE then Ndarray.block_sum a else
    let n2 := length a / 2 - (length a / 2) mod 8 in
    (Ndarray.pairwise_sum (take n2 a) + Ndarray.pairwise_sum (drop n2 a))%float.
Proof.
  unfold Ndarray.pairwise_sum at 1.
  destruct a as [|x a]; [done|].
  cbn [length Ndarray.pairwise].
  destruct (Nat.leb_spec (S (length a)) Ndarray.PW_BLOCKSIZE) as [|Hn]; [done|].
  unfold Ndarray.PW_BLOCKSIZE in Hn. cbv zeta.
  set (n2 := S (length a) / 2 - (S (length a) / 2) mod 8).
  assert (0 < n2 < S (length a)) as Hn2.
  { pose proof (Nat.mod_upper_bound (S (length a) / 2) 8).
    pose proof (Nat.div_mod_eq (S (length a)) 2).
    pose proof (Nat.mod_upper_bound (S (length a)) 2). subst n2. lia. }
  unfold Ndarray.pairwise_sum.
  f_equal; apply pairwise_enough_fuel; rewrite ?length_take, ?length_drop; simpl; lia.
Qed.

(** ** The deviation score: the code against the specification's words *)

Section Score.

Implicit Types (h : Pandas.Series) (st : BusinessCore) (symbol : string).

Lemma mean_values h : Pandas.mean h = Spec.sample_mean (Pandas.values h).
Proof. unfold Pandas.mean, Spec.sample_mean, Pandas.values. by rewrite length_fmap. Qed.

Lemma std_values h : Pandas.std h = Spec.sample_std (Pandas.values h).
Proof.
  unfold Pandas.std, Pandas.var, Spec.sample_std. rewrite mean_values.
  unfold Pandas.values. by rewrite length_fmap.
Qed.

Lemma values_iloc_init h :
  Pandas.values (Pandas.iloc_init h) = Spec.historical (Pandas.values h).
Proof.
  unfold Pandas.iloc_init, Spec.historical, Pandas.values.
  by rewrite fmap_take, length_fmap.
Qed.

Lemma length_iloc_init h : length (Pandas.iloc_init h) = length h - 1.
Proof. unfold Pandas.iloc_init. rewrite length_take. lia. Qed.

(** The window the scoring of an ingested rate works on: the rows before
    the last one, then the rate passed in. *)
Definition scored_window h (new_rate : float) : list float :=
  Spec.historical (Pandas.values h) ++ [new_rate].

Lemma historical_snoc (xs : list float) x : Spec.historical (xs ++ [x]) = xs.
Proof.
  unfold Spec.historical. rewrite length_app. simpl.
  replace (length xs + 1 - 1) with (length xs) by lia.
  by rewrite take_app_length.
Qed.

Lemma window_split (xs : list float) x :
  last xs = Some x → Spec.historical xs ++ [x] = xs.
Proof.
  intros H. destruct (last_Some xs x) as [[l' ->] _]; [done|].
  by rewrite historical_snoc.
Qed.

Lemma scored_window_values h x :
  Pandas.iloc_last h = Some x → scored_window h x = Pandas.values h.
Proof. apply window_split. Qed.

(** Steps 1 to 5 on the scored window, in the terms of the code. *)
Lemma z_value_scored_window h x :
  Spec.z_value (scored_window h x) =
  if length h <? 3 then None else
  let historical_data := Pandas.iloc_init h in
  if length historical_data <? 2 then None else
  let std_dev := Pandas.std historical_data in
  if Float.isna std_dev || PrimFloat.ltb std_dev 1e-10 then None
  else Some ((x - Pandas.mean historical_data) / std_dev)%float.
Proof.
  unfold Spec.z_value, scored_window, Spec.current.
  rewrite last_snoc, historical_snoc, <- values_iloc_init, <- std_values, <- mean_values.
  rewrite length_app. simpl.
  unfold Pandas.values. rewrite !length_fmap, length_iloc_init.
  destruct h as [|r1 [|r2 [|r3 h]]]; try done.
  replace (length (r1 :: r2 :: r3 :: h) - 1 + 1 <? 3) with false
    by (symmetry; apply Nat.ltb_ge; simpl; lia).
  replace (length (r1 :: r2 :: r3 :: h) <? 3) with false
    by (symmetry; apply Nat.ltb_ge; simpl; lia).
  done.
Qed.

(** [_calculate_current_zscore] is step 7's live recomputation: steps 1
    to 5 on the retained rates, [0.0] standing for "no score". *)
Lemma live_score st symbol :
  _calculate_current_zscore st symbol =
  match rate_history st !! symbol with
  | Some h => default 0%float (Spec.deviation_score (Pandas.values h))
  | None => 0%float
  end.
Proof.
  unfold _calculate_current_zscore. destruct (rate_history st !! symbol) as [h|]; [|done].
  destruct (length h <? 3) eqn:Hlen.
  - unfold Spec.deviation_score, Spec.z_value.
    unfold Pandas.values. by rewrite length_fmap, Hlen.
  - destruct (Pandas.iloc_last h) as [x|] eqn:Hlast.
    + rewrite <- (scored_window_values h x Hlast).
      unfold Spec.deviation_score. rewrite z_value_scored_window, Hlen. simpl.
      repeat case_match; done.
    + unfold Pandas.iloc_last in Hlast. apply last_None in Hlast.
      apply fmap_nil_inv in Hlast. by subst.
Qed.

End Score.

(** ** The champion table *)

Section Champion.

Implicit Types (h : Pandas.Series) (st : BusinessCore) (symbol : string).

(** The record line 234 builds. *)
Definition fresh_champion (z ma sd old_rate new_rate t : float) : ChampionRecord :=
  {| max_volatility := PrimFloat.abs z;
     z_score := z;
     moving_average := ma;
     std_dev := sd;
     champion_old_rate := old_rate;
     champion_new_rate := new_rate;
     champion_timestamp := t;
     champion_age_hours := 0 |}.

(** The record of a symbol that survives lines 221-231 at time [t]
    against a new score: it is there, its age is not above the TTL, and
    the new score is not above its own. *)
Definition kept_champion st symbol (score t : float) : option ChampionRecord :=
  match champion_records st !! symbol with
  | Some c =>
    if Float.gtb (t - champion_timestamp c)%float (champion_ttl st) then None
    else if Float.gtb score (max_volatility c) then None
    else Some c
  | None => None
  end.

(** The record of the symbol when [_calculate_volatility] returns. *)
Definition champion_after st symbol (z ma sd old_rate new_rate t : float)
  : ChampionRecord :=
  let c := default (fresh_champion z ma sd old_rate new_rate t)
             (kept_champion st symbol (PrimFloat.abs z) t) in
  set_champion_age_hours c ((t - champion_timestamp c) / 3600)%float.

Lemma calc_unscored st symbol old_rate new_rate t :
  match rate_history st !! symbol with
  | Some h => Spec.z_value (scored_window h new_rate) = None
  | None => True
  end →
  _calculate_volatility st symbol old_rate new_rate t = st.
Proof.
  unfold _calculate_volatility.
  destruct (rate_history st !! symbol) as [h|]; [|done].
  rewrite z_value_scored_window. cbn zeta.
  repeat case_match; done.
Qed.

Lemma calc_scored st symbol old_rate new_rate t h z :
  rate_history st !! symbol = Some h →
  Spec.z_value (scored_window h new_rate) = Some z →
  let hist := Pandas.iloc_init h in
  let c := champion_after st symbol z (Pandas.mean hist) (Pandas.std hist)
             old_rate new_rate t in
  unlogged (_calculate_volatility st symbol old_rate new_rate t)
  = unlogged
      (set_volatility_data
         (set_champion_records st (<[symbol := c]> (champion_records st)))
         (<[symbol := volatility_entry c t]> (volatility_data st))).
Proof.
  intros Hh Hz hist c. subst c hist.
  rewrite z_value_scored_window in Hz. cbn zeta in Hz.
  unfold _calculate_volatility. rewrite Hh.
  destruct (length h <? 3); [done|].
  destruct (length (Pandas.iloc_init h) <? 2); [done|].
  destruct (Float.isna _ || PrimFloat.ltb _ _); [done|].
  injection Hz as <-.
  unfold champion_after, kept_champion.
  destruct (champion_records st !! symbol) as [c0|] eqn:Hc.
  - destruct (Float.gtb (t - champion_timestamp c0) (champion_ttl st)) eqn:Hexp; simpl.
    + rewrite lookup_delete_eq. simpl. rewrite lookup_insert_eq. simpl.
      unfold unlogged. simpl. by rewrite insert_insert_eq, insert_delete_eq.
    + rewrite Hc.
      destruct (Float.gtb _ (max_volatility c0)) eqn:Hgt; simpl.
      * rewrite lookup_insert_eq. unfold unlogged. simpl. by rewrite insert_insert_eq.
      * rewrite Hc. done.
  - simpl. rewrite Hc. simpl. rewrite lookup_insert_eq.
    unfold unlogged. simpl. by rewrite insert_insert_eq.
Qed.

End Champion.

(** ** The rolling window *)

(** The most recent [w] rows of a series. *)
Definition most_recent (w : Z) (s : Pandas.Series) : Pandas.Series :=
  drop (length s - Z.to_nat w) s.

(** Every retained series is within the window size. *)
Definition window_ok (st : BusinessCore) : Prop :=
  ∀ symbol h, rate_history st !! symbol = Some h →
    (Z.of_nat (length h) ≤ window_size st)%Z.

Section Window.

Variable float_of_str : string → option float.

Implicit Types (h : Pandas.Series) (st : BusinessCore) (symbol : string).

Lemma iloc_from_negative (w : Z) h :
  (0 < w)%Z → Pandas.iloc_from (- w) h = most_recent w h.
Proof.
  intros Hw. unfold Pandas.iloc_from, most_recent.
  replace (- w <? 0)%Z with true by (symmetry; apply Z.ltb_lt; lia).
  f_equal. lia.
Qed.

Lemma length_most_recent (w : Z) h :
  length (most_recent w h) = Nat.min (length h) (Z.to_nat w).
Proof. unfold most_recent. rewrite length_drop. lia. Qed.

Lemma most_recent_snoc (w : Z) h row :
  (0 < w)%Z → most_recent w (most_recent w h ++ [row]) = most_recent w (h ++ [row]).
Proof.
  intros Hw. unfold most_recent.
  rewrite !length_app, length_drop. simpl.
  rewrite <- (drop_app_le h [row]) by lia.
  rewrite drop_drop. f_equal. lia.
Qed.

Lemma last_most_recent (w : Z) h row :
  (0 < w)%Z → last (most_recent w (h ++ [row])) = Some row.
Proof.
  intros Hw. unfold most_recent. rewrite length_app. simpl.
  rewrite drop_app_le by lia.
  by rewrite last_snoc.
Qed.

(** The series after an accepted row is the most recent [window_size]
    rows of the old series followed by the row. *)
Lemma next_series_most_recent st t symbol new_rate :
  (0 < window_size st)%Z →
  next_series st t symbol new_rate
  = most_recent (window_size st)
      (default [] (rate_history st !! symbol) ++ [(t, new_rate)]).
Proof.
  intros Hw. unfold next_series, Pandas.concat1.
  assert (∀ l : Pandas.Series,
            (if (window_size st <? Z.of_nat (length l))%Z
             then Pandas.iloc_from (- window_size st) l else l)
            = most_recent (window_size st) l) as Hcut.
  { intros l. destruct (Z.ltb_spec (window_size st) (Z.of_nat (length l))).
    - by apply iloc_from_negative.
    - unfold most_recent. replace (length l - Z.to_nat (window_size st)) with 0 by lia.
      done. }
  destruct (rate_history st !! symbol) as [h|];
    [apply (Hcut (h ++ [(t, new_rate)])) | apply (Hcut [(t, new_rate)])].
Qed.

Lemma _calculate_volatility_untouched st symbol old_rate new_rate t :
  let st' := _calculate_volatility st symbol old_rate new_rate t in
  rate_history st' = rate_history st ∧ current_rates st' = current_rates st ∧
  symbol_last_seen st' = symbol_last_seen st ∧ top5_symbols st' = top5_symbols st.
Proof.
  unfold _calculate_volatility. repeat case_match; simpl; done.
Qed.

Lemma rate_history_record_observation st clk symbol new_rate :
  rate_history (record_observation st clk symbol new_rate)
  = <[symbol := next_series st (pd_now clk) symbol new_rate]> (rate_history st).
Proof.
  unfold record_observation. case_match; [|done].
  by destruct (_calculate_volatility_untouched (stored st clk symbol new_rate) symbol
                 (previous_rate st symbol new_rate) new_rate (calc_time clk)) as [-> _].
Qed.

Lemma window_ok_same a b :
  rate_history a = rate_history b → window_size a = window_size b →
  window_ok b → window_ok a.
Proof. intros H1 H2 Hb symbol h. rewrite H1, H2. apply Hb. Qed.

Lemma window_ok_unlogged a b : unlogged a = unlogged b → window_ok b → window_ok a.
Proof. intros H. apply window_ok_same; by injection H. Qed.

Lemma window_ok_statistics st n t : window_ok st → window_ok (_update_statistics st n t).
Proof. apply window_ok_same; unfold _update_statistics; by case_match. Qed.

Lemma window_ok_process st clk item :
  (0 < window_size st)%Z → window_ok st →
  window_ok (_process_single_item float_of_str st clk item).1.
Proof.
  intros Hw Hok.
  destruct (reading float_of_str item) as [[symbol rate]|] eqn:Hr.
  - rewrite (process_accepted _ _ _ _ _ _ Hr). simpl.
    intros s h. rewrite rate_history_record_observation.
    destruct (_process_single_item_control float_of_str st clk item) as (_&_&Hsz&_).
    rewrite (process_accepted _ _ _ _ _ _ Hr) in Hsz. simpl in Hsz. rewrite Hsz.
    destruct (decide (symbol = s)) as [->|Hne].
    + rewrite lookup_insert_eq. intros [= <-].
      rewrite next_series_most_recent, length_most_recent by done. lia.
    + rewrite lookup_insert_ne by done. apply Hok.
  - destruct (process_rejected float_of_str st clk item Hr) as [_ H].
    by eapply window_ok_unlogged.
Qed.

Lemma window_ok_process_items items : ∀ st clk i n,
  (0 < window_size st)%Z → window_ok st →
  window_ok (process_items float_of_str st clk i items n).1.
Proof.
  induction items as [|item items IH]; intros st clk i n Hw Hok; simpl; [done|].
  pose proof (window_ok_process st (clk i) item Hw Hok) as H1.
  pose proof (_process_single_item_control float_of_str st (clk i) item) as (_&_&Hsz&_).
  destruct (_process_single_item float_of_str st (clk i) item) as [st1 ok].
  simpl in *. apply IH; [lia|done].
Qed.

Lemma lookup_foldr_delete {V} (m : gmap string V) (ks : list string) k v :
  foldr delete m ks !! k = Some v → m !! k = Some v.
Proof.
  induction ks as [|k' ks IH]; simpl; [done|].
  intros H. apply lookup_delete_Some in H as [_ H]. by apply IH.
Qed.

Lemma window_ok_cleanup st t : window_ok st → window_ok (_cleanup_caches st t).
Proof.
  intros Hok. unfold _cleanup_caches.
  destruct (filter _ _).*1 as [|k ks]; [done|].
  intros symbol h. simpl. intros Hlook.
  apply (lookup_foldr_delete _ (k :: ks)) in Hlook. exact (Hok symbol h Hlook).
Qed.

End Window.

Section WindowClaim.

Variable float_of_str : string → option float.

Implicit Types (h : Pandas.Series) (st : BusinessCore) (symbol : string).

(** The rows the loop of [update_data] appends for one symbol: one per
    accepted item of that symbol, in order, item [k] stamped by clock
    [i + k]. *)
Fixpoint rows_of (clk : nat → Clock) (i : nat) (items : list json) (symbol : string)
  : Pandas.Series :=
  match items with
  | [] => []
  | item :: items' =>
    match reading float_of_str item with
    | Some (s, r) => if decide (s = symbol) then [(pd_now (clk i), r)] else []
    | None => []
    end ++ rows_of clk (S i) items' symbol
  end.

Lemma most_recent_app (w : Z) h rows :
  most_recent w (most_recent w h ++ rows) = most_recent w (h ++ rows).
Proof.
  unfold most_recent.
  rewrite !length_app, length_drop.
  rewrite <- (drop_app_le h rows) by lia.
  rewrite drop_drop. f_equal. lia.
Qed.

Lemma most_recent_all (w : Z) h :
  (Z.of_nat (length h) ≤ w)%Z → most_recent w h = h.
Proof.
  intros H. unfold most_recent.
  by replace (length h - Z.to_nat w) with 0 by lia.
Qed.

(** C6. With a positive window size, every ingest keeps every retained
    series within the window size, and the series of a symbol after a run
    of items is the most recent [window_size] rows of what it held
    followed by the accepted observations of that symbol, oldest evicted
    first: once more than [window_size] rows have been seen its length is
    exactly [window_size]. *)
Theorem window_bounded_fifo (st : BusinessCore) :
  (0 < window_size st)%Z → window_ok st →
  (∀ data clk t1 t2,
     window_ok (update_data float_of_str st data clk t1 t2) ∧
     window_size (update_data float_of_str st data clk t1 t2) = window_size st) ∧
  (∀ items clk i n symbol,
     let st' := (process_items float_of_str st clk i items n).1 in
     let seen := default [] (rate_history st !! symbol) ++ rows_of clk i items symbol in
     default [] (rate_history st' !! symbol) = most_recent (window_size st) seen ∧
     length (most_recent (window_size st) seen)
     = Nat.min (length seen) (Z.to_nat (window_size st))).
Proof.
  intros Hw Hok. split.
  - intros data clk t1 t2. split; [|apply update_data_control].
    unfold update_data.
    match goal with |- context [process_items _ _ _ _ ?l _] =>
      pose proof (window_ok_process_items float_of_str l st clk 0 0 Hw Hok) as H;
      destruct (process_items float_of_str st clk 0 l 0) as [st1 n] end.
    simpl in H. case_match; [|done]. case_match.
    + by apply window_ok_cleanup, window_ok_statistics.
    + by apply window_ok_statistics.
  - intros items clk i n symbol. cbn zeta. split; [|apply length_most_recent].
    revert st Hw Hok clk i n.
    induction items as [|item items IH]; intros st Hw Hok clk i n.
    + simpl. rewrite app_nil_r. symmetry. apply most_recent_all.
      destruct (rate_history st !! symbol) as [h|] eqn:Hh; simpl; [by eapply Hok|lia].
    + cbn [process_items rows_of].
      pose proof (window_ok_process float_of_str st (clk i) item Hw Hok) as Hok1.
      pose proof (_process_single_item_control float_of_str st (clk i) item)
        as (_&_&Hsz&_).
      assert (default [] (rate_history
                (_process_single_item float_of_str st (clk i) item).1 !! symbol)
              = most_recent (window_size st)
                  (default [] (rate_history st !! symbol) ++
                   match reading float_of_str item with
                   | Some (s, r) =>
                     if decide (s = symbol) then [(pd_now (clk i), r)] else []
                   | None => []
                   end)) as Hstep.
      { destruct (reading float_of_str item) as [[s r]|] eqn:Hr.
        - rewrite (process_accepted _ _ _ _ _ _ Hr). simpl.
          rewrite rate_history_record_observation.
          destruct (decide (s = symbol)) as [->|Hne].
          + rewrite lookup_insert_eq. simpl. by apply next_series_most_recent.
          + rewrite lookup_insert_ne by done. rewrite app_nil_r.
            symmetry. apply most_recent_all.
            destruct (rate_history st !! symbol) as [h|] eqn:Hh; simpl;
              [by eapply Hok|lia].
        - destruct (process_rejected float_of_str st (clk i) item Hr) as [_ H].
          assert (rate_history (_process_single_item float_of_str st (clk i) item).1
                  = rate_history st) as -> by (by injection H).
          rewrite app_nil_r. symmetry. apply most_recent_all.
          destruct (rate_history st !! symbol) as [h|] eqn:Hh; simpl;
            [by eapply Hok|lia]. }
      destruct (_process_single_item float_of_str st (clk i) item) as [st1 ok].
      simpl in *. rewrite IH by (done || lia).
      rewrite Hsz, Hstep, most_recent_app. by rewrite app_assoc.
Qed.

End WindowClaim.

(** ** Scoring an ingested observation *)

Section IngestScore.

Variable float_of_str : string → option float.

Implicit Types (h : Pandas.Series) (st : BusinessCore) (symbol : string).

Lemma iloc_last_next_series st t symbol new_rate :
  (0 < window_size st)%Z →
  Pandas.iloc_last (next_series st t symbol new_rate) = Some new_rate.
Proof.
  intros Hw. rewrite next_series_most_recent by done.
  unfold Pandas.iloc_last, Pandas.values.
  by rewrite fmap_last, last_most_recent.
Qed.

(** What an accepted observation leaves in the champion table and in
    [volatility_data]: nothing new when the rate did not change or no
    score is produced on the new window; otherwise the record
    [champion_after] describes, built from the z-value of the new window. *)
Lemma ingest_scoring st clk symbol new_rate :
  (0 < window_size st)%Z →
  let st' := record_observation st clk symbol new_rate in
  let h' := next_series st (pd_now clk) symbol new_rate in
  let hist := Spec.historical (Pandas.values h') in
  rate_history st' !! symbol = Some h' ∧
  match (if rate_changed st symbol new_rate
         then Spec.z_value (Pandas.values h') else None) with
  | None =>
    champion_records st' = champion_records st ∧
    volatility_data st' = volatility_data st
  | Some z =>
    let c := champion_after st symbol z (Spec.sample_mean hist) (Spec.sample_std hist)
               (previous_rate st symbol new_rate) new_rate (calc_time clk) in
    champion_records st' = <[symbol := c]> (champion_records st) ∧
    volatility_data st'
    = <[symbol := volatility_entry c (calc_time clk)]> (volatility_data st)
  end.
Proof.
  intros Hw st' h' hist. subst st' h' hist.
  split; [by rewrite rate_history_record_observation, lookup_insert_eq|].
  unfold record_observation.
  destruct (rate_changed st symbol new_rate); [|done].
  set (st5 := stored st clk symbol new_rate).
  assert (rate_history st5 !! symbol
          = Some (next_series st (pd_now clk) symbol new_rate)) as Hh
    by (simpl; apply lookup_insert_eq).
  pose proof (scored_window_values _ _
                (iloc_last_next_series st (pd_now clk) symbol new_rate Hw)) as Hwin.
  destruct (Spec.z_value (Pandas.values (next_series st (pd_now clk) symbol new_rate)))
    as [z|] eqn:Hz.
  - rewrite <- Hwin in Hz.
    pose proof (calc_scored st5 symbol (previous_rate st symbol new_rate) new_rate
                  (calc_time clk) _ z Hh Hz) as Hc.
    cbn zeta in Hc. rewrite mean_values, std_values, values_iloc_init in Hc.
    injection Hc as _ _ Hv _ Hr. by rewrite Hv, Hr.
  - rewrite calc_unscored; [done|]. rewrite Hh. by rewrite Hwin.
Qed.

End IngestScore.

Section ScoreClaims.

Variable float_of_str : string → option float.

Implicit Types (h : Pandas.Series) (st : BusinessCore) (symbol : string).

(** C4. The deviation score is the absolute value of
    [(current - mean) / std], where [current] is the most recent retained
    point, and [mean] and [std] are the sample mean and the sample
    standard deviation ([n - 1] divisor) of the points before it: the
    sum of the points over their number, and the square root of the sum
    of the squared deviations from that mean over the number less one,
    each sum taken in binary64 in the order [ndarray.sum] adds. Both
    routines of the source compute it: the live score of
    [_calculate_current_zscore] on the retained window, and the score
    [_calculate_volatility] hands to the champion table for an ingested
    observation, on the window that ends with that observation. On the
    historical values 1, 2, 3 the mean is 2 and the standard deviation is
    exactly 1. On the eight values 0.1, ..., 0.8 the mean is the float
    0.45, as pandas returns it; added from the left they would give
    0.44999999999999996. *)
Theorem deviation_score_formula :
  (∀ (xs : list float) (x : float),
     2 ≤ length xs →
     Float.isna (Spec.sample_std xs) = false →
     PrimFloat.ltb (Spec.sample_std xs) Spec.epsilon = false →
     Spec.deviation_score (xs ++ [x])
     = Some (PrimFloat.abs ((x - Spec.sample_mean xs) / Spec.sample_std xs))) ∧
  (∀ xs : list float,
     Spec.sample_mean xs = (Ndarray.sum xs / Float.of_nat (length xs))%float ∧
     Spec.sample_std xs
     = PrimFloat.sqrt
         (Ndarray.sum ((λ x, ((Spec.sample_mean xs - x) * (Spec.sample_mean xs - x))%float)
                         <$> xs)
          / Float.of_nat (length xs - 1))%float) ∧
  (∀ st symbol h,
     rate_history st !! symbol = Some h →
     _calculate_current_zscore st symbol
     = default 0%float (Spec.deviation_score (Pandas.values h))) ∧
  (∀ st clk item symbol rate z,
     (0 < window_size st)%Z →
     reading float_of_str item = Some (symbol, rate) →
     rate_changed st symbol rate = true →
     let st' := (_process_single_item float_of_str st clk item).1 in
     let window := Pandas.values (next_series st (pd_now clk) symbol rate) in
     Spec.z_value window = Some z →
     kept_champion st symbol (PrimFloat.abs z) (calc_time clk) = None →
     Spec.current window = Some rate ∧
     ∃ c, champion_records st' !! symbol = Some c ∧
          Some (max_volatility c) = Spec.deviation_score window ∧
          z_score c = z ∧
          moving_average c = Spec.sample_mean (Spec.historical window) ∧
          std_dev c = Spec.sample_std (Spec.historical window)) ∧
  (Spec.sample_mean [1; 2; 3]%float = 2%float ∧
   Spec.sample_std [1; 2; 3]%float = 1%float ∧
   Pandas.mean [(0%Z, 1%float); (1%Z, 2%float); (2%Z, 3%float)] = 2%float ∧
   Pandas.std [(0%Z, 1%float); (1%Z, 2%float); (2%Z, 3%float)] = 1%float) ∧
  (let xs := [0.1; 0.2; 0.3; 0.4; 0.5; 0.6; 0.7; 0.8]%float in
   Spec.sample_mean xs = 0.45%float ∧
   Pandas.mean ((λ x, (0%Z, x)) <$> xs) = 0.45%float ∧
   (foldl PrimFloat.add 0 xs / 8 = 0.44999999999999996)%float).
Proof.
  split; [|split; [|split; [|split; [|split]]]].
  - intros xs x Hlen Hna Heps.
    unfold Spec.deviation_score, Spec.z_value, Spec.current.
    rewrite last_snoc, historical_snoc, length_app. simpl.
    replace (length xs + 1 <? 3) with false by (symmetry; apply Nat.ltb_ge; lia).
    replace (length xs <? 2) with false by (symmetry; apply Nat.ltb_ge; lia).
    by rewrite Hna, Heps.
  - intros xs. split; reflexivity.
  - intros st symbol h Hh. by rewrite live_score, Hh.
  - intros st clk item symbol rate z Hw Hr Hch st' window Hz Hkept.
    subst st' window. rewrite (process_accepted _ _ _ _ _ _ Hr). simpl.
    split; [apply (iloc_last_next_series st (pd_now clk) symbol rate Hw)|].
    destruct (ingest_scoring st clk symbol rate Hw) as [_ Hc].
    rewrite Hch, Hz in Hc. cbn zeta in Hc. destruct Hc as [-> _].
    eexists. split; [apply lookup_insert_eq|].
    unfold champion_after. rewrite Hkept. simpl.
    unfold Spec.deviation_score. rewrite Hz. done.
  - vm_compute. done.
  - vm_compute. done.
Qed.

End ScoreClaims.

(** ** Replacing a champion *)

(** The score and the creation time of a symbol's champion record. *)
Definition champion_of (st : BusinessCore) (symbol : string) : option (float * float) :=
  (λ c, (max_volatility c, champion_timestamp c)) <$> champion_records st !! symbol.

(** C3. When [_calculate_volatility] scores a rate, the symbol's record is
    treated as follows and no other record changes: a record whose age is
    above the TTL is discarded first, and the new score then creates a
    record whatever its size; a record within the TTL is replaced only if
    the new score is strictly greater than its [max_volatility] (an equal
    or smaller score keeps it, with only [champion_age_hours] refreshed).
    Feeding the scores 1.0, 0.5, 2.0, 1.8 within one TTL, after an expired
    record of score 2.12, leaves the champions 1.0, 1.0, 2.0, 2.0. *)
Theorem champion_replacement :
  (∀ st symbol old_rate new_rate t h z,
     rate_history st !! symbol = Some h →
     Spec.z_value (scored_window h new_rate) = Some z →
     let st' := _calculate_volatility st symbol old_rate new_rate t in
     let hist := Pandas.iloc_init h in
     let fresh := fresh_champion z (Pandas.mean hist) (Pandas.std hist)
                    old_rate new_rate t in
     let installed c :=
       champion_records st' !! symbol
       = Some (set_champion_age_hours c ((t - champion_timestamp c) / 3600)%float) in
     (∀ other, other ≠ symbol →
        champion_records st' !! other = champion_records st !! other) ∧
     max_volatility fresh = PrimFloat.abs z ∧ champion_timestamp fresh = t ∧
     match champion_records st !! symbol with
     | None => installed fresh
     | Some c =>
       if Float.gtb (t - champion_timestamp c)%float (champion_ttl st)
       then installed fresh
       else if Float.gtb (PrimFloat.abs z) (max_volatility c)
            then installed fresh
            else installed c
     end) ∧
  (let st0 := Sample.ingest_all init 0 [-1; 0; 1; 1]%float in
   let feed st (p : float * float) :=
     _calculate_volatility st "BTCUSDT" 1 p.1 p.2 in
   let st1 := feed st0 (1, 1000)%float in
   let st2 := feed st1 (0.5, 1001)%float in
   let st3 := feed st2 (2, 1002)%float in
   let st4 := feed st3 (1.8, 1003)%float in
   Pandas.values <$> rate_history st0 !! "BTCUSDT" = Some [-1; 0; 1; 1]%float ∧
   champion_ttl st0 = 900%float ∧
   champion_of st0 "BTCUSDT" = Some (2.1213203435596424, 0)%float ∧
   champion_of st1 "BTCUSDT" = Some (1, 1000)%float ∧
   champion_of st2 "BTCUSDT" = Some (1, 1000)%float ∧
   champion_of st3 "BTCUSDT" = Some (2, 1002)%float ∧
   champion_of st4 "BTCUSDT" = Some (2, 1002)%float).
Proof.
  split.
  - intros st symbol old_rate new_rate t h z Hh Hz st' hist fresh installed.
    pose proof (calc_scored st symbol old_rate new_rate t h z Hh Hz) as Hc.
    cbn zeta in Hc. fold hist in Hc. fold st' in Hc.
    assert (champion_records st'
            = <[symbol := champion_after st symbol z (Pandas.mean hist)
                            (Pandas.std hist) old_rate new_rate t]>
                (champion_records st)) as Hrec by (by injection Hc).
    split; [|split; [done|split; [done|]]].
    + intros other Hne. by rewrite Hrec, lookup_insert_ne.
    + subst installed. cbn beta. rewrite Hrec, lookup_insert_eq.
      unfold champion_after, kept_champion. fold fresh.
      destruct (champion_records st !! symbol) as [c|]; [|done].
      destruct (Float.gtb (t - champion_timestamp c) (champion_ttl st)); [done|].
      by destruct (Float.gtb (PrimFloat.abs z) (max_volatility c)).
  - vm_compute. done.
Qed.

(** ** When a score appears *)

Lemma z_value_short (window : list float) :
  length window < 3 → Spec.z_value window = None.
Proof.
  intros H. unfold Spec.z_value.
  by replace (length window <? 3) with true by (symmetry; apply Nat.ltb_lt; lia).
Qed.

Lemma z_value_snoc (xs : list float) (x : float) :
  2 ≤ length xs →
  Float.isna (Spec.sample_std xs) = false →
  PrimFloat.ltb (Spec.sample_std xs) Spec.epsilon = false →
  Spec.z_value (xs ++ [x]) = Some ((x - Spec.sample_mean xs) / Spec.sample_std xs)%float.
Proof.
  intros Hlen Hna Heps. unfold Spec.z_value, Spec.current.
  rewrite last_snoc, historical_snoc, length_app. simpl.
  replace (length xs + 1 <? 3) with false by (symmetry; apply Nat.ltb_ge; lia).
  replace (length xs <? 2) with false by (symmetry; apply Nat.ltb_ge; lia).
  by rewrite Hna, Heps.
Qed.

Lemma get_set_eq {V} (d : PyDict.t V) k v : PyDict.get k (PyDict.set k v d) = Some v.
Proof.
  induction d as [|[k' v'] d IH]; simpl.
  - by rewrite decide_True.
  - destruct (decide (k = k')) as [->|Hne]; simpl.
    + by rewrite decide_True.
    + by rewrite decide_False.
Qed.

Lemma current_rates_record_observation st clk symbol new_rate :
  current_rates (record_observation st clk symbol new_rate)
  = PyDict.set symbol new_rate (current_rates st).
Proof.
  unfold record_observation. case_match; [|done].
  by destruct (_calculate_volatility_untouched (stored st clk symbol new_rate) symbol
                 (previous_rate st symbol new_rate) new_rate (calc_time clk))
    as (_ & -> & _).
Qed.

Lemma window_size_record_observation st clk symbol new_rate :
  window_size (record_observation st clk symbol new_rate) = window_size st.
Proof.
  unfold record_observation. case_match; [|done].
  by destruct (_calculate_volatility_control (stored st clk symbol new_rate) symbol
                 (previous_rate st symbol new_rate) new_rate (calc_time clk))
    as (_ & _ & -> & _).
Qed.

Section ThirdPoint.

Variable float_of_str : string → option float.

Implicit Types (h : Pandas.Series) (st : BusinessCore) (symbol : string).

Lemma next_series_fresh st t symbol new_rate :
  (0 < window_size st)%Z → rate_history st !! symbol = None →
  next_series st t symbol new_rate = [(t, new_rate)].
Proof.
  intros Hw Hh. rewrite next_series_most_recent, Hh by done.
  apply most_recent_all. simpl. lia.
Qed.

Lemma next_series_grow st t symbol new_rate h :
  rate_history st !! symbol = Some h → (Z.of_nat (length h) < window_size st)%Z →
  next_series st t symbol new_rate = h ++ [(t, new_rate)].
Proof.
  intros Hh Hlen. rewrite next_series_most_recent, Hh by lia.
  apply most_recent_all. rewrite length_app. simpl. lia.
Qed.

(** An accepted observation that leaves fewer than three rows changes no
    champion record. *)
Lemma ingest_short st clk symbol new_rate :
  (0 < window_size st)%Z →
  length (next_series st (pd_now clk) symbol new_rate) < 3 →
  champion_records (record_observation st clk symbol new_rate) = champion_records st.
Proof.
  intros Hw Hlen. destruct (ingest_scoring st clk symbol new_rate Hw) as [_ H].
  rewrite z_value_short in H by (unfold Pandas.values; by rewrite length_fmap).
  destruct (rate_changed st symbol new_rate); by destruct H.
Qed.

(** C5. No score is produced and the champion table is left alone while
    the retained history has fewer than 3 points, while the historical
    partition has fewer than 2 points, or while its standard deviation is
    NaN or below the epsilon; nor when the ingested rate did not change.
    For a symbol seen for the first time (window size at least 3) the
    first and the second observation produce no score and no record; the
    third produces one, provided it differs from the second and the
    standard deviation of the first two passes the epsilon guard. *)
Theorem score_from_third_point :
  (∀ st symbol old_rate new_rate t,
     match rate_history st !! symbol with
     | None => True
     | Some h =>
       length h < 3 ∨ length (Pandas.iloc_init h) < 2 ∨
       Float.isna (Pandas.std (Pandas.iloc_init h)) = true ∨
       PrimFloat.ltb (Pandas.std (Pandas.iloc_init h)) Spec.epsilon = true
     end →
     _calculate_volatility st symbol old_rate new_rate t = st ∧
     _calculate_current_zscore st symbol = 0%float) ∧
  (∀ st clk item symbol rate,
     reading float_of_str item = Some (symbol, rate) →
     rate_changed st symbol rate = false →
     let st' := (_process_single_item float_of_str st clk item).1 in
     champion_records st' = champion_records st ∧
     volatility_data st' = volatility_data st) ∧
  (∀ st symbol item1 item2 item3 clk1 clk2 clk3 r1 r2 r3,
     (3 ≤ window_size st)%Z →
     rate_history st !! symbol = None →
     champion_records st !! symbol = None →
     reading float_of_str item1 = Some (symbol, r1) →
     reading float_of_str item2 = Some (symbol, r2) →
     reading float_of_str item3 = Some (symbol, r3) →
     let st1 := (_process_single_item float_of_str st clk1 item1).1 in
     let st2 := (_process_single_item float_of_str st1 clk2 item2).1 in
     let st3 := (_process_single_item float_of_str st2 clk3 item3).1 in
     (champion_records st1 !! symbol = None ∧
      _calculate_current_zscore st1 symbol = 0%float) ∧
     (champion_records st2 !! symbol = None ∧
      _calculate_current_zscore st2 symbol = 0%float) ∧
     Pandas.values <$> rate_history st3 !! symbol = Some [r1; r2; r3] ∧
     (Float.gtb (PrimFloat.abs (r3 - r2)) 1e-9 = true →
      Float.isna (Spec.sample_std [r1; r2]) = false →
      PrimFloat.ltb (Spec.sample_std [r1; r2]) Spec.epsilon = false →
      let score :=
        PrimFloat.abs ((r3 - Spec.sample_mean [r1; r2]) / Spec.sample_std [r1; r2]) in
      champion_of st3 symbol = Some (score, calc_time clk3) ∧
      _calculate_current_zscore st3 symbol = score)).
Proof.
  split; [|split].
  - intros st symbol old_rate new_rate t H.
    unfold _calculate_volatility, _calculate_current_zscore.
    destruct (rate_history st !! symbol) as [h|]; [|done].
    destruct (length h <? 3) eqn:E1; [done|].
    destruct H as [H|H]; [apply Nat.ltb_ge in E1; lia|].
    destruct (length (Pandas.iloc_init h) <? 2) eqn:E2; [by destruct (Pandas.iloc_last h)|].
    destruct H as [H|H]; [apply Nat.ltb_ge in E2; lia|].
    unfold Spec.epsilon in H.
    assert (Float.isna (Pandas.std (Pandas.iloc_init h))
            || PrimFloat.ltb (Pandas.std (Pandas.iloc_init h)) 1e-10 = true) as ->
      by (destruct H as [-> | ->]; [done|apply orb_true_r]).
    by destruct (Pandas.iloc_last h).
  - intros st clk item symbol rate Hr Hch st'. subst st'.
    rewrite (process_accepted _ _ _ _ _ _ Hr). simpl.
    unfold record_observation. by rewrite Hch.
  - intros st symbol item1 item2 item3 clk1 clk2 clk3 r1 r2 r3
      Hw Hh Hc Hr1 Hr2 Hr3 st1 st2 st3. subst st1 st2 st3.
    rewrite (process_accepted _ _ _ _ _ _ Hr1). cbn [fst].
    rewrite (process_accepted _ _ _ _ _ _ Hr2). cbn [fst].
    rewrite (process_accepted _ _ _ _ _ _ Hr3). cbn [fst].
    set (st1 := record_observation st clk1 symbol r1).
    set (st2 := record_observation st1 clk2 symbol r2).
    set (st3 := record_observation st2 clk3 symbol r3).
    assert (window_size st1 = window_size st) as Hw1
      by apply window_size_record_observation.
    assert (window_size st2 = window_size st) as Hw2
      by (unfold st2; by rewrite window_size_record_observation).
    (* the three histories *)
    assert (rate_history st1 !! symbol = Some [(pd_now clk1, r1)]) as Hh1.
    { unfold st1. rewrite rate_history_record_observation, lookup_insert_eq.
      by rewrite next_series_fresh by (done || lia). }
    assert (rate_history st2 !! symbol = Some [(pd_now clk1, r1); (pd_now clk2, r2)])
      as Hh2.
    { unfold st2. rewrite rate_history_record_observation, lookup_insert_eq.
      by rewrite (next_series_grow _ _ _ _ _ Hh1) by (simpl; lia). }
    assert (next_series st2 (pd_now clk3) symbol r3
            = [(pd_now clk1, r1); (pd_now clk2, r2); (pd_now clk3, r3)]) as Hn3
      by (by rewrite (next_series_grow _ _ _ _ _ Hh2) by (simpl; lia)).
    assert (rate_history st3 !! symbol
            = Some [(pd_now clk1, r1); (pd_now clk2, r2); (pd_now clk3, r3)]) as Hh3.
    { unfold st3. by rewrite rate_history_record_observation, lookup_insert_eq, Hn3. }
    (* no record after the first and the second observation *)
    assert (champion_records st1 !! symbol = None) as Hc1.
    { unfold st1. rewrite ingest_short; [done|lia|].
      rewrite next_series_fresh by (done || lia). simpl. lia. }
    assert (champion_records st2 !! symbol = None) as Hc2.
    { unfold st2. rewrite ingest_short; [done|lia|].
      rewrite (next_series_grow _ _ _ _ _ Hh1) by (simpl; lia). simpl. lia. }
    split; [split; [done|by rewrite live_score, Hh1]|].
    split; [split; [done|by rewrite live_score, Hh2]|].
    split; [by rewrite Hh3|].
    intros Hgate Hna Heps.
    pose proof (z_value_snoc [r1; r2] r3 (le_n 2) Hna Heps) as Hz. simpl in Hz.
    split.
    + destruct (ingest_scoring st2 clk3 symbol r3) as [_ H]; [lia|].
      assert (rate_changed st2 symbol r3 = true) as Hch.
      { unfold rate_changed, previous_rate, st2.
        by rewrite current_rates_record_observation, get_set_eq. }
      rewrite Hch, Hn3 in H. simpl in H. rewrite Hz in H. cbn zeta in H.
      destruct H as [H _]. unfold champion_of, st3. rewrite H, lookup_insert_eq.
      unfold champion_after, kept_champion. by rewrite Hc2.
    + rewrite live_score, Hh3. simpl. unfold Spec.deviation_score. by rewrite Hz.
Qed.

End ThirdPoint.

(** ** The ranking *)

(** NumPy's contract for [argsort]: the result lists every position of
    the array once, and, on an array without NaN, in ascending order of
    the values; it says nothing about the order of equal values. *)
Definition ascending (a : list float) (i j : nat) : Prop :=
  ∀ x y, a !! i = Some x → a !! j = Some y → PrimFloat.leb x y = true.

Definition argsort_spec (argsort : list float → list nat) : Prop :=
  ∀ a, argsort a ≡ₚ seq 0 (length a) ∧
       (Forall (λ x, Float.isna x = false) a → Sorted (ascending a) (argsort a)).

(** Descending by score. *)
Definition by_score_desc (p q : string * float) : Prop :=
  PrimFloat.leb q.2 p.2 = true.

#[global] Instance by_score_desc_trans : Transitive by_score_desc.
Proof. intros p q r Hpq Hqr. unfold by_score_desc in *. by eapply FloatOrder.leb_trans. Qed.

Lemma Sorted_within {A} (R : relation A) (P : A → Prop) l :
  Forall P l → Sorted R l → Sorted (λ x y, P x ∧ P y ∧ R x y) l.
Proof.
  intros HP HS. induction HS as [|x l HS IH Hhd]; [constructor|].
  apply Forall_cons in HP as [Hx Hl]. constructor; [by apply IH|].
  destruct Hhd as [|y l' Hxy]; constructor.
  apply Forall_cons in Hl as [Hy _]. by repeat split.
Qed.

Lemma fmap_lookup_seq {A} (d : A) (l : list A) :
  (λ i, default d (l !! i)) <$> seq 0 (length l) = l.
Proof.
  apply list_eq. intros i. rewrite list_lookup_fmap.
  destruct (decide (i < length l)) as [Hlt|Hge].
  - rewrite lookup_seq_lt by done. simpl.
    by destruct (lookup_lt_is_Some_2 l i Hlt) as [x ->].
  - rewrite (lookup_ge_None_2 l) by lia.
    rewrite (lookup_ge_None_2 (seq 0 (length l))); [done|].
    rewrite length_seq. lia.
Qed.

Lemma mapM_lookup_in_range {A} (d : A) (l : list A) (indices : list nat) :
  Forall (λ i, i < length l) indices →
  mapM (λ i, l !! i) indices = Some ((λ i, default d (l !! i)) <$> indices).
Proof.
  intros H. apply mapM_Some_2. induction H as [|i indices Hi _ IH]; [constructor|].
  simpl. constructor; [|done].
  by destruct (lookup_lt_is_Some_2 l i Hi) as [x ->].
Qed.

Section Ranking.

Variable np_argsort : list float → list nat.
Hypothesis np_argsort_spec : argsort_spec np_argsort.

Implicit Types (st : BusinessCore) (rd : list (string * float)).

(** The row at a position of [ranking_data]. *)
Definition row_at rd (i : nat) : string * float :=
  default (""%string, nan) (rd !! i).

(** [ranking_data] in the order [sorted_indices] gives it. *)
Definition ranked rd : list (string * float) :=
  row_at rd <$> rev (np_argsort rd.*2).

Lemma ranking_data_positive st t :
  Forall (λ p, Float.gtb p.2 0 = true) (ranking_data st t).
Proof.
  apply Forall_forall. intros [s x] Hin.
  apply list_elem_of_omap in Hin as (symbol & _ & Hsome). cbn zeta in Hsome.
  destruct (Float.gtb (ranking_score st t symbol) 0) eqn:E; [|done].
  by injection Hsome as <- <-.
Qed.

Lemma ranking_data_snapshot st l e t :
  ranking_data (logger (set_top5_symbols st l) e) t = ranking_data st t.
Proof. reflexivity. Qed.

Lemma indices_in_range (a : list float) :
  Forall (λ i, i < length a) (np_argsort a).
Proof.
  destruct (np_argsort_spec a) as [Hperm _].
  rewrite Hperm. apply Forall_seq. lia.
Qed.

Lemma ranked_Permutation rd : ranked rd ≡ₚ rd.
Proof.
  unfold ranked. destruct (np_argsort_spec rd.*2) as [Hperm _].
  rewrite rev_alt. change (rev_append (np_argsort rd.*2) []) with (reverse (np_argsort rd.*2)).
  rewrite reverse_Permutation, Hperm, length_fmap.
  unfold row_at. by rewrite fmap_lookup_seq.
Qed.

Lemma ranked_sorted rd :
  Forall (λ p, Float.gtb p.2 0 = true) rd → StronglySorted by_score_desc (ranked rd).
Proof.
  intros Hpos. apply Sorted_StronglySorted; [apply _|].
  unfold ranked. rewrite rev_alt.
  change (rev_append (np_argsort rd.*2) []) with (reverse (np_argsort rd.*2)).
  rewrite fmap_reverse. apply Sorted_reverse.
  destruct (np_argsort_spec rd.*2) as [_ Hsorted].
  assert (Forall (λ x, Float.isna x = false) rd.*2) as Hna.
  { apply Forall_fmap. eapply Forall_impl; [exact Hpos|].
    intros p Hp. by apply FloatOrder.ltb_true_notna in Hp as [_ ?]. }
  pose proof (Sorted_within _ _ _ (indices_in_range rd.*2) (Hsorted Hna)) as HS.
  eapply Sorted_fmap; [|exact HS].
  intros i j (Hi & Hj & Hij). cbn beta in *.
  rewrite length_fmap in Hi, Hj.
  destruct (lookup_lt_is_Some_2 rd i Hi) as [p Hp].
  destruct (lookup_lt_is_Some_2 rd j Hj) as [q Hq].
  unfold flip, by_score_desc, row_at. rewrite Hp, Hq. simpl.
  apply (Hij p.2 q.2); by rewrite list_lookup_fmap, ?Hp, ?Hq.
Qed.

Lemma take_min_length {A} (k : nat) (l : list A) :
  take (Nat.min k (length l)) l = take k l.
Proof.
  destruct (decide (k ≤ length l)).
  - by rewrite Nat.min_l.
  - rewrite Nat.min_r by lia. by rewrite !take_ge by lia.
Qed.

(** The symbols [_update_top5_ranking] reads off the sorted positions are
    those of the first [k] ranked rows. *)
Lemma take_symbols_ranked rd (k : nat) :
  take_symbols rd.*1
    (take (Nat.min k (length (rev (np_argsort rd.*2)))) (rev (np_argsort rd.*2)))
  = Some (take k (ranked rd)).*1.
Proof.
  rewrite take_min_length. unfold take_symbols, ranked.
  rewrite (mapM_lookup_in_range ""%string).
  - f_equal. rewrite <- fmap_take, <- list_fmap_compose.
    apply list_fmap_ext. intros _ i _. simpl. unfold row_at.
    rewrite list_lookup_fmap. by destruct (rd !! i).
  - apply Forall_take. rewrite rev_alt.
    change (rev_append (np_argsort rd.*2) []) with (reverse (np_argsort rd.*2)).
    apply Forall_reverse. rewrite length_fmap.
    pose proof (indices_in_range rd.*2) as H. by rewrite length_fmap in H.
Qed.

(** [_update_top5_ranking] in one equation. *)
Lemma _update_top5_ranking_eq st t :
  let rd := ranking_data st t in
  let new_top5 := (take Config.TOP_RANKING_COUNT (ranked rd)).*1 in
  _update_top5_ranking np_argsort st t
  = if decide (rd = [] ∨ new_top5 = top5_symbols st) then st
    else logger (set_top5_symbols st new_top5) (LogTop5Updated new_top5).
Proof.
  intros rd new_top5. subst new_top5. unfold _update_top5_ranking. fold rd.
  generalize rd. clear rd. intros rd.
  destruct rd as [|p rd']; [by rewrite decide_True by auto|].
  set (rd := p :: rd'). rewrite take_symbols_ranked.
  destruct (decide ((take Config.TOP_RANKING_COUNT (ranked rd)).*1 = top5_symbols st))
    as [Heq|Hne].
  - by rewrite decide_True by auto.
  - rewrite decide_False; [done|]. by intros [?|?].
Qed.

(** C7. Each recomputation orders the positively scored symbols by
    descending score, keeps the first [TOP_RANKING_COUNT] of them, and
    assigns [top5_symbols] (logging the update) only if that list differs
    from the current one; recomputing again from the same inputs returns
    the core unchanged. This holds for every [argsort] that meets NumPy's
    contract, so for whatever order it gives equal scores; the order is a
    function of the ranking data, the same at every recomputation. *)
Theorem ranking_recomputation (st : BusinessCore) (t : float) :
  let rd := ranking_data st t in
  let st' := _update_top5_ranking np_argsort st t in
  ∃ sorted : list (string * float),
    sorted ≡ₚ rd ∧
    StronglySorted by_score_desc sorted ∧
    Forall (λ p, Float.gtb p.2 0 = true) sorted ∧
    let new_top5 := (take Config.TOP_RANKING_COUNT sorted).*1 in
    length new_top5 = Nat.min Config.TOP_RANKING_COUNT (length rd) ∧
    (rd = [] ∨ new_top5 = top5_symbols st → st' = st) ∧
    (rd ≠ [] → new_top5 ≠ top5_symbols st →
     st' = logger (set_top5_symbols st new_top5) (LogTop5Updated new_top5)) ∧
    _update_top5_ranking np_argsort st' t = st'.
Proof.
  intros rd st'. exists (ranked rd).
  pose proof (ranking_data_positive st t) as Hpos. fold rd in Hpos.
  split; [apply ranked_Permutation|].
  split; [by apply ranked_sorted|].
  split; [by rewrite ranked_Permutation|].
  cbn zeta. split.
  { by rewrite length_fmap, length_take, ranked_Permutation. }
  pose proof (_update_top5_ranking_eq st t) as Heq. cbn zeta in Heq.
  fold rd in Heq. fold st' in Heq.
  destruct (decide (rd = [] ∨ (take Config.TOP_RANKING_COUNT (ranked rd)).*1
                               = top5_symbols st)) as [Hsame|Hdiff].
  - split; [done|]. split; [intros Hne Hnew; by destruct Hsame|].
    rewrite Heq, _update_top5_ranking_eq. cbn zeta. fold rd.
    by rewrite decide_True.
  - split; [done|]. split; [done|].
    rewrite Heq, _update_top5_ranking_eq. cbn zeta.
    rewrite ranking_data_snapshot. fold rd.
    by rewrite decide_True by (by right).
Qed.

Lemma ranking_data_elem st t symbol x :
  (symbol, x) ∈ ranking_data st t ↔
  symbol ∈ PyDict.keys (current_rates st) ∧ x = ranking_score st t symbol ∧
  Float.gtb x 0 = true.
Proof.
  unfold ranking_data. rewrite list_elem_of_omap. split.
  - intros (s & Hin & Hsome). cbn zeta in Hsome.
    destruct (Float.gtb (ranking_score st t s) 0) eqn:E; [|done].
    injection Hsome as <- <-. done.
  - intros (Hin & -> & Hpos). exists symbol. split; [done|].
    cbn zeta. by rewrite Hpos.
Qed.

End Ranking.

(** ** The reference [argsort] meets the contract *)

Lemma ltb_asym (x y : float) : PrimFloat.ltb x y = true → PrimFloat.ltb y x = false.
Proof.
  intros H. destruct (PrimFloat.ltb y x) eqn:E; [|done].
  pose proof (FloatOrder.ltb_leb_false _ _ H) as H1.
  rewrite FloatOrder.ltb_key in E. rewrite FloatOrder.leb_key in H1.
  apply andb_true_iff in E as [E1 E2]. rewrite E1 in H1. simpl in H1.
  apply bool_decide_eq_true in E2. apply bool_decide_eq_false in H1.
  unfold FloatOrder.lexlt, FloatOrder.lexle in *.
  exfalso. apply H1. by rewrite E2.
Qed.

#[global] Instance precedes_total (a : list float) : Total (Numpy.precedes a).
Proof.
  intros i j. unfold Numpy.precedes.
  destruct (PrimFloat.ltb (Numpy.at_index a j) (Numpy.at_index a i)) eqn:E; [|by left].
  right. by apply ltb_asym.
Qed.

Lemma numpy_argsort_spec : argsort_spec Numpy.argsort.
Proof.
  intros a. split; [apply merge_sort_Permutation|].
  intros Hna. unfold Numpy.argsort.
  rewrite <- (list_fmap_id (merge_sort _ _)).
  eapply Sorted_fmap; [|apply (Sorted_merge_sort (Numpy.precedes a))].
  intros i j Hij x y Hx Hy. unfold Numpy.precedes, Numpy.at_index in Hij.
  unfold id in Hx, Hy.
  rewrite Hx, Hy in Hij. simpl in Hij.
  rewrite Forall_forall in Hna.
  apply FloatOrder.ltb_false_leb; [| |done]; apply Hna; by eapply list_elem_of_lookup_2.
Qed.


(** ** The displayed score *)

(** Every [volatility_data] entry shows the symbol's champion record. *)
Definition display_consistent (st : BusinessCore) : Prop :=
  ∀ symbol v, volatility_data st !! symbol = Some v →
    champion_records st !! symbol = Some (champion_info v) ∧
    combined v = max_volatility (champion_info v).

Section Display.

Variable float_of_str : string → option float.
Variable np_argsort : list float → list nat.

Implicit Types (st : BusinessCore) (symbol : string).

Lemma display_consistent_same a b :
  champion_records a = champion_records b → volatility_data a = volatility_data b →
  display_consistent b → display_consistent a.
Proof. intros H1 H2 Hb symbol v. rewrite H1, H2. apply Hb. Qed.

Lemma display_consistent_unlogged a b :
  unlogged a = unlogged b → display_consistent b → display_consistent a.
Proof. intros H. apply display_consistent_same; by injection H. Qed.

Lemma display_consistent_calc st symbol old_rate new_rate t :
  display_consistent st →
  display_consistent (_calculate_volatility st symbol old_rate new_rate t).
Proof.
  intros Hst.
  destruct (rate_history st !! symbol) as [h|] eqn:Hh;
    [|by rewrite calc_unscored by (by rewrite Hh)].
  destruct (Spec.z_value (scored_window h new_rate)) as [z|] eqn:Hz;
    [|by rewrite calc_unscored by (by rewrite Hh)].
  eapply display_consistent_unlogged;
    [apply (calc_scored st symbol old_rate new_rate t h z Hh Hz)|].
  intros s v. simpl. destruct (decide (symbol = s)) as [->|Hne].
  - rewrite !lookup_insert_eq. by intros [= <-].
  - rewrite !lookup_insert_ne by done. apply Hst.
Qed.

Lemma display_consistent_process st clk item :
  display_consistent st →
  display_consistent (_process_single_item float_of_str st clk item).1.
Proof.
  intros Hst. destruct (reading float_of_str item) as [[symbol rate]|] eqn:Hr.
  - rewrite (process_accepted _ _ _ _ _ _ Hr). simpl.
    unfold record_observation. case_match; [|done].
    by apply display_consistent_calc.
  - destruct (process_rejected float_of_str st clk item Hr) as [_ H].
    by eapply display_consistent_unlogged.
Qed.

Lemma display_consistent_process_items items : ∀ st clk i n,
  display_consistent st →
  display_consistent (process_items float_of_str st clk i items n).1.
Proof.
  induction items as [|item items IH]; intros st clk i n Hst; simpl; [done|].
  pose proof (display_consistent_process st (clk i) item Hst) as H1.
  destruct (_process_single_item float_of_str st (clk i) item) as [st1 ok].
  by apply IH.
Qed.

Lemma lookup_foldr_delete_Some {V} (m : gmap string V) (ks : list string) k v :
  foldr delete m ks !! k = Some v ↔ (k ∉ ks) ∧ m !! k = Some v.
Proof.
  induction ks as [|k' ks IH]; simpl.
  - split; [intros ?; split; [apply not_elem_of_nil|done]|by intros [_ ?]].
  - rewrite lookup_delete_Some, IH, not_elem_of_cons. split.
    + intros (Hne & Hnot & Hm). repeat split; [congruence|done|done].
    + intros ((Hne & Hnot) & Hm). repeat split; [congruence|done|done].
Qed.

Lemma display_consistent_cleanup st t :
  display_consistent st → display_consistent (_cleanup_caches st t).
Proof.
  intros Hst. unfold _cleanup_caches.
  destruct (filter _ _).*1 as [|k ks]; [done|].
  intros symbol v. simpl. intros Hv.
  apply (lookup_foldr_delete_Some _ (k :: ks)) in Hv as [Hnot Hv].
  destruct (Hst symbol v Hv) as [Hc Hm]. split; [|done].
  by apply (lookup_foldr_delete_Some _ (k :: ks)).
Qed.

Lemma display_consistent_update_data st data clk t1 t2 :
  display_consistent st →
  display_consistent (update_data float_of_str st data clk t1 t2).
Proof.
  intros Hst. unfold update_data.
  match goal with |- context [process_items _ _ _ _ ?l _] =>
    pose proof (display_consistent_process_items l st clk 0 0 Hst) as H;
    destruct (process_items float_of_str st clk 0 l 0) as [st1 n] end.
  simpl in H.
  assert (display_consistent (_update_statistics st1 n t1)) as Hs.
  { eapply display_consistent_same; [| |exact H];
      unfold _update_statistics; by case_match. }
  case_match; [|done]. case_match; [|done].
  by apply display_consistent_cleanup.
Qed.

Lemma display_consistent_ranking st t :
  display_consistent st → display_consistent (_update_top5_ranking np_argsort st t).
Proof.
  apply display_consistent_same; unfold _update_top5_ranking; repeat case_match; done.
Qed.

Lemma display_consistent_run_calls cs : ∀ st,
  display_consistent st → display_consistent (run_calls float_of_str np_argsort st cs).
Proof.
  induction cs as [|c cs IH]; intros st Hst; simpl; [done|].
  apply IH. destruct c; simpl.
  - eapply display_consistent_same; [| |exact Hst]; unfold start; by case_match.
  - eapply display_consistent_same; [| |exact Hst]; unfold stop; by repeat case_match.
  - by apply display_consistent_update_data.
  - unfold _ranking_loop_turn. case_match; [done|]. by apply display_consistent_ranking.
Qed.

Lemma display_consistent_init : display_consistent init.
Proof. intros symbol v H. simpl in H. by rewrite lookup_empty in H. Qed.

Lemma top5_entries_score st now symbols : ∀ i e,
  display_consistent st →
  e ∈ top5_entries st now i symbols →
  ∃ c, champion_records st !! entry_symbol e = Some c ∧
       entry_volatility e = max_volatility c.
Proof.
  induction symbols as [|symbol symbols IH]; intros i e Hst He; simpl in He.
  - by apply elem_of_nil in He.
  - destruct (volatility_data st !! symbol) as [v|] eqn:Hv; [|by eapply IH].
    apply elem_of_cons in He as [->|He]; [|by eapply IH].
    simpl. destruct (Hst symbol v Hv) as [Hc Hm]. eauto.
Qed.

End Display.

(** ** Where the reported score comes from *)

Section ScoreSource.

Variable float_of_str : string → option float.
Variable np_argsort : list float → list nat.

(** C1, as the code has it. The score the ranking uses for a symbol is
    the [max_volatility] of its champion record while the record's age is
    within the TTL; with no record, or a record past the TTL, it is the
    live recomputation of the deviation score on the retained window
    ([0.0] when no score is produced), and a symbol enters the ranking
    data with exactly that score when the score is positive. The
    recomputation leaves the champion table, [volatility_data] and the
    histories as they are: it establishes no record, whatever the live
    score. The score [get_top5_data] displays is, in every state the
    core can reach, the [max_volatility] of the record in the table,
    within the TTL or past it. *)
Theorem ranking_score_source (st : BusinessCore) (t : float) (symbol : string) :
  (∀ c, champion_records st !! symbol = Some c →
        PrimFloat.leb (t - champion_timestamp c) (champion_ttl st) = true →
        ranking_score st t symbol = max_volatility c) ∧
  (champion_records st !! symbol = None ∨
   (∃ c, champion_records st !! symbol = Some c ∧
         PrimFloat.leb (t - champion_timestamp c) (champion_ttl st) = false) →
   ranking_score st t symbol
   = default 0%float
       (h ← rate_history st !! symbol; Spec.deviation_score (Pandas.values h))) ∧
  (∀ x, (symbol, x) ∈ ranking_data st t ↔
        symbol ∈ PyDict.keys (current_rates st) ∧ x = ranking_score st t symbol ∧
        Float.gtb x 0 = true) ∧
  (champion_records (_update_top5_ranking np_argsort st t) = champion_records st ∧
   volatility_data (_update_top5_ranking np_argsort st t) = volatility_data st ∧
   rate_history (_update_top5_ranking np_argsort st t) = rate_history st) ∧
  (∀ cs now e,
     e ∈ get_top5_data (run_calls float_of_str np_argsort init cs) now →
     ∃ c, champion_records (run_calls float_of_str np_argsort init cs) !! entry_symbol e
          = Some c ∧
          entry_volatility e = max_volatility c).
Proof.
  split; [|split; [|split; [|split]]].
  - intros c Hc Hage. unfold ranking_score. by rewrite Hc, Hage.
  - intros H.
    assert (ranking_score st t symbol = _calculate_current_zscore st symbol) as Hlive.
    { unfold ranking_score. destruct H as [->|(c & -> & ->)]; done. }
    rewrite Hlive, live_score.
    by destruct (rate_history st !! symbol).
  - intros x. apply ranking_data_elem.
  - unfold _update_top5_ranking. repeat case_match; done.
  - intros cs now e He. eapply top5_entries_score; [|exact He].
    apply display_consistent_run_calls, display_consistent_init.
Qed.

End ScoreSource.

(** * Further properties *)

(** ** Insertion-ordered dicts *)

Section PyDictFacts.

Context {V : Type}.
Implicit Types (d : PyDict.t V) (k : string) (v : V).

Lemma get_set_ne d k k' v :
  k ≠ k' → PyDict.get k (PyDict.set k' v d) = PyDict.get k d.
Proof.
  intros Hne. induction d as [|[k0 v0] d IH]; simpl.
  - by rewrite decide_False.
  - destruct (decide (k' = k0)) as [->|Hne0]; simpl.
    + by rewrite !decide_False.
    + destruct (decide (k = k0)); [done|]. exact IH.
Qed.

Lemma elem_of_keys d k : k ∈ PyDict.keys d ↔ is_Some (PyDict.get k d).
Proof.
  unfold PyDict.keys. induction d as [|[k0 v0] d IH]; simpl.
  - split; [by intros ?%elem_of_nil|by intros [? ?]].
  - rewrite elem_of_cons, IH. destruct (decide (k = k0)) as [->|Hne].
    + split; [by eexists|by left].
    + split; [by intros [?|?]|by right].
Qed.

Lemma get_None_keys d k : PyDict.get k d = None ↔ k ∉ PyDict.keys d.
Proof. rewrite elem_of_keys, eq_None_not_Some. done. Qed.

Lemma keys_set d k v :
  PyDict.keys (PyDict.set k v d)
  = if decide (k ∈ PyDict.keys d) then PyDict.keys d else PyDict.keys d ++ [k].
Proof.
  unfold PyDict.keys. induction d as [|[k0 v0] d IH].
  - destruct (decide (k ∈ ([] : PyDict.t V).*1)) as [Hin|_]; [|done].
    by apply elem_of_nil in Hin.
  - cbn [PyDict.set]. destruct (decide (k = k0)) as [->|Hne].
    + destruct (decide (k0 ∈ ((k0, v0) :: d).*1)) as [_|Hnin]; [done|].
      exfalso. apply Hnin. by left.
    + cbn [fmap list_fmap]. rewrite IH.
      destruct (decide (k ∈ d.*1)) as [Hin|Hnin];
        destruct (decide (k ∈ (k0, v0).1 :: d.*1)) as [Hin'|Hnin']; try done.
      * exfalso. apply Hnin'. by right.
      * apply elem_of_cons in Hin' as [?|?]; done.
Qed.

Lemma NoDup_keys_set d k v :
  NoDup (PyDict.keys d) → NoDup (PyDict.keys (PyDict.set k v d)).
Proof.
  intros Hnd. rewrite keys_set. case_decide; [done|].
  apply NoDup_app. split; [done|]. split; [|apply NoDup_singleton].
  intros x Hx ->%list_elem_of_singleton. done.
Qed.

Lemma length_set d k v :
  length (PyDict.set k v d)
  = if decide (k ∈ PyDict.keys d) then length d else S (length d).
Proof.
  rewrite <- (length_fmap fst (PyDict.set k v d)).
  change (fst <$> PyDict.set k v d) with (PyDict.keys (PyDict.set k v d)).
  rewrite keys_set. unfold PyDict.keys.
  case_decide; rewrite ?length_app, !length_fmap; simpl; lia.
Qed.

Lemma get_pop d k k' :
  PyDict.get k (PyDict.pop k' d) = if decide (k = k') then None else PyDict.get k d.
Proof.
  unfold PyDict.pop. induction d as [|[k0 v0] d IH]; simpl.
  - by case_decide.
  - rewrite filter_cons. simpl. destruct (decide (k0 ≠ k')) as [Hne|Heq]; simpl.
    + destruct (decide (k = k0)) as [->|Hne0]; [by rewrite decide_False|done].
    + apply dec_stable in Heq as ->. rewrite IH.
      destruct (decide (k = k')); done.
Qed.

Lemma get_foldr_pop d (ks : list string) k :
  PyDict.get k (foldr PyDict.pop d ks)
  = if decide (k ∈ ks) then None else PyDict.get k d.
Proof.
  induction ks as [|k' ks IH]; cbn [foldr].
  - destruct (decide (k ∈ [])) as [Hin|_]; [by apply elem_of_nil in Hin|done].
  - rewrite get_pop, IH.
    destruct (decide (k = k')) as [<-|Hne];
      destruct (decide (k ∈ ks)) as [Hin|Hnin];
      destruct (decide (k ∈ _ :: ks)) as [Hin'|Hnin']; try done.
    + exfalso. apply Hnin'. by left.
    + exfalso. apply Hnin'. by left.
    + exfalso. apply Hnin'. by right.
    + apply elem_of_cons in Hin' as [?|?]; done.
Qed.

Lemma NoDup_keys_pop d k : NoDup (PyDict.keys d) → NoDup (PyDict.keys (PyDict.pop k d)).
Proof.
  unfold PyDict.keys, PyDict.pop. induction d as [|[k0 v0] d IH]; simpl; [done|].
  intros [Hnin Hnd]%NoDup_cons. rewrite filter_cons. simpl.
  destruct (decide (k0 ≠ k)); simpl; [|by apply IH].
  apply NoDup_cons. split; [|by apply IH].
  intros Hin. apply Hnin. apply list_elem_of_fmap in Hin as ([k1 v1] & -> & Hin).
  apply list_elem_of_filter in Hin as [_ Hin]. apply list_elem_of_fmap. by exists (k1, v1).
Qed.

Lemma NoDup_keys_foldr_pop d (ks : list string) :
  NoDup (PyDict.keys d) → NoDup (PyDict.keys (foldr PyDict.pop d ks)).
Proof. intros H. induction ks as [|k ks IH]; simpl; [done|]. by apply NoDup_keys_pop. Qed.

End PyDictFacts.

(** ** What the calls write *)

(** The range check of [_validate_item] (line 174). *)
Definition in_range (rate : float) : bool :=
  PrimFloat.ltb (-1000) rate && PrimFloat.ltb rate 1000.

(** Two cores with the same stores, window size and TTL; and with the
    same ranking snapshot besides. *)
Definition same_tracked (a b : BusinessCore) : Prop :=
  current_rates a = current_rates b ∧ rate_history a = rate_history b ∧
  volatility_data a = volatility_data b ∧ champion_records a = champion_records b ∧
  symbol_last_seen a = symbol_last_seen b ∧
  window_size a = window_size b ∧ champion_ttl a = champion_ttl b.

Definition same_stores (a b : BusinessCore) : Prop :=
  same_tracked a b ∧ top5_symbols a = top5_symbols b.

Lemma unlogged_same_stores a b : unlogged a = unlogged b → same_stores a b.
Proof. intros H. injection H as ?????????????. by repeat split. Qed.

(** The symbols [_cleanup_caches] finds inactive (lines 346-349). *)
Definition inactive_symbols (st : BusinessCore) (current_time : float) : list string :=
  (filter (λ kv, Float.gtb (current_time - kv.2)%float (72 * 3600)%float = true)
     (map_to_list (symbol_last_seen st))).*1.

Lemma elem_of_inactive_symbols st t s :
  s ∈ inactive_symbols st t ↔
  ∃ seen, symbol_last_seen st !! s = Some seen ∧
          Float.gtb (t - seen)%float (72 * 3600)%float = true.
Proof.
  unfold inactive_symbols. rewrite list_elem_of_fmap. split.
  - intros ([k seen] & -> & Hin). apply list_elem_of_filter in Hin as [Hgt Hin].
    apply elem_of_map_to_list in Hin. by exists seen.
  - intros (seen & Hs & Hgt). exists (s, seen). split; [done|].
    apply list_elem_of_filter. split; [done|]. by apply elem_of_map_to_list.
Qed.

Lemma _cleanup_caches_shape st t :
  let ks := inactive_symbols st t in
  let st' := _cleanup_caches st t in
  current_rates st' = foldr PyDict.pop (current_rates st) ks ∧
  volatility_data st' = foldr delete (volatility_data st) ks ∧
  rate_history st' = foldr delete (rate_history st) ks ∧
  champion_records st' = foldr delete (champion_records st) ks ∧
  symbol_last_seen st' = foldr delete (symbol_last_seen st) ks ∧
  top5_symbols st' = top5_symbols st ∧
  total_symbols st' = total_symbols st ∧
  data_update_count st' = data_update_count st ∧
  last_update_time st' = last_update_time st ∧
  window_size st' = window_size st ∧ champion_ttl st' = champion_ttl st.
Proof.
  intros ks st'. subst ks st'. unfold _cleanup_caches. cbv zeta.
  fold (inactive_symbols st t). by destruct (inactive_symbols st t).
Qed.

Lemma record_observation_tables st clk s r :
  let st' := record_observation st clk s r in
  let h := next_series st (pd_now clk) s r in
  let hist := Pandas.iloc_init h in
  (champion_records st' = champion_records st ∧
   volatility_data st' = volatility_data st) ∨
  (∃ z, Spec.z_value (scored_window h r) = Some z ∧
     let c := champion_after st s z (Pandas.mean hist) (Pandas.std hist)
                (previous_rate st s r) r (calc_time clk) in
     champion_records st' = <[s := c]> (champion_records st) ∧
     volatility_data st'
     = <[s := volatility_entry c (calc_time clk)]> (volatility_data st)).
Proof.
  intros st' h hist. subst st' h hist. unfold record_observation.
  destruct (rate_changed st s r); [|by left].
  set (st5 := stored st clk s r).
  assert (rate_history st5 !! s = Some (next_series st (pd_now clk) s r)) as Hh
    by (simpl; apply lookup_insert_eq).
  destruct (Spec.z_value (scored_window (next_series st (pd_now clk) s r) r))
    as [z|] eqn:Hz.
  - right. exists z. split; [done|].
    pose proof (calc_scored st5 s (previous_rate st s r) r (calc_time clk) _ z Hh Hz)
      as Hc.
    cbn zeta in Hc. injection Hc as _ _ Hv _ Hr. by rewrite Hv, Hr.
  - left. rewrite calc_unscored; [done|]. by rewrite Hh.
Qed.

Lemma record_observation_shape st clk s r :
  let st' := record_observation st clk s r in
  current_rates st' = PyDict.set s r (current_rates st) ∧
  rate_history st' = <[s := next_series st (pd_now clk) s r]> (rate_history st) ∧
  symbol_last_seen st' = <[s := seen_time clk]> (symbol_last_seen st) ∧
  top5_symbols st' = top5_symbols st ∧
  window_size st' = window_size st ∧ champion_ttl st' = champion_ttl st.
Proof.
  cbv zeta. unfold record_observation. case_match; [|done].
  pose proof (_calculate_volatility_untouched (stored st clk s r) s
                (previous_rate st s r) r (calc_time clk)) as (H1 & H2 & H3 & H4).
  pose proof (_calculate_volatility_control (stored st clk s r) s
                (previous_rate st s r) r (calc_time clk)) as (_ & _ & H5 & H6).
  cbv zeta in *. by rewrite H1, H2, H3, H4, H5, H6.
Qed.

Lemma _update_top5_ranking_tracked np_argsort st t :
  same_tracked (_update_top5_ranking np_argsort st t) st.
Proof. unfold _update_top5_ranking. repeat case_match; by repeat split. Qed.

Lemma reading_checks float_of_str item symbol rate :
  reading float_of_str item = Some (symbol, rate) →
  in_range rate = true ∧ _should_process_symbol symbol = true.
Proof.
  unfold reading, in_range. destruct item as [| | | | |d]; try done.
  destruct (extracted float_of_str d) as [[[| | |s| |] x]|]; try done.
  destruct (PrimFloat.ltb (-1000) x && PrimFloat.ltb x 1000) eqn:E1; [|done].
  destruct (_should_process_symbol s) eqn:E2; [|done].
  simpl. by intros [= <- <-].
Qed.

(** ** Invariants of the core

    A property that holds of a core and is kept by an accepted
    observation, by a cleanup and by a ranking recomputation holds after
    every sequence of calls. *)

Section Invariant.

Variable float_of_str : string → option float.
Variable np_argsort : list float → list nat.
Variable P : BusinessCore → Prop.

Hypothesis P_frame : ∀ a b, same_stores a b → P b → P a.
Hypothesis P_observe : ∀ st clk symbol rate,
  in_range rate = true → _should_process_symbol symbol = true →
  P st → P (record_observation st clk symbol rate).
Hypothesis P_cleanup : ∀ st t, P st → P (_cleanup_caches st t).
Hypothesis P_ranking : ∀ st t, P st → P (_update_top5_ranking np_argsort st t).

Lemma invariant_process st clk item :
  P st → P (_process_single_item float_of_str st clk item).1.
Proof.
  intros Hst. destruct (reading float_of_str item) as [[symbol rate]|] eqn:Hr.
  - rewrite (process_accepted _ _ _ _ _ _ Hr). simpl.
    destruct (reading_checks _ _ _ _ Hr). by apply P_observe.
  - destruct (process_rejected float_of_str st clk item Hr) as [_ H].
    eapply P_frame; [by apply unlogged_same_stores|done].
Qed.

Lemma invariant_process_items items : ∀ st clk i n,
  P st → P (process_items float_of_str st clk i items n).1.
Proof.
  induction items as [|item items IH]; intros st clk i n Hst; simpl; [done|].
  pose proof (invariant_process st (clk i) item Hst) as H1.
  destruct (_process_single_item float_of_str st (clk i) item) as [st1 ok].
  by apply IH.
Qed.

Lemma invariant_update_data st data clk t1 t2 :
  P st → P (update_data float_of_str st data clk t1 t2).
Proof.
  intros Hst. unfold update_data.
  match goal with |- context [process_items _ _ _ _ ?l _] =>
    pose proof (invariant_process_items l st clk 0 0 Hst) as H;
    destruct (process_items float_of_str st clk 0 l 0) as [st1 n] end.
  simpl in H.
  assert (P (_update_statistics st1 n t1)) as Hs.
  { eapply P_frame; [|exact H]. unfold _update_statistics. case_match; by repeat split. }
  case_match; [|done]. case_match; [|done]. by apply P_cleanup.
Qed.

Lemma invariant_run_calls cs : ∀ st,
  P st → P (run_calls float_of_str np_argsort st cs).
Proof.
  induction cs as [|c cs IH]; intros st Hst; simpl; [done|].
  apply IH. destruct c; simpl.
  - eapply P_frame; [|exact Hst]. unfold start. case_match; by repeat split.
  - eapply P_frame; [|exact Hst]. unfold stop. repeat case_match; by repeat split.
  - by apply invariant_update_data.
  - unfold _ranking_loop_turn. case_match; [done|]. by apply P_ranking.
Qed.

End Invariant.

(** The same for a property of the stores alone, which the ranking
    snapshot does not enter. *)
Lemma tracked_invariant_run_calls float_of_str np_argsort (P : BusinessCore → Prop) :
  (∀ a b, same_tracked a b → P b → P a) →
  (∀ st clk symbol rate,
     in_range rate = true → _should_process_symbol symbol = true →
     P st → P (record_observation st clk symbol rate)) →
  (∀ st t, P st → P (_cleanup_caches st t)) →
  ∀ cs st, P st → P (run_calls float_of_str np_argsort st cs).
Proof.
  intros Htracked Hobserve Hcleanup cs st Hst.
  apply invariant_run_calls; try done.
  - intros a b [Hab _]. by apply Htracked.
  - intros st0 t. apply Htracked, _update_top5_ranking_tracked.
Qed.

Lemma record_observation_statistics st clk s r :
  let st' := record_observation st clk s r in
  total_symbols st' = total_symbols st ∧
  data_update_count st' = data_update_count st ∧
  last_update_time st' = last_update_time st.
Proof.
  cbv zeta. unfold record_observation, _calculate_volatility.
  repeat case_match; done.
Qed.

(** ** The stores hold the same symbols *)

(** Every store is keyed by the symbols that have a history: the current
    rates (no symbol twice) and the last-seen times hold exactly those
    symbols, the champion table and the volatility data hold the same
    symbols as each other, all of them with a history. *)
Definition aligned (st : BusinessCore) : Prop :=
  NoDup (PyDict.keys (current_rates st)) ∧
  (∀ s, is_Some (PyDict.get s (current_rates st)) ↔ is_Some (rate_history st !! s)) ∧
  (∀ s, is_Some (symbol_last_seen st !! s) ↔ is_Some (rate_history st !! s)) ∧
  (∀ s, is_Some (volatility_data st !! s) ↔ is_Some (champion_records st !! s)) ∧
  (∀ s, is_Some (champion_records st !! s) → is_Some (rate_history st !! s)).

Lemma is_Some_get_set {V} (d : PyDict.t V) k k' v :
  is_Some (PyDict.get k (PyDict.set k' v d)) ↔ k' = k ∨ is_Some (PyDict.get k d).
Proof.
  destruct (decide (k = k')) as [->|Hne].
  - rewrite get_set_eq. split; [by left|by eexists].
  - rewrite get_set_ne by done. split; [by right|]. by intros [?|?].
Qed.

Lemma is_Some_insert {V} (m : gmap string V) k k' v :
  is_Some (<[k' := v]> m !! k) ↔ k' = k ∨ is_Some (m !! k).
Proof.
  rewrite lookup_insert_is_Some. split; [intros [?|[? ?]]; auto|].
  intros [?|?]; [by left|]. destruct (decide (k' = k)); auto.
Qed.

Lemma is_Some_foldr_delete {V} (m : gmap string V) (ks : list string) k :
  is_Some (foldr delete m ks !! k) ↔ (k ∉ ks) ∧ is_Some (m !! k).
Proof.
  unfold is_Some. split.
  - intros [v Hv]. apply lookup_foldr_delete_Some in Hv as [? ?]. eauto.
  - intros [Hk [v Hv]]. exists v. by apply lookup_foldr_delete_Some.
Qed.

Lemma is_Some_get_foldr_pop {V} (d : PyDict.t V) (ks : list string) k :
  is_Some (PyDict.get k (foldr PyDict.pop d ks)) ↔ (k ∉ ks) ∧ is_Some (PyDict.get k d).
Proof.
  rewrite get_foldr_pop. case_decide.
  - split; [by intros [? ?]|by intros [? _]].
  - split; [done|by intros [_ ?]].
Qed.

Lemma aligned_tracked a b : same_tracked a b → aligned b → aligned a.
Proof.
  intros (H1 & H2 & H3 & H4 & H5 & _). unfold aligned.
  by rewrite H1, H2, H3, H4, H5.
Qed.

Lemma aligned_observe st clk s r : aligned st → aligned (record_observation st clk s r).
Proof.
  intros (Hnd & Hcr & Hseen & Hvol & Hch).
  pose proof (record_observation_shape st clk s r) as (Ecr & Erh & Eseen & _).
  cbv zeta in *. unfold aligned. rewrite Ecr, Erh, Eseen.
  split; [by apply NoDup_keys_set|].
  split; [intros k; by rewrite is_Some_get_set, is_Some_insert, Hcr|].
  split; [intros k; by rewrite !is_Some_insert, Hseen|].
  destruct (record_observation_tables st clk s r) as [[-> ->]|(z & _ & -> & ->)].
  - split; [done|]. intros k Hk. rewrite is_Some_insert. right. by apply Hch.
  - split; [intros k; by rewrite !is_Some_insert, Hvol|].
    intros k. rewrite !is_Some_insert. intros [?|?]; [by left|right; by apply Hch].
Qed.

Lemma aligned_cleanup st t : aligned st → aligned (_cleanup_caches st t).
Proof.
  intros (Hnd & Hcr & Hseen & Hvol & Hch).
  pose proof (_cleanup_caches_shape st t) as (Ecr & Evol & Erh & Ech & Eseen & _).
  cbv zeta in *. unfold aligned. rewrite Ecr, Evol, Erh, Ech, Eseen.
  split; [by apply NoDup_keys_foldr_pop|].
  split; [intros k; by rewrite is_Some_get_foldr_pop, is_Some_foldr_delete, Hcr|].
  split; [intros k; by rewrite !is_Some_foldr_delete, Hseen|].
  split; [intros k; by rewrite !is_Some_foldr_delete, Hvol|].
  intros k. rewrite !is_Some_foldr_delete. intros [? ?]. split; [done|]. by apply Hch.
Qed.

Lemma aligned_init : aligned init.
Proof.
  unfold aligned. simpl. split; [apply NoDup_nil_2|].
  split; [intros s|split; [intros s|split; [intros s|intros s]]];
    rewrite ?lookup_empty; try split; by intros [? ?].
Qed.

Lemma aligned_run_calls float_of_str np_argsort cs st :
  aligned st → aligned (run_calls float_of_str np_argsort st cs).
Proof.
  apply tracked_invariant_run_calls.
  - apply aligned_tracked.
  - intros. by apply aligned_observe.
  - apply aligned_cleanup.
Qed.

(** ** The rates kept *)

(** Every current rate and every retained point passed the range check. *)
Definition rates_ok (st : BusinessCore) : Prop :=
  (∀ s x, PyDict.get s (current_rates st) = Some x → in_range x = true) ∧
  (∀ s h, rate_history st !! s = Some h →
     Forall (λ x, in_range x = true) (Pandas.values h)).

Lemma next_series_drop st t s r :
  ∃ n, next_series st t s r
       = drop n (default [] (rate_history st !! s) ++ [(t, r)]).
Proof.
  unfold next_series, Pandas.concat1, Pandas.iloc_from.
  destruct (rate_history st !! s) as [h|]; simpl;
    case_match; eauto; by exists 0.
Qed.

Lemma rates_ok_tracked a b : same_tracked a b → rates_ok b → rates_ok a.
Proof. intros (H1 & H2 & _). unfold rates_ok. by rewrite H1, H2. Qed.

Lemma rates_ok_observe st clk s r :
  in_range r = true → rates_ok st → rates_ok (record_observation st clk s r).
Proof.
  intros Hr [Hcr Hrh].
  pose proof (record_observation_shape st clk s r) as (Ecr & Erh & _).
  cbv zeta in *. unfold rates_ok. rewrite Ecr, Erh. split.
  - intros k x. destruct (decide (k = s)) as [->|Hne].
    + rewrite get_set_eq. by intros [= <-].
    + rewrite get_set_ne by done. apply Hcr.
  - intros k h. destruct (decide (s = k)) as [->|Hne].
    + rewrite lookup_insert_eq. intros [= <-].
      destruct (next_series_drop st (pd_now clk) k r) as [n ->].
      unfold Pandas.values. rewrite fmap_drop, fmap_app. apply Forall_drop.
      apply Forall_app. split; [|by repeat constructor].
      destruct (rate_history st !! k) as [h|] eqn:Hh; simpl; [|constructor].
      by apply (Hrh k).
    + rewrite lookup_insert_ne by done. apply Hrh.
Qed.

Lemma rates_ok_cleanup st t : rates_ok st → rates_ok (_cleanup_caches st t).
Proof.
  intros [Hcr Hrh].
  pose proof (_cleanup_caches_shape st t) as (Ecr & _ & Erh & _).
  cbv zeta in *. unfold rates_ok. rewrite Ecr, Erh. split.
  - intros k x. rewrite get_foldr_pop. case_decide; [done|]. apply Hcr.
  - intros k h Hk. apply lookup_foldr_delete in Hk. by apply (Hrh k).
Qed.

Lemma rates_ok_init : rates_ok init.
Proof. split; [done|]. intros s h H. simpl in H. by rewrite lookup_empty in H. Qed.

Lemma rates_ok_run_calls float_of_str np_argsort cs st :
  rates_ok st → rates_ok (run_calls float_of_str np_argsort st cs).
Proof.
  apply tracked_invariant_run_calls.
  - apply rates_ok_tracked.
  - intros. by apply rates_ok_observe.
  - apply rates_ok_cleanup.
Qed.

(** A rate that passed the range check is a number. *)
Lemma in_range_notna x : in_range x = true → Float.isna x = false.
Proof.
  unfold in_range. intros [H _]%andb_true_iff.
  by apply FloatOrder.ltb_true_notna in H as [_ ?].
Qed.

(** ** The last retained point is the current rate *)

Definition last_is_current (st : BusinessCore) : Prop :=
  (0 < window_size st)%Z ∧
  ∀ s h, rate_history st !! s = Some h →
    ∃ x, Pandas.iloc_last h = Some x ∧ PyDict.get s (current_rates st) = Some x.

Lemma last_is_current_tracked a b :
  same_tracked a b → last_is_current b → last_is_current a.
Proof.
  intros (H1 & H2 & _ & _ & _ & H3 & _). unfold last_is_current.
  by rewrite H1, H2, H3.
Qed.

Lemma last_is_current_observe st clk s r :
  last_is_current st → last_is_current (record_observation st clk s r).
Proof.
  intros [Hw Hlast].
  pose proof (record_observation_shape st clk s r) as (Ecr & Erh & _ & _ & Ew & _).
  cbv zeta in *. unfold last_is_current. rewrite Ecr, Erh, Ew. split; [done|].
  intros k h. destruct (decide (s = k)) as [->|Hne].
  - rewrite lookup_insert_eq. intros [= <-]. exists r.
    split; [by apply iloc_last_next_series|apply get_set_eq].
  - rewrite lookup_insert_ne by done. rewrite get_set_ne by done. apply Hlast.
Qed.

Lemma last_is_current_cleanup st t :
  last_is_current st → last_is_current (_cleanup_caches st t).
Proof.
  intros [Hw Hlast].
  pose proof (_cleanup_caches_shape st t)
    as (Ecr & _ & Erh & _ & _ & _ & _ & _ & _ & Ew & _).
  cbv zeta in *. unfold last_is_current. rewrite Ecr, Erh, Ew. split; [done|].
  intros k h Hk. apply lookup_foldr_delete_Some in Hk as [Hnot Hk].
  rewrite get_foldr_pop. rewrite decide_False by done. by apply Hlast.
Qed.

Lemma last_is_current_init : last_is_current init.
Proof. split; [done|]. intros s h H. simpl in H. by rewrite lookup_empty in H. Qed.

Lemma last_is_current_run_calls float_of_str np_argsort cs st :
  last_is_current st → last_is_current (run_calls float_of_str np_argsort st cs).
Proof.
  apply tracked_invariant_run_calls.
  - apply last_is_current_tracked.
  - intros. by apply last_is_current_observe.
  - apply last_is_current_cleanup.
Qed.

(** ** The window, over every call *)

Definition windowed (st : BusinessCore) : Prop :=
  (0 < window_size st)%Z ∧ window_ok st.

Lemma windowed_tracked a b : same_tracked a b → windowed b → windowed a.
Proof.
  intros (_ & H2 & _ & _ & _ & H3 & _). unfold windowed, window_ok.
  by rewrite H2, H3.
Qed.

Lemma windowed_observe st clk s r :
  windowed st → windowed (record_observation st clk s r).
Proof.
  intros [Hw Hok].
  pose proof (record_observation_shape st clk s r) as (_ & Erh & _ & _ & Ew & _).
  cbv zeta in *. unfold windowed, window_ok. rewrite Erh, Ew. split; [done|].
  intros k h. destruct (decide (s = k)) as [->|Hne].
  - rewrite lookup_insert_eq. intros [= <-].
    rewrite next_series_most_recent, length_most_recent by done. lia.
  - rewrite lookup_insert_ne by done. apply Hok.
Qed.

Lemma windowed_cleanup st t : windowed st → windowed (_cleanup_caches st t).
Proof.
  intros [Hw Hok]. split; [|by apply window_ok_cleanup].
  by destruct (_cleanup_caches_control st t) as (_ & _ & -> & _).
Qed.

Lemma windowed_init : windowed init.
Proof. split; [done|]. intros s h H. simpl in H. by rewrite lookup_empty in H. Qed.

Lemma windowed_run_calls float_of_str np_argsort cs st :
  windowed st → windowed (run_calls float_of_str np_argsort st cs).
Proof.
  apply tracked_invariant_run_calls.
  - apply windowed_tracked.
  - intros. by apply windowed_observe.
  - apply windowed_cleanup.
Qed.

(** ** The champion table and the volatility data *)

(** A champion record carries the score it was made with: the z-score of
    its new rate against the mean and the standard deviation it stores,
    a standard deviation that passed the guard, and the absolute value of
    that z-score as [max_volatility]. *)
Definition record_ok (c : ChampionRecord) : Prop :=
  max_volatility c = PrimFloat.abs (z_score c) ∧
  z_score c = ((champion_new_rate c - moving_average c) / std_dev c)%float ∧
  Float.isna (std_dev c) = false ∧ PrimFloat.ltb (std_dev c) 1e-10 = false.

(** Every record is such a record; every [volatility_data] entry is the
    entry line 252 builds from the record now in the table, whose
    [champion_age_hours] is the age at the entry's timestamp. *)
Definition champions_ok (st : BusinessCore) : Prop :=
  (∀ s c, champion_records st !! s = Some c → record_ok c) ∧
  (∀ s v, volatility_data st !! s = Some v →
     champion_records st !! s = Some (champion_info v) ∧
     v = volatility_entry (champion_info v) (timestamp v) ∧
     champion_age_hours (champion_info v)
     = ((timestamp v - champion_timestamp (champion_info v)) / 3600)%float).

Lemma record_ok_champion_after st s z h old_rate new_rate t :
  (∀ c, champion_records st !! s = Some c → record_ok c) →
  Spec.z_value (scored_window h new_rate) = Some z →
  record_ok (champion_after st s z (Pandas.mean (Pandas.iloc_init h))
               (Pandas.std (Pandas.iloc_init h)) old_rate new_rate t).
Proof.
  intros Hst Hz. rewrite z_value_scored_window in Hz. cbv zeta in Hz.
  destruct (length h <? 3); [done|].
  destruct (length (Pandas.iloc_init h) <? 2); [done|].
  destruct (Float.isna (Pandas.std (Pandas.iloc_init h))) eqn:Hna; [done|].
  destruct (PrimFloat.ltb (Pandas.std (Pandas.iloc_init h)) 1e-10) eqn:Heps; [done|].
  simpl in Hz. injection Hz as <-.
  unfold champion_after, kept_champion.
  destruct (champion_records st !! s) as [c|] eqn:Hc; [|by repeat split].
  destruct (Float.gtb _ (champion_ttl st)); [by repeat split|].
  destruct (Float.gtb _ (max_volatility c)); [by repeat split|].
  exact (Hst c eq_refl).
Qed.

Lemma champions_ok_tracked a b : same_tracked a b → champions_ok b → champions_ok a.
Proof. intros (_ & _ & H1 & H2 & _). unfold champions_ok. by rewrite H1, H2. Qed.

Lemma champions_ok_observe st clk s r :
  champions_ok st → champions_ok (record_observation st clk s r).
Proof.
  intros [Hrec Hvol].
  destruct (record_observation_tables st clk s r) as [[E1 E2]|(z & Hz & E1 & E2)];
    cbv zeta in *; unfold champions_ok; rewrite E1, E2; [done|].
  pose proof (record_ok_champion_after st s z _ (previous_rate st s r) r (calc_time clk)
                (Hrec s) Hz) as Hok.
  split.
  - intros k c. destruct (decide (s = k)) as [->|Hne].
    + rewrite lookup_insert_eq. by intros [= <-].
    + rewrite lookup_insert_ne by done. apply Hrec.
  - intros k v. destruct (decide (s = k)) as [->|Hne].
    + rewrite !lookup_insert_eq. by intros [= <-].
    + rewrite !lookup_insert_ne by done. apply Hvol.
Qed.

Lemma champions_ok_cleanup st t : champions_ok st → champions_ok (_cleanup_caches st t).
Proof.
  intros [Hrec Hvol].
  pose proof (_cleanup_caches_shape st t) as (_ & Evol & _ & Ech & _).
  cbv zeta in *. unfold champions_ok. rewrite Evol, Ech. split.
  - intros k c Hk. apply lookup_foldr_delete in Hk. by apply (Hrec k).
  - intros k v Hk. apply lookup_foldr_delete_Some in Hk as [Hnot Hk].
    destruct (Hvol k v Hk) as (Hc & Hv & Hage). split; [|done].
    by apply lookup_foldr_delete_Some.
Qed.

Lemma champions_ok_init : champions_ok init.
Proof. split; intros s x H; simpl in H; by rewrite lookup_empty in H. Qed.

Lemma champions_ok_run_calls float_of_str np_argsort cs st :
  champions_ok st → champions_ok (run_calls float_of_str np_argsort st cs).
Proof.
  apply tracked_invariant_run_calls.
  - apply champions_ok_tracked.
  - intros. by apply champions_ok_observe.
  - apply champions_ok_cleanup.
Qed.

(** ** The symbols kept *)

(** A symbol some store holds. *)
Definition tracked (st : BusinessCore) (s : string) : Prop :=
  is_Some (PyDict.get s (current_rates st)) ∨ is_Some (rate_history st !! s) ∨
  is_Some (symbol_last_seen st !! s) ∨ is_Some (champion_records st !! s) ∨
  is_Some (volatility_data st !! s).

Definition symbols_ok (st : BusinessCore) : Prop :=
  ∀ s, tracked st s → _should_process_symbol s = true.

Lemma symbols_ok_tracked a b : same_tracked a b → symbols_ok b → symbols_ok a.
Proof.
  intros (H1 & H2 & H3 & H4 & H5 & _). unfold symbols_ok, tracked.
  by rewrite H1, H2, H3, H4, H5.
Qed.

Lemma symbols_ok_observe st clk s r :
  _should_process_symbol s = true →
  symbols_ok st → symbols_ok (record_observation st clk s r).
Proof.
  intros Hs Hst k.
  pose proof (record_observation_shape st clk s r) as (Ecr & Erh & Eseen & _).
  cbv zeta in *. unfold tracked. rewrite Ecr, Erh, Eseen.
  destruct (decide (s = k)) as [<-|Hne]; [done|].
  rewrite is_Some_get_set, !is_Some_insert.
  destruct (record_observation_tables st clk s r) as [[-> ->]|(z & _ & -> & ->)];
    rewrite ?is_Some_insert; intros H; apply Hst; unfold tracked; tauto.
Qed.

Lemma symbols_ok_cleanup st t : symbols_ok st → symbols_ok (_cleanup_caches st t).
Proof.
  intros Hst k.
  pose proof (_cleanup_caches_shape st t) as (Ecr & Evol & Erh & Ech & Eseen & _).
  cbv zeta in *. unfold tracked. rewrite Ecr, Evol, Erh, Ech, Eseen.
  rewrite is_Some_get_foldr_pop, !is_Some_foldr_delete.
  intros H; apply Hst; unfold tracked; tauto.
Qed.

Lemma symbols_ok_init : symbols_ok init.
Proof.
  intros s. unfold tracked. simpl. rewrite !lookup_empty.
  intros [H|[H|[H|[H|H]]]]; by destruct H.
Qed.

Lemma symbols_ok_run_calls float_of_str np_argsort cs st :
  symbols_ok st → symbols_ok (run_calls float_of_str np_argsort st cs).
Proof.
  apply tracked_invariant_run_calls.
  - apply symbols_ok_tracked.
  - intros. by apply symbols_ok_observe.
  - apply symbols_ok_cleanup.
Qed.

Lemma window_size_run_calls float_of_str np_argsort cs st :
  window_size (run_calls float_of_str np_argsort st cs) = window_size st.
Proof.
  apply (tracked_invariant_run_calls float_of_str np_argsort
           (λ st', window_size st' = window_size st)); [| | |done].
  - intros a b (_ & _ & _ & _ & _ & H & _). by rewrite H.
  - intros st0 clk s r _ _.
    by destruct (record_observation_shape st0 clk s r) as (_ & _ & _ & _ & -> & _).
  - intros st0 t. by destruct (_cleanup_caches_control st0 t) as (_ & _ & -> & _).
Qed.

(** ** Python's string tests *)

Lemma startswith_spec p s : PyStr.startswith p s = true ↔ ∃ b, s = p +:+ b.
Proof.
  revert s. induction p as [|a p IH]; intros s; simpl.
  - split; [by exists s|done].
  - destruct s as [|c s]; simpl.
    + split; [done|by intros [b ?]].
    + rewrite andb_true_iff, bool_decide_eq_true, IH. split.
      * intros [-> [b ->]]. by exists b.
      * intros [b [= -> ->]]. split; [done|by exists b].
Qed.

Lemma contains_spec k s : PyStr.contains k s = true ↔ ∃ a b, s = a +:+ k +:+ b.
Proof.
  split.
  - induction s as [|c s IH]; simpl; rewrite orb_true_iff.
    + intros [H|H]; [|done]. apply startswith_spec in H as [b ->]. by exists "", b.
    + intros [H|H].
      * apply startswith_spec in H as [b ->]. by exists "", b.
      * destruct (IH H) as (a & b & ->). by exists (String c a), b.
  - intros (a & b & ->). induction a as [|c a IH]; simpl.
    + assert (PyStr.startswith k (k +:+ b) = true) as H
        by (apply startswith_spec; by exists b).
      destruct (k +:+ b); simpl in *; by rewrite H.
    + rewrite IH. apply orb_true_r.
Qed.

Lemma endswith_spec s p : PyStr.endswith s p = true ↔ ∃ a, s = a +:+ p.
Proof.
  split.
  - induction s as [|c s IH]; simpl; rewrite orb_true_iff, bool_decide_eq_true.
    + intros [<-|H]; [by exists ""|done].
    + intros [<-|H]; [by exists ""|].
      destruct (IH H) as (a & ->). by exists (String c a).
  - intros (a & ->). induction a as [|c a IH]; simpl.
    + change (PyStr.endswith p p = true).
      destruct p; cbn [PyStr.endswith]; by case_bool_decide.
    + rewrite IH. apply orb_true_r.
Qed.

(** [_should_process_symbol] in words: the symbol ends with [USDT] and
    contains neither [UP] nor [DOWN]. *)
Lemma _should_process_symbol_spec s :
  _should_process_symbol s = true ↔
  (∃ a, s = a +:+ "USDT") ∧
  ¬ (∃ a b, s = a +:+ "UP" +:+ b) ∧ ¬ (∃ a b, s = a +:+ "DOWN" +:+ b).
Proof.
  unfold _should_process_symbol, Config.SYMBOL_SUFFIX_FILTER,
    Config.SYMBOL_EXCLUDE_KEYWORDS.
  rewrite <- endswith_spec, <- !contains_spec. cbn [existsb].
  destruct (PyStr.endswith s "USDT"), (PyStr.contains "UP" s),
    (PyStr.contains "DOWN" s); simpl; split; try done; intros (? & ? & ?); done.
Qed.

(** ** The ranking snapshot *)

Definition top5_bounded (st : BusinessCore) : Prop :=
  length (top5_symbols st) ≤ Config.TOP_RANKING_COUNT.

Lemma top5_bounded_ranking np_argsort st t :
  top5_bounded st → top5_bounded (_update_top5_ranking np_argsort st t).
Proof.
  unfold top5_bounded, _update_top5_ranking. intros Hst.
  destruct (ranking_data st t) as [|p rd]; [done|].
  destruct (take_symbols _ _) as [new_top5|] eqn:Htake; [|done].
  case_decide; [done|]. simpl.
  apply length_mapM in Htake. rewrite <- Htake, length_take. lia.
Qed.

Lemma top5_bounded_run_calls float_of_str np_argsort cs st :
  top5_bounded st → top5_bounded (run_calls float_of_str np_argsort st cs).
Proof.
  apply invariant_run_calls.
  - intros a b [_ H]. unfold top5_bounded. by rewrite H.
  - intros st0 clk s r _ _.
    pose proof (record_observation_shape st0 clk s r) as (_ & _ & _ & H & _).
    cbv zeta in H. unfold top5_bounded. by rewrite H.
  - intros st0 t.
    pose proof (_cleanup_caches_shape st0 t) as (_ & _ & _ & _ & _ & H & _).
    cbv zeta in H. unfold top5_bounded. by rewrite H.
  - intros st0 t. apply top5_bounded_ranking.
Qed.

Lemma omap_guard_fst {A B} (g : A → bool) (h : A → B) (l : list A) :
  (omap (λ x, if g x then Some (x, h x) else None) l).*1
  = filter (λ x, g x = true) l.
Proof.
  induction l as [|x l IH]; [done|].
  cbn [omap list_omap]. rewrite filter_cons. destruct (g x) eqn:E.
  - rewrite decide_True by done. simpl. by rewrite <- IH.
  - rewrite decide_False by done. exact IH.
Qed.

(** The symbols of the ranking data are the tracked symbols with a
    positive score, in the order of [current_rates]. *)
Lemma ranking_data_symbols st t :
  (ranking_data st t).*1
  = filter (λ s, Float.gtb (ranking_score st t s) 0 = true)
      (PyDict.keys (current_rates st)).
Proof.
  exact (omap_guard_fst (λ s, Float.gtb (ranking_score st t s) 0)
           (ranking_score st t) (PyDict.keys (current_rates st))).
Qed.

(** What [get_top5_data] lists: the symbols of the snapshot that have a
    [volatility_data] entry, in the order of the snapshot. *)
Lemma top5_entries_symbols st now symbols : ∀ i,
  entry_symbol <$> top5_entries st now i symbols
  = omap (λ s, (λ _, s) <$> volatility_data st !! s) symbols.
Proof.
  induction symbols as [|s symbols IH]; intros i; simpl; [done|].
  destruct (volatility_data st !! s); simpl; by rewrite IH.
Qed.

Section Snapshot.

Variable float_of_str : string → option float.
Variable np_argsort : list float → list nat.
Hypothesis np_argsort_spec : argsort_spec np_argsort.

(** No symbol is listed twice: the current rates hold no symbol twice,
    and the snapshot is cut from a permutation of their symbols. *)
Definition top5_distinct (st : BusinessCore) : Prop :=
  NoDup (PyDict.keys (current_rates st)) ∧ NoDup (top5_symbols st).

Lemma top5_distinct_ranking st t :
  top5_distinct st → top5_distinct (_update_top5_ranking np_argsort st t).
Proof.
  intros [Hkeys Htop]. rewrite (_update_top5_ranking_eq np_argsort np_argsort_spec).
  cbv zeta. case_decide; [done|]. split; [done|]. simpl.
  rewrite fmap_take. eapply sublist_NoDup; [|apply sublist_take].
  rewrite (ranked_Permutation np_argsort np_argsort_spec), ranking_data_symbols.
  by apply NoDup_filter.
Qed.

Lemma top5_distinct_run_calls cs st :
  top5_distinct st → top5_distinct (run_calls float_of_str np_argsort st cs).
Proof.
  apply invariant_run_calls.
  - intros a b [(H1 & _) H2]. unfold top5_distinct. by rewrite H1, H2.
  - intros st0 clk s r _ _ [Hkeys Htop].
    pose proof (record_observation_shape st0 clk s r) as (H1 & _ & _ & H2 & _).
    cbv zeta in *. unfold top5_distinct. rewrite H1, H2.
    split; [by apply NoDup_keys_set|done].
  - intros st0 t [Hkeys Htop].
    pose proof (_cleanup_caches_shape st0 t) as (H1 & _ & _ & _ & _ & H2 & _).
    cbv zeta in *. unfold top5_distinct. rewrite H1, H2.
    split; [by apply NoDup_keys_foldr_pop|done].
  - apply top5_distinct_ranking.
Qed.

(** Once a symbol is listed the snapshot is never empty again. *)
Definition top5_listed (st : BusinessCore) : Prop := 0 < length (top5_symbols st).

Lemma top5_listed_ranking st t :
  top5_listed st → top5_listed (_update_top5_ranking np_argsort st t).
Proof.
  unfold top5_listed. intros Hst.
  rewrite (_update_top5_ranking_eq np_argsort np_argsort_spec).
  cbv zeta. case_decide as Hd; [done|]. simpl.
  rewrite length_fmap, length_take,
    (ranked_Permutation np_argsort np_argsort_spec).
  destruct (ranking_data st t); [by destruct Hd; left|].
  unfold Config.TOP_RANKING_COUNT. simpl. lia.
Qed.

Lemma top5_listed_run_calls cs st :
  top5_listed st → top5_listed (run_calls float_of_str np_argsort st cs).
Proof.
  apply invariant_run_calls.
  - intros a b [_ H]. unfold top5_listed. by rewrite H.
  - intros st0 clk s r _ _.
    pose proof (record_observation_shape st0 clk s r) as (_ & _ & _ & H & _).
    cbv zeta in H. unfold top5_listed. by rewrite H.
  - intros st0 t.
    pose proof (_cleanup_caches_shape st0 t) as (_ & _ & _ & _ & _ & H & _).
    cbv zeta in H. unfold top5_listed. by rewrite H.
  - apply top5_listed_ranking.
Qed.

(** Every listed symbol passed the symbol filter. *)
Definition top5_filtered (st : BusinessCore) : Prop :=
  symbols_ok st ∧ Forall (λ s, _should_process_symbol s = true) (top5_symbols st).

Lemma top5_filtered_ranking st t :
  top5_filtered st → top5_filtered (_update_top5_ranking np_argsort st t).
Proof.
  intros [Hsym Htop]. split.
  - eapply symbols_ok_tracked; [apply _update_top5_ranking_tracked|done].
  - rewrite (_update_top5_ranking_eq np_argsort np_argsort_spec).
    cbv zeta. case_decide; [done|]. simpl.
    rewrite fmap_take. apply Forall_take.
    rewrite (ranked_Permutation np_argsort np_argsort_spec), ranking_data_symbols.
    apply Forall_forall. intros s [_ Hs]%list_elem_of_filter.
    apply Hsym. left. by apply elem_of_keys.
Qed.

Lemma top5_filtered_run_calls cs st :
  top5_filtered st → top5_filtered (run_calls float_of_str np_argsort st cs).
Proof.
  apply invariant_run_calls.
  - intros a b [Hab Htop] [Hsym Hb]. split.
    + by eapply symbols_ok_tracked.
    + by rewrite Htop.
  - intros st0 clk s r _ Hs [Hsym Htop]. split; [by apply symbols_ok_observe|].
    by destruct (record_observation_shape st0 clk s r) as (_ & _ & _ & -> & _).
  - intros st0 t [Hsym Htop]. split; [by apply symbols_ok_cleanup|].
    by destruct (_cleanup_caches_shape st0 t) as (_ & _ & _ & _ & _ & -> & _).
  - apply top5_filtered_ranking.
Qed.

End Snapshot.

(** ** Which items are accepted *)

(** The field pair an item is read from: the first of [s]/[r],
    [symbol]/[fundingRate] and [symbol]/[funding_rate] whose two keys are
    both present, with whether its value is scaled by 100. *)
Definition field_pair (item : list (string * json)) : option (json * json * bool) :=
  match Json.lookup "s" item, Json.lookup "r" item with
  | Some s, Some r => Some (s, r, true)
  | _, _ =>
    match Json.lookup "symbol" item, Json.lookup "fundingRate" item with
    | Some s, Some r => Some (s, r, true)
    | _, _ =>
      match Json.lookup "symbol" item, Json.lookup "funding_rate" item with
      | Some s, Some r => Some (s, r, false)
      | _, _ => None
      end
    end
  end.

Section Items.

Variable float_of_str : string → option float.

Lemma extracted_field_pair d :
  extracted float_of_str d
  = match field_pair d with
    | Some (s, raw, scaled) =>
      match py_float float_of_str raw with
      | Some x => Some (s, if scaled then (x * 100)%float else x)
      | None => None
      end
    | None => None
    end.
Proof.
  unfold extracted, _extract_rate, field_pair.
  repeat case_match; simplify_eq/=; done.
Qed.

Lemma reading_spec item symbol rate :
  reading float_of_str item = Some (symbol, rate) ↔
  ∃ d raw scaled x,
    item = JDict d ∧ field_pair d = Some (JStr symbol, raw, scaled) ∧
    py_float float_of_str raw = Some x ∧
    rate = (if scaled then (x * 100)%float else x) ∧
    in_range rate = true ∧ _should_process_symbol symbol = true.
Proof.
  unfold reading, in_range. split.
  - destruct item as [| | | | |d]; try done. rewrite extracted_field_pair.
    destruct (field_pair d) as [[[s raw] scaled]|] eqn:Hp; [|done].
    destruct (py_float float_of_str raw) as [x|] eqn:Hx; [|done].
    destruct s as [| | |s| |]; try done.
    destruct (PrimFloat.ltb (-1000) _ && PrimFloat.ltb _ 1000) eqn:Hr; [|done].
    destruct (_should_process_symbol s) eqn:Hs; [|done].
    simpl. intros [= <- <-]. by exists d, raw, scaled, x.
  - intros (d & raw & scaled & x & -> & Hp & Hx & -> & Hr & Hs).
    rewrite extracted_field_pair, Hp, Hx, Hr, Hs. done.
Qed.

(** X1. [_process_single_item] returns [True] exactly for a dict whose
    first complete field pair holds a [str] symbol that passes the symbol
    filter and a value [float()] converts to a rate (scaled by 100 for
    the pairs [s]/[r] and [symbol]/[fundingRate]) strictly between -1000
    and 1000. For every other item it returns [False] and changes
    nothing but the log. *)
Theorem item_acceptance (st : BusinessCore) (clk : Clock) (item : json) :
  let r := _process_single_item float_of_str st clk item in
  (r.2 = true ↔
   ∃ d symbol raw scaled x,
     item = JDict d ∧ field_pair d = Some (JStr symbol, raw, scaled) ∧
     py_float float_of_str raw = Some x ∧
     PrimFloat.ltb (-1000) (if scaled then (x * 100)%float else x) = true ∧
     PrimFloat.ltb (if scaled then (x * 100)%float else x) 1000 = true ∧
     _should_process_symbol symbol = true) ∧
  (r.2 = false → unlogged r.1 = unlogged st).
Proof.
  intros r. subst r.
  destruct (reading float_of_str item) as [[symbol rate]|] eqn:Hr.
  - rewrite (process_accepted _ _ _ _ _ _ Hr). simpl. split; [|done].
    split; [intros _|done].
    apply reading_spec in Hr as (d & raw & scaled & x & -> & Hp & Hx & -> & Hin & Hs).
    apply andb_true_iff in Hin as [H1 H2]. by exists d, symbol, raw, scaled, x.
  - destruct (process_rejected float_of_str st clk item Hr) as [H1 H2].
    rewrite H1. split.
    + split; [done|].
      intros (d & symbol & raw & scaled & x & -> & Hp & Hx & H3 & H4 & Hs).
      assert (reading float_of_str (JDict d)
              = Some (symbol, if scaled then (x * 100)%float else x)) as Hsome.
      { apply reading_spec. exists d, raw, scaled, x. unfold in_range.
        by rewrite H3, H4. }
      congruence.
    + done.
Qed.

(** X2. An accepted item writes its own symbol and no other: the
    symbol's current rate becomes the item's rate (an existing symbol
    keeps its place in [current_rates], a new one goes last), its
    last-seen time the clock's, its series the old one with the new row,
    cut to the window; the rate, the series, the last-seen time, the
    champion record and the volatility data of every other symbol, the
    ranking snapshot and the statistics are left as they were. *)
Theorem accepted_item_writes_its_symbol (st : BusinessCore) (clk : Clock)
    (item : json) (symbol : string) (rate : float) :
  reading float_of_str item = Some (symbol, rate) →
  let st' := (_process_single_item float_of_str st clk item).1 in
  PyDict.get symbol (current_rates st') = Some rate ∧
  symbol_last_seen st' !! symbol = Some (seen_time clk) ∧
  rate_history st' !! symbol = Some (next_series st (pd_now clk) symbol rate) ∧
  (symbol ∈ PyDict.keys (current_rates st) →
   PyDict.keys (current_rates st') = PyDict.keys (current_rates st)) ∧
  (symbol ∉ PyDict.keys (current_rates st) →
   PyDict.keys (current_rates st') = PyDict.keys (current_rates st) ++ [symbol]) ∧
  (∀ other, other ≠ symbol →
     PyDict.get other (current_rates st') = PyDict.get other (current_rates st) ∧
     rate_history st' !! other = rate_history st !! other ∧
     symbol_last_seen st' !! other = symbol_last_seen st !! other ∧
     champion_records st' !! other = champion_records st !! other ∧
     volatility_data st' !! other = volatility_data st !! other) ∧
  top5_symbols st' = top5_symbols st ∧
  total_symbols st' = total_symbols st ∧
  data_update_count st' = data_update_count st ∧
  last_update_time st' = last_update_time st.
Proof.
  intros Hr st'. subst st'. rewrite (process_accepted _ _ _ _ _ _ Hr). cbn [fst].
  pose proof (record_observation_shape st clk symbol rate)
    as (Ecr & Erh & Eseen & Etop & _).
  pose proof (record_observation_statistics st clk symbol rate) as (Et & Ec & El).
  cbv zeta in *. rewrite Ecr, Erh, Eseen, Etop, Et, Ec, El.
  rewrite get_set_eq, !lookup_insert_eq, keys_set.
  split; [done|]. split; [done|]. split; [done|].
  split; [intros Hin; by rewrite decide_True|].
  split; [intros Hnin; by rewrite decide_False|].
  split; [|done].
  intros other Hne. rewrite get_set_ne, !lookup_insert_ne by done.
  split; [done|]. split; [done|]. split; [done|].
  destruct (record_observation_tables st clk symbol rate)
    as [[-> ->]|(z & _ & -> & ->)]; [done|].
  by rewrite !lookup_insert_ne by done.
Qed.

End Items.

(** ** What every reachable core satisfies *)

Section Reached.

Variable float_of_str : string → option float.
Variable np_argsort : list float → list nat.

(** The cores a process can reach: any calls of [start], [stop] and
    [update_data] and any turns of the ranking loop on a new core. *)
Definition reached (cs : list CoreCall) : BusinessCore :=
  run_calls float_of_str np_argsort init cs.

(** X3. In every core a process can reach, each current rate and each
    retained point of each series is a number strictly between -1000 and
    1000: no NaN and no infinity is ever stored. *)
Theorem retained_rates_in_range (cs : list CoreCall) (symbol : string) :
  let st := reached cs in
  let bounded (x : float) :=
    PrimFloat.ltb (-1000) x = true ∧ PrimFloat.ltb x 1000 = true ∧
    Float.isna x = false in
  (∀ x, PyDict.get symbol (current_rates st) = Some x → bounded x) ∧
  (∀ h, rate_history st !! symbol = Some h → Forall bounded (Pandas.values h)).
Proof.
  intros st bounded.
  assert (∀ x, in_range x = true → bounded x) as Hb.
  { intros x Hx. pose proof (in_range_notna x Hx) as Hna.
    apply andb_true_iff in Hx as [H1 H2]. by repeat split. }
  destruct (rates_ok_run_calls float_of_str np_argsort cs init rates_ok_init)
    as [Hcr Hrh].
  split.
  - intros x Hx. apply Hb. by apply (Hcr symbol).
  - intros h Hh. eapply Forall_impl; [by apply (Hrh symbol)|]. exact Hb.
Qed.

(** X4. In every core a process can reach, a symbol that any store
    holds (the current rates, the histories, the last-seen times, the
    champion table, the volatility data) ends with [USDT] and contains
    neither [UP] nor [DOWN]. *)
Theorem tracked_symbols_pass_filter (cs : list CoreCall) (symbol : string) :
  tracked (reached cs) symbol →
  (∃ a, symbol = a +:+ "USDT") ∧
  ¬ (∃ a b, symbol = a +:+ "UP" +:+ b) ∧
  ¬ (∃ a b, symbol = a +:+ "DOWN" +:+ b).
Proof.
  intros Hs. apply _should_process_symbol_spec.
  by apply (symbols_ok_run_calls float_of_str np_argsort cs init symbols_ok_init).
Qed.

(** X5. In every core a process can reach the stores hold the same
    symbols: [current_rates] (where no symbol occurs twice),
    [rate_history] and [symbol_last_seen] have the same keys;
    [champion_records] and [volatility_data] have the same keys, each of
    them a key of [rate_history]. *)
Theorem stores_hold_same_symbols (cs : list CoreCall) :
  let st := reached cs in
  NoDup (PyDict.keys (current_rates st)) ∧
  (∀ s, s ∈ PyDict.keys (current_rates st) ↔ is_Some (rate_history st !! s)) ∧
  (∀ s, is_Some (symbol_last_seen st !! s) ↔ is_Some (rate_history st !! s)) ∧
  (∀ s, is_Some (volatility_data st !! s) ↔ is_Some (champion_records st !! s)) ∧
  (∀ s, is_Some (champion_records st !! s) → is_Some (rate_history st !! s)).
Proof.
  intros st.
  destruct (aligned_run_calls float_of_str np_argsort cs init aligned_init)
    as (Hnd & Hcr & Hseen & Hvol & Hch).
  split; [done|]. split; [|done].
  intros s. rewrite elem_of_keys. apply Hcr.
Qed.

(** X6. In every core a process can reach, the last point of a symbol's
    series is the symbol's current rate: the series is never empty and
    [current_rates] and [rate_history] never disagree on the latest
    rate. *)
Theorem current_rate_is_last_point (cs : list CoreCall) (symbol : string)
    (h : Pandas.Series) :
  rate_history (reached cs) !! symbol = Some h →
  ∃ x, Pandas.iloc_last h = Some x ∧
       PyDict.get symbol (current_rates (reached cs)) = Some x.
Proof.
  intros Hh.
  destruct (last_is_current_run_calls float_of_str np_argsort cs init
              last_is_current_init) as [_ Hlast].
  by apply Hlast.
Qed.

(** X7. In every core a process can reach, each champion record carries
    the score it was made with: [z_score] is
    [(champion_new_rate - moving_average) / std_dev], [std_dev] is not
    NaN and not below 1e-10, and [max_volatility] is [abs(z_score)]. Each
    [volatility_data] entry is the entry built from the record now in the
    table ([combined] is its [max_volatility], [rate_change] its new rate
    minus its old rate), and the record's [champion_age_hours] is its age
    at the entry's timestamp. *)
Theorem champion_records_well_formed (cs : list CoreCall) (symbol : string) :
  let st := reached cs in
  (∀ c, champion_records st !! symbol = Some c →
     z_score c = ((champion_new_rate c - moving_average c) / std_dev c)%float ∧
     Float.isna (std_dev c) = false ∧ PrimFloat.ltb (std_dev c) 1e-10 = false ∧
     max_volatility c = PrimFloat.abs (z_score c)) ∧
  (∀ v, volatility_data st !! symbol = Some v →
     champion_records st !! symbol = Some (champion_info v) ∧
     combined v = max_volatility (champion_info v) ∧
     v_z_score v = z_score (champion_info v) ∧
     v_moving_average v = moving_average (champion_info v) ∧
     v_std_dev v = std_dev (champion_info v) ∧
     rate_change v
     = (champion_new_rate (champion_info v) - champion_old_rate (champion_info v))%float ∧
     champion_age_hours (champion_info v)
     = ((timestamp v - champion_timestamp (champion_info v)) / 3600)%float).
Proof.
  intros st.
  destruct (champions_ok_run_calls float_of_str np_argsort cs init champions_ok_init)
    as [Hrec Hvol].
  split.
  - intros c Hc. destruct (Hrec symbol c Hc) as (H1 & H2 & H3 & H4). done.
  - intros v Hv. destruct (Hvol symbol v Hv) as (Hc & Hentry & Hage).
    split; [done|]. destruct v as [cb vz vma vsd rc ci ts]. simpl in *.
    unfold volatility_entry in Hentry. injection Hentry as -> -> -> -> ->. done.
Qed.

End Reached.

(** ** A batch of items *)

Section Batch.

Variable float_of_str : string → option float.

Lemma process_items_spec items : ∀ st clk i n,
  let r := process_items float_of_str st clk i items n in
  r.2 = n + length (omap (reading float_of_str) items) ∧
  total_symbols r.1 = total_symbols st ∧
  data_update_count r.1 = data_update_count st ∧
  last_update_time r.1 = last_update_time st ∧
  (omap (reading float_of_str) items = [] → unlogged r.1 = unlogged st).
Proof.
  induction items as [|item items IH]; intros st clk i n; cbn zeta.
  - simpl. rewrite Nat.add_0_r. done.
  - cbn [process_items omap list_omap].
    destruct (reading float_of_str item) as [[symbol rate]|] eqn:Hr.
    + rewrite (process_accepted _ _ _ _ _ _ Hr).
      pose proof (record_observation_statistics st (clk i) symbol rate) as H.
      pose proof (IH (record_observation st (clk i) symbol rate) clk (S i) (n + 1))
        as (H1 & H2 & H3 & H4 & _).
      cbv zeta in *. destruct H as (E1 & E2 & E3).
      rewrite H1, H2, H3, H4, E1, E2, E3. simpl. repeat split; try done. lia.
    + destruct (process_rejected float_of_str st (clk i) item Hr) as [Hf Hu].
      destruct (_process_single_item float_of_str st (clk i) item) as [st1 ok].
      simpl in Hf, Hu. subst ok.
      pose proof (IH st1 clk (S i) n) as (H1 & H2 & H3 & H4 & H5).
      cbv zeta in *. rewrite H1, H2, H3, H4.
      pose proof Hu as Hfields. injection Hfields as ?????????????.
      repeat split; try done. intros Hnil. by rewrite (H5 Hnil).
Qed.

(** X8. One call of [update_data] counts as one update however many
    items it carries. With no accepted item (a payload that is neither a
    list nor a dict, an empty list, or only rejected items) the core is
    left as it was but for its log. With at least one accepted item
    [data_update_count] grows by exactly one, [last_update_time] is the
    clock's (so [get_last_update_age] is the time since then), and
    [total_symbols] is the number of current rates once the items are
    processed; on every hundredth update the statistics are
    logged and the cleanup runs, still before [total_symbols] could see
    what it removes. *)
Theorem update_data_counts_batches (st : BusinessCore) (data : json)
    (clk : nat → Clock) (t1 t2 : float) :
  let items := match data with JList l => l | JDict _ => [data] | _ => [] end in
  let accepted := length (omap (reading float_of_str) items) in
  let st1 := (process_items float_of_str st clk 0 items 0).1 in
  let counted :=
    set_statistics st1 (length (current_rates st1)) (data_update_count st + 1)
      (Some t1) in
  let st' := update_data float_of_str st data clk t1 t2 in
  (items = [] → st' = st) ∧
  (accepted = 0 → unlogged st' = unlogged st) ∧
  (0 < accepted →
     data_update_count st' = data_update_count st + 1 ∧
     last_update_time st' = Some t1 ∧
     (∀ now, get_last_update_age st' now = Some (now - t1)%float) ∧
     total_symbols st' = length (current_rates st1) ∧
     ((data_update_count st + 1) `mod` 100 ≠ 0 → st' = counted) ∧
     ((data_update_count st + 1) `mod` 100 = 0 →
      st' = _cleanup_caches
              (logger counted
                 (LogStatistics (data_update_count st + 1)
                    (length (current_rates st1)))) t2)).
Proof.
  intros items accepted st1 counted st'. subst st' counted st1 accepted.
  unfold update_data. fold items.
  pose proof (process_items_spec items st clk 0 0) as (Hn & Ht & Hc & Hl & Hu).
  destruct (process_items float_of_str st clk 0 items 0) as [st1 n] eqn:Hp.
  cbn [fst snd] in *. rewrite Nat.add_0_l in Hn. subst n.
  split; [|split].
  - intros Hnil. rewrite Hnil in Hp. simpl in Hp. injection Hp as <-.
    by rewrite Hnil.
  - intros H0. rewrite H0. simpl. apply Hu.
    by destruct (omap (reading float_of_str) items).
  - intros Hpos.
    replace (0 <? length (omap (reading float_of_str) items)) with true
      by (symmetry; by apply Nat.ltb_lt).
    unfold _update_statistics, Config.STATS_PRINT_INTERVAL. cbn zeta.
    cbn [data_update_count set_statistics total_symbols]. rewrite Hc.
    destruct (decide ((data_update_count st + 1) `mod` 100 = 0)) as [Hm|Hm].
    + cbn [data_update_count logger set_statistics].
      rewrite decide_True by done.
      pose proof (_cleanup_caches_shape
                    (logger (set_statistics st1 (length (current_rates st1))
                               (data_update_count st + 1) (Some t1))
                       (LogStatistics (data_update_count st + 1)
                          (length (current_rates st1)))) t2)
        as (_ & _ & _ & _ & _ & _ & E1 & E2 & E3 & _).
      cbv zeta in *. unfold get_last_update_age. rewrite E1, E2, E3. simpl.
      repeat split; try done.
    + cbn [data_update_count set_statistics].
      rewrite decide_False by done. simpl. repeat split; try done.
Qed.

End Batch.

(** ** The cleanup *)

(** X9. [_cleanup_caches] at time [t] removes a symbol from all five
    stores, or from none: a symbol last seen more than 72 hours before
    [t] has no current rate, no series, no last-seen time, no champion
    record and no volatility data afterwards; every other symbol keeps
    all of them. The ranking snapshot and the statistics are not
    touched (a removed symbol stays listed in [top5_symbols]), and a
    second cleanup at the same time changes nothing. *)
Theorem cleanup_removes_inactive (st : BusinessCore) (t : float) (symbol : string) :
  let st' := _cleanup_caches st t in
  let inactive :=
    ∃ seen, symbol_last_seen st !! symbol = Some seen ∧
            Float.gtb (t - seen)%float (72 * 3600)%float = true in
  (inactive →
     PyDict.get symbol (current_rates st') = None ∧
     rate_history st' !! symbol = None ∧
     symbol_last_seen st' !! symbol = None ∧
     champion_records st' !! symbol = None ∧
     volatility_data st' !! symbol = None) ∧
  (¬ inactive →
     PyDict.get symbol (current_rates st') = PyDict.get symbol (current_rates st) ∧
     rate_history st' !! symbol = rate_history st !! symbol ∧
     symbol_last_seen st' !! symbol = symbol_last_seen st !! symbol ∧
     champion_records st' !! symbol = champion_records st !! symbol ∧
     volatility_data st' !! symbol = volatility_data st !! symbol) ∧
  top5_symbols st' = top5_symbols st ∧
  total_symbols st' = total_symbols st ∧
  data_update_count st' = data_update_count st ∧
  last_update_time st' = last_update_time st ∧
  _cleanup_caches st' t = st'.
Proof.
  intros st' inactive. subst st' inactive.
  pose proof (_cleanup_caches_shape st t)
    as (Ecr & Evol & Erh & Ech & Eseen & Etop & Et & Ec & El & _).
  cbv zeta in *. rewrite <- (elem_of_inactive_symbols st t symbol).
  rewrite Ecr, Evol, Erh, Ech, Eseen, Etop, Et, Ec, El.
  split; [|split].
  - intros Hin. rewrite get_foldr_pop, decide_True by done.
    repeat split; try done; apply eq_None_not_Some; rewrite is_Some_foldr_delete; tauto.
  - intros Hnot. rewrite get_foldr_pop, decide_False by done.
    assert (∀ V (m : gmap string V),
              foldr delete m (inactive_symbols st t) !! symbol = m !! symbol) as Hm.
    { intros V m. destruct (m !! symbol) as [v|] eqn:Hv.
      - by apply lookup_foldr_delete_Some.
      - apply eq_None_not_Some. rewrite is_Some_foldr_delete, Hv.
        intros [_ [? ?]]. done. }
    by rewrite !Hm.
  - repeat split; try done.
    assert (inactive_symbols (_cleanup_caches st t) t = []) as Hnil.
    { apply elem_of_nil_inv. intros s Hs.
      apply elem_of_inactive_symbols in Hs as (seen & Hseen & Hgt).
      rewrite Eseen in Hseen. apply lookup_foldr_delete_Some in Hseen as [Hnot Hseen].
      apply Hnot. apply elem_of_inactive_symbols. eauto. }
    unfold _cleanup_caches at 1. cbv zeta.
    fold (inactive_symbols (_cleanup_caches st t) t). by rewrite Hnil.
Qed.

(** ** The snapshot and what is displayed *)

Lemma omap_lookup_sublist {V} (m : gmap string V) (l : list string) :
  omap (λ s, (λ _, s) <$> m !! s) l `sublist_of` l.
Proof.
  induction l as [|s l IH]; simpl; [done|].
  destruct (m !! s); simpl; by constructor.
Qed.

(** An entry of [get_top5_data] is built from the [volatility_data]
    entry of a listed symbol. *)
Lemma top5_entries_elem st now symbols : ∀ i e,
  e ∈ top5_entries st now i symbols →
  ∃ v, entry_symbol e ∈ symbols ∧
       volatility_data st !! entry_symbol e = Some v ∧
       entry_current_rate e = champion_new_rate (champion_info v) ∧
       entry_rate_change e = rate_change v ∧
       entry_volatility e = combined v ∧
       entry_z_score e = z_score (champion_info v) ∧
       entry_moving_average e = moving_average (champion_info v) ∧
       entry_std_dev e = std_dev (champion_info v) ∧
       entry_timestamp e = timestamp v ∧
       entry_color_class e
       = (if Float.gtb (rate_change v) 0 then "text-red-400"
          else if PrimFloat.ltb (rate_change v) 0 then "text-green-400"
          else "text-gray-400").
Proof.
  induction symbols as [|s symbols IH]; intros i e He; simpl in He.
  - by apply elem_of_nil in He.
  - destruct (volatility_data st !! s) as [v|] eqn:Hv.
    + apply elem_of_cons in He as [->|He].
      * exists v. simpl. repeat split; try done. by left.
      * destruct (IH _ _ He) as (v' & Hin & Hrest). exists v'.
        split; [by right|exact Hrest].
    + destruct (IH _ _ He) as (v' & Hin & Hrest). exists v'.
      split; [by right|exact Hrest].
Qed.

Section Snapshots.

Variable float_of_str : string → option float.
Variable np_argsort : list float → list nat.
Hypothesis np_argsort_spec : argsort_spec np_argsort.

(** X10. In every core a process can reach, the ranking snapshot lists
    at most [TOP_RANKING_COUNT] symbols, no symbol twice, and only
    symbols that passed the symbol filter; [get_top5_data] returns one
    entry for each listed symbol that has volatility data, in the order of
    the snapshot: at most five entries, no symbol twice. *)
Theorem snapshot_bounded_distinct (cs : list CoreCall) (now : nat → float) :
  let st := run_calls float_of_str np_argsort init cs in
  length (top5_symbols st) ≤ Config.TOP_RANKING_COUNT ∧
  NoDup (top5_symbols st) ∧
  Forall (λ s, _should_process_symbol s = true) (top5_symbols st) ∧
  entry_symbol <$> get_top5_data st now
  = omap (λ s, (λ _, s) <$> volatility_data st !! s) (top5_symbols st) ∧
  length (get_top5_data st now) ≤ Config.TOP_RANKING_COUNT ∧
  NoDup (entry_symbol <$> get_top5_data st now).
Proof.
  intros st.
  assert (top5_bounded st) as Hb.
  { apply top5_bounded_run_calls. unfold top5_bounded. simpl. lia. }
  assert (top5_distinct st) as [_ Hd].
  { apply (top5_distinct_run_calls float_of_str np_argsort np_argsort_spec).
    split; simpl; apply NoDup_nil_2. }
  pose proof (top5_entries_symbols st now (top5_symbols st) 0) as Hsym.
  fold (get_top5_data st now) in Hsym.
  pose proof (omap_lookup_sublist (volatility_data st) (top5_symbols st)) as Hsub.
  rewrite <- Hsym in Hsub.
  assert (top5_filtered st) as [_ Hf].
  { apply (top5_filtered_run_calls float_of_str np_argsort np_argsort_spec).
    split; [apply symbols_ok_init|constructor]. }
  split; [exact Hb|]. split; [exact Hd|]. split; [exact Hf|].
  split; [exact Hsym|]. split.
  - apply sublist_length in Hsub. rewrite length_fmap in Hsub.
    unfold top5_bounded in Hb. lia.
  - by eapply sublist_NoDup.
Qed.

(** X11. Once the snapshot lists a symbol it is never empty again,
    whatever is called next: a recomputation that finds no positive
    score keeps the old list, and nothing else writes [top5_symbols]. *)
Theorem snapshot_never_emptied (st : BusinessCore) (cs : list CoreCall) :
  0 < length (top5_symbols st) →
  0 < length (top5_symbols (run_calls float_of_str np_argsort st cs)).
Proof.
  intros Hst.
  exact (top5_listed_run_calls float_of_str np_argsort np_argsort_spec cs st Hst).
Qed.

End Snapshots.

Section Displayed.

Variable float_of_str : string → option float.
Variable np_argsort : list float → list nat.

(** X12. In every core a process can reach, an entry of
    [get_top5_data] is consistent: its symbol is listed in the snapshot,
    its [volatility] is the absolute value of its [z_score], its
    [z_score] is [(current_rate - moving_average) / std_dev] of the
    values it shows, and its colour class is red exactly when its rate
    change is positive, green exactly when it is negative. *)
Theorem displayed_entry_consistent (cs : list CoreCall) (now : nat → float)
    (e : Top5Entry) :
  e ∈ get_top5_data (run_calls float_of_str np_argsort init cs) now →
  entry_symbol e ∈ top5_symbols (run_calls float_of_str np_argsort init cs) ∧
  entry_volatility e = PrimFloat.abs (entry_z_score e) ∧
  entry_z_score e
  = ((entry_current_rate e - entry_moving_average e) / entry_std_dev e)%float ∧
  Float.isna (entry_std_dev e) = false ∧
  PrimFloat.ltb (entry_std_dev e) 1e-10 = false ∧
  (entry_color_class e = "text-red-400" ↔ Float.gtb (entry_rate_change e) 0 = true) ∧
  (entry_color_class e = "text-green-400" ↔ PrimFloat.ltb (entry_rate_change e) 0 = true).
Proof.
  intros He. set (st := run_calls float_of_str np_argsort init cs) in *.
  apply top5_entries_elem in He
    as (v & Hin & Hv & E1 & E2 & E3 & E4 & E5 & E6 & _ & E7).
  destruct (champions_ok_run_calls float_of_str np_argsort cs init champions_ok_init)
    as [Hrec Hvol].
  fold st in Hrec, Hvol.
  destruct (Hvol _ v Hv) as (Hc & Hentry & _).
  destruct (Hrec _ _ Hc) as (R1 & R2 & R3 & R4).
  assert (combined v = max_volatility (champion_info v)) as Hcomb
    by (rewrite Hentry at 1; done).
  rewrite E1, E2, E3, E4, E5, E6, E7, Hcomb.
  split; [done|]. split; [done|]. split; [done|]. split; [done|]. split; [done|].
  destruct (Float.gtb (rate_change v) 0) eqn:Hgt.
  - split; [done|]. split; [done|].
    intros Hlt. unfold Float.gtb in Hgt.
    by rewrite (ltb_asym _ _ Hgt) in Hlt.
  - destruct (PrimFloat.ltb (rate_change v) 0); split; done.
Qed.

End Displayed.

(** ** The statistics *)

Lemma size_keys {V} (m : gmap string V) (l : list string) :
  NoDup l → (∀ s, s ∈ l ↔ is_Some (m !! s)) → size m = length l.
Proof.
  intros Hnd Hl. rewrite <- (size_dom (D := gset string)).
  rewrite <- (size_list_to_set (C := gset string) l) by done.
  f_equal. apply set_eq. intros s.
  by rewrite elem_of_dom, elem_of_list_to_set, Hl.
Qed.

Lemma size_same_keys {V W} (m1 : gmap string V) (m2 : gmap string W) :
  (∀ s, is_Some (m1 !! s) ↔ is_Some (m2 !! s)) → size m1 = size m2.
Proof.
  intros H. rewrite <- !(size_dom (D := gset string)). f_equal.
  apply set_eq. intros s. by rewrite !elem_of_dom.
Qed.

Lemma size_sub_keys {V W} (m1 : gmap string V) (m2 : gmap string W) :
  (∀ s, is_Some (m1 !! s) → is_Some (m2 !! s)) → size m1 ≤ size m2.
Proof.
  intros H. rewrite <- !(size_dom (D := gset string)). apply subseteq_size.
  intros s. rewrite !elem_of_dom. apply H.
Qed.

Lemma sum_list_bounds {A} (f : A → nat) (lo hi : nat) (l : list A) :
  Forall (λ x, lo ≤ f x ≤ hi) l →
  lo * length l ≤ sum_list (f <$> l) ≤ hi * length l.
Proof.
  induction 1 as [|x l Hx _ IH]; csimpl; [lia|].
  rewrite !Nat.mul_succ_r. lia.
Qed.

Lemma sum_lengths_bounds {V} (m : gmap string (list V)) (lo hi : nat) :
  (∀ s h, m !! s = Some h → lo ≤ length h ≤ hi) →
  lo * size m ≤ sum_list ((λ kv, length kv.2) <$> map_to_list m) ≤ hi * size m.
Proof.
  intros H. rewrite <- (length_map_to_list m). apply sum_list_bounds.
  apply Forall_forall. intros [s h] Hin. apply elem_of_map_to_list in Hin.
  by apply (H s).
Qed.

Section Statistics.

Variable float_of_str : string → option float.
Variable np_argsort : list float → list nat.

(** X13. In every core a process can reach the counts of
    [get_statistics] agree: the number of series and of active symbols is
    the number of current rates, the number of volatility entries is the
    number of champion records and not above the number of symbols, the
    snapshot counts at most five, and the retained points number at least
    one and at most 512 (the configured window) per symbol; [has_data]
    says that some symbol is tracked. *)
Theorem statistics_consistent (cs : list CoreCall) :
  let s := get_statistics (run_calls float_of_str np_argsort init cs) in
  stat_pandas_series_count s = stat_total_symbols s ∧
  stat_active_symbols s = stat_total_symbols s ∧
  stat_volatility_data_count s = stat_champion_records_count s ∧
  stat_champion_records_count s ≤ stat_total_symbols s ∧
  stat_top5_count s ≤ 5 ∧
  stat_total_symbols s ≤ stat_history_total_points s ∧
  stat_history_total_points s ≤ 512 * stat_total_symbols s ∧
  (stat_has_data s = true ↔ 0 < stat_total_symbols s).
Proof.
  set (st := run_calls float_of_str np_argsort init cs). cbv zeta.
  destruct (aligned_run_calls float_of_str np_argsort cs init aligned_init)
    as (Hnd & Hcr & Hseen & Hvol & Hch).
  destruct (windowed_run_calls float_of_str np_argsort cs init windowed_init)
    as [Hw Hok].
  destruct (last_is_current_run_calls float_of_str np_argsort cs init
              last_is_current_init) as [_ Hlast].
  pose proof (top5_bounded_run_calls float_of_str np_argsort cs init) as Htop.
  fold st in Hnd, Hcr, Hseen, Hvol, Hch, Hw, Hok, Hlast, Htop.
  assert (window_size st = 512%Z) as Hsize
    by apply window_size_run_calls.
  assert (size (rate_history st) = length (current_rates st)) as Hrh.
  { rewrite <- (length_fmap fst (current_rates st)).
    apply size_keys; [exact Hnd|]. intros s.
    change (fst <$> current_rates st) with (PyDict.keys (current_rates st)).
    rewrite elem_of_keys. apply Hcr. }
  unfold get_statistics. cbn [stat_pandas_series_count stat_total_symbols
    stat_active_symbols stat_volatility_data_count stat_champion_records_count
    stat_top5_count stat_history_total_points stat_has_data].
  split; [exact Hrh|].
  split; [by rewrite (size_same_keys _ _ Hseen)|].
  split; [by apply size_same_keys|].
  split; [rewrite <- Hrh; by apply size_sub_keys|].
  split; [apply Htop; unfold top5_bounded; simpl; lia|].
  destruct (sum_lengths_bounds (rate_history st) 1 512) as [Hlo Hhi].
  { intros s h Hh. split.
    - destruct (Hlast s h Hh) as (x & Hx & _).
      destruct h; [done|simpl; lia].
    - specialize (Hok s h Hh). lia. }
  rewrite Hrh in Hlo, Hhi.
  split; [lia|]. split; [lia|].
  apply Nat.ltb_lt.
Qed.

End Statistics.

(** ** The analysis of one symbol *)

Lemma is_Some_if_leb {A} (n m : nat) (x : A) :
  is_Some (if n <=? m then Some x else None) ↔ n ≤ m.
Proof.
  destruct (Nat.leb_spec n m) as [Hle|Hlt].
  - split; [done|]. intros _. by eexists.
  - split; [by intros [? ?]|lia].
Qed.

Section AnalysisOfReached.

Variable float_of_str : string → option float.
Variable np_argsort : list float → list nat.
Variable series_min series_max series_median : Pandas.Series → float.

(** X14. In every core a process can reach, [get_symbol_analysis]
    returns [None] exactly for a symbol with no series or a series of one
    point. Otherwise the [current_rate] it reports is the last point of
    the series (never the default 0.0), [data_points] is between 2 and
    512, [last_update] is the symbol's last-seen time (never the default
    0), and the mean of the last 5 (10) points is reported exactly when
    there are at least 5 (10) points. *)
Theorem symbol_analysis_of_reached (cs : list CoreCall) (symbol : string) :
  let st := run_calls float_of_str np_argsort init cs in
  let analysis := get_symbol_analysis series_min series_max series_median st symbol in
  (analysis = None ↔
   ∀ h, rate_history st !! symbol = Some h → length h < 2) ∧
  (∀ a, analysis = Some a →
     ∃ h, rate_history st !! symbol = Some h ∧
          analysis_data_points a = length h ∧
          2 ≤ analysis_data_points a ≤ 512 ∧
          Pandas.iloc_last h = Some (analysis_current_rate a) ∧
          symbol_last_seen st !! symbol = Some (analysis_last_update a) ∧
          (is_Some (analysis_last_5_mean a) ↔ 5 ≤ analysis_data_points a) ∧
          (is_Some (analysis_last_10_mean a) ↔ 10 ≤ analysis_data_points a)).
Proof.
  set (st := run_calls float_of_str np_argsort init cs). cbv zeta.
  destruct (aligned_run_calls float_of_str np_argsort cs init aligned_init)
    as (_ & _ & Hseen & _).
  destruct (windowed_run_calls float_of_str np_argsort cs init windowed_init)
    as [Hw Hok].
  destruct (last_is_current_run_calls float_of_str np_argsort cs init
              last_is_current_init) as [_ Hlast].
  assert (window_size st = 512%Z) as Hsize
    by apply window_size_run_calls.
  fold st in Hseen, Hw, Hok, Hlast.
  unfold get_symbol_analysis.
  destruct (rate_history st !! symbol) as [h|] eqn:Hh.
  - destruct (length h <? 2) eqn:Hlen.
    + apply Nat.ltb_lt in Hlen. split; [|done].
      split; [by intros _ h' [= <-]|done].
    + apply Nat.ltb_ge in Hlen. split.
      * split; [done|]. intros H. specialize (H h eq_refl). lia.
      * intros a [= <-]. exists h.
        cbn [analysis_data_points analysis_current_rate analysis_last_update
             analysis_last_5_mean analysis_last_10_mean].
        destruct (Hlast symbol h Hh) as (x & Hx & Hcr).
        destruct (proj2 (Hseen symbol)) as [seen Hs]; [by rewrite Hh|].
        specialize (Hok symbol h Hh). rewrite Hcr, Hs.
        split; [done|]. split; [done|]. split; [lia|]. split; [done|].
        split; [done|].
        split; [apply (is_Some_if_leb 5 (length h))
               |apply (is_Some_if_leb 10 (length h))].
  - split; [|done]. split; [by intros _ h' ?|done].
Qed.

End AnalysisOfReached.

(** ** A window size of zero *)

Section ZeroWindow.

Variable float_of_str : string → option float.

(** X15. With a window size of 0 the series is never cut: the test
    [len > 0] holds for every series and the slice [iloc[-0:]] is the
    whole series, so each accepted observation of a symbol makes its
    series one row longer, without bound. *)
Theorem zero_window_keeps_every_row (st : BusinessCore) (clk : Clock)
    (item : json) (symbol : string) (rate : float) :
  window_size st = 0%Z →
  reading float_of_str item = Some (symbol, rate) →
  let st' := (_process_single_item float_of_str st clk item).1 in
  rate_history st' !! symbol
  = Some (default [] (rate_history st !! symbol) ++ [(pd_now clk, rate)]) ∧
  window_size st' = 0%Z.
Proof.
  intros Hw Hr st'. subst st'. rewrite (process_accepted _ _ _ _ _ _ Hr). cbn [fst].
  pose proof (record_observation_shape st clk symbol rate)
    as (_ & Erh & _ & _ & Ew & _).
  cbv zeta in *. rewrite Erh, Ew, lookup_insert_eq. split; [|done]. f_equal.
  unfold next_series, Pandas.concat1. rewrite Hw.
  assert (∀ series : Pandas.Series, Pandas.iloc_from (- 0) series = series) as Hall.
  { intros series. unfold Pandas.iloc_from. change (- 0 <? 0)%Z with false.
    cbv iota. by rewrite Z.min_l by lia. }
  rewrite Hall. by destruct (rate_history st !! symbol); case_match.
Qed.

End ZeroWindow.

(** ** The stream client, over any run *)

Module ClientRuns.

Import BinanceWebSocketClient.

(** The events the receive loop and the message handling log. *)
Definition loop_event (e : LogEvent) : Prop :=
  match e with
  | LogProactiveReconnect | LogConnectionClosed | LogMessageLoopError _
  | LogJsonDecodeFailed _ | LogHandlerFailed _ => True
  | _ => False
  end.

(** The ordinals of the connections a log reports, the waits it
    announces and the handler failures it reports, oldest first. *)
Definition connected_ordinals (l : list LogEvent) : list nat :=
  omap (λ e, match e with LogConnected k => Some k | _ => None end) l.

Definition announced_waits (l : list LogEvent) : list nat :=
  omap (λ e, match e with LogConnectFailed _ wait _ => Some wait | _ => None end) l.

Definition handler_failures (l : list LogEvent) : list string :=
  omap (λ e, match e with LogHandlerFailed error => Some error | _ => None end) l.

Lemma loop_events_silent (l : list LogEvent) :
  Forall loop_event l → connected_ordinals l = [] ∧ announced_waits l = [].
Proof.
  induction 1 as [|e l He _ [IH1 IH2]]; [done|].
  destruct e; try done; simpl; by rewrite ?IH1, ?IH2.
Qed.

(** The URLs a log shows the loop trying, oldest first. *)
Definition attempted_urls (l : list LogEvent) : list string :=
  omap (λ e, match e with LogConnecting url => Some url | _ => None end) l.

(** An attempt on which a connection is established, and one on which
    connecting fails. *)
Definition established (a : Attempt) : Prop :=
  match a with ConnectOk _ _ => True | ConnectFailed _ => False end.

Definition failed (a : Attempt) : Prop :=
  match a with ConnectFailed _ => True | ConnectOk _ _ => False end.

#[global] Instance established_dec a : Decision (established a).
Proof. destruct a; simpl; apply _. Defined.

#[global] Instance failed_dec a : Decision (failed a).
Proof. destruct a; simpl; apply _. Defined.

Lemma loop_events_unattempted (l : list LogEvent) :
  Forall loop_event l →
  attempted_urls l = [] ∧ ClientFacts.switched_hosts l = [].
Proof.
  induction 1 as [|e l He _ [IH1 IH2]]; [done|].
  destruct e; try done; simpl; by rewrite ?IH1, ?IH2.
Qed.

(** [_get_reconnect_interval] reads the table, and its last entry past
    the end. *)
Lemma _get_reconnect_interval_table attempt :
  _get_reconnect_interval attempt
  = match attempt with
    | 0 => 1 | 1 => 2 | 2 => 5 | 3 => 10 | 4 => 20 | 5 => 30 | _ => 60
    end.
Proof. do 7 (destruct attempt as [|attempt]; [done|]). done. Qed.

(** X16. The reconnect interval never decreases with the attempt
    number, lies between 1 and 60 seconds, is 1 second for attempt 0 and
    stays at 60 seconds from attempt 6 on: an attempt number past the end
    of the table reads its last entry. *)
Theorem reconnect_interval_backoff (attempt : nat) :
  1 ≤ _get_reconnect_interval attempt ≤ 60 ∧
  _get_reconnect_interval attempt ≤ _get_reconnect_interval (attempt + 1) ∧
  (∀ later, attempt ≤ later →
     _get_reconnect_interval attempt ≤ _get_reconnect_interval later) ∧
  (6 ≤ attempt → _get_reconnect_interval attempt = 60) ∧
  _get_reconnect_interval 0 = 1.
Proof.
  assert (∀ a b, a ≤ b → _get_reconnect_interval a ≤ _get_reconnect_interval b)
    as Hmono.
  { intros a b Hab. rewrite !_get_reconnect_interval_table.
    do 6 (destruct a as [|a];
          [do 6 (destruct b as [|b]; [lia|]); lia|]).
    do 6 (destruct b as [|b]; [lia|]). lia. }
  split; [|split; [|split; [|split]]].
  - rewrite _get_reconnect_interval_table.
    do 6 (destruct attempt as [|attempt]; [lia|]). lia.
  - apply Hmono. lia.
  - intros later. apply Hmono.
  - intros H. rewrite _get_reconnect_interval_table.
    do 6 (destruct attempt as [|attempt]; [lia|]). done.
  - done.
Qed.

Section Runs.

Variable json_loads : string → option json.
Variable World : Type.
Variable data_handler : option (json → World → World * option string).

Lemma _process_message_frame c w m :
  let r := _process_message json_loads World data_handler c w m in
  stream_path r.1 = stream_path c ∧ websocket r.1 = websocket c ∧
  is_connected r.1 = is_connected c ∧ is_running r.1 = is_running c ∧
  connection_start_time r.1 = connection_start_time c ∧
  reconnect_count r.1 = reconnect_count c ∧
  current_host_index r.1 = current_host_index c ∧
  message_count r.1 = message_count c + 1 ∧
  ∃ l, log r.1 = log c ++ l ∧ Forall loop_event l.
Proof.
  unfold _process_message, _call_handler_safely. cbv zeta.
  destruct (json_loads m) as [data|].
  - destruct data_handler as [handler|].
    + destruct (handler data w) as [w' [e|]]; simpl; repeat split; try done.
      * exists [LogHandlerFailed e]. split; [done|]. by repeat constructor.
      * exists []. by rewrite app_nil_r.
    + simpl. repeat split; try done. exists []. by rewrite app_nil_r.
  - simpl. repeat split; try done.
    exists [LogJsonDecodeFailed m]. split; [done|]. by repeat constructor.
Qed.

Lemma _message_loop_frame events : ∀ c w,
  let r := _message_loop json_loads World data_handler events c w in
  stream_path r.1.1 = stream_path c ∧
  connection_start_time r.1.1 = connection_start_time c ∧
  reconnect_count r.1.1 = reconnect_count c ∧
  current_host_index r.1.1 = current_host_index c ∧
  message_count c ≤ message_count r.1.1 ≤ message_count c + length events ∧
  (r.2 = Exited → is_connected r.1.1 = false ∧ websocket r.1.1 = None) ∧
  (r.2 = Suspended →
   is_connected r.1.1 = true ∧ is_running r.1.1 = true ∧
   websocket r.1.1 = websocket c) ∧
  ∃ l, log r.1.1 = log c ++ l ∧ Forall loop_event l.
Proof.
  assert (∀ c : t, ∃ l, log c = log c ++ l ∧ Forall loop_event l) as Hnil.
  { intros c. exists []. by rewrite app_nil_r. }
  assert (∀ (c : t) e, loop_event e →
            ∃ l, log (leave_message_loop (logger c e)) = log c ++ l ∧
                 Forall loop_event l) as Hone.
  { intros c e He. exists [e]. split; [done|]. by repeat constructor. }
  assert (∀ (c : t) (w : World) (n : nat),
            let r := (leave_message_loop c, w, Exited) in
            stream_path r.1.1 = stream_path c ∧
            connection_start_time r.1.1 = connection_start_time c ∧
            reconnect_count r.1.1 = reconnect_count c ∧
            current_host_index r.1.1 = current_host_index c ∧
            message_count c ≤ message_count r.1.1 ≤ message_count c + n ∧
            (r.2 = Exited → is_connected r.1.1 = false ∧ websocket r.1.1 = None) ∧
            (r.2 = Suspended →
             is_connected r.1.1 = true ∧ is_running r.1.1 = true ∧
             websocket r.1.1 = websocket c) ∧
            ∃ l, log r.1.1 = log c ++ l ∧ Forall loop_event l) as Hleave.
  { intros c w n. simpl. split_and!; try done; try lia; apply Hnil. }
  induction events as [|ev events IH]; intros c w; cbn zeta;
    cbn [_message_loop]; destruct (is_connected c && is_running c) eqn:Hcr.
  - apply andb_true_iff in Hcr as [H1 H2]. simpl.
    split_and!; try done; try lia; apply Hnil.
  - apply Hleave.
  - destruct ev as [now r|].
    + destruct (_should_reconnect c now).
      { simpl. split_and!; try done; try lia; by apply Hone. }
      destruct r as [m| | |e].
      * pose proof (_process_message_frame c w m)
          as (F1 & F2 & F3 & F4 & F5 & F6 & F7 & F8 & l1 & F9 & F10).
        destruct (_process_message json_loads World data_handler c w m) as [c1 w1].
        cbn [fst snd] in *.
        pose proof (IH c1 w1) as (G1 & G2 & G3 & G4 & G5 & G6 & G7 & l2 & G8 & G9).
        cbv zeta in *. rewrite G1, G2, G3, G4, F1, F5, F6, F7.
        split; [done|]. split; [done|]. split; [done|]. split; [done|].
        split; [simpl; lia|]. split; [done|].
        split; [intros Hs; destruct (G7 Hs) as (? & ? & ?); by rewrite <- F2|].
        exists (l1 ++ l2). rewrite G8, F9, app_assoc. split; [done|].
        by apply Forall_app.
      * pose proof (IH c w) as (G1 & G2 & G3 & G4 & G5 & G6 & G7 & G8).
        cbv zeta in *. split_and!; try done; simpl; lia.
      * simpl. split_and!; try done; try lia; by apply Hone.
      * simpl. split_and!; try done; try lia; by apply Hone.
    + pose proof (IH (set_is_running c false) w)
        as (G1 & G2 & G3 & G4 & G5 & G6 & G7 & G8).
      cbv zeta in *. simpl in *. split_and!; try done; try lia; intros Hs; by apply G7.
  - apply Hleave.
Qed.

Lemma failed_step_frame c e attempt :
  let c2 := _switch_to_next_host (_handle_connection_error c e attempt) in
  stream_path c2 = stream_path c ∧
  current_host_index c2 = (current_host_index c + 1) `mod` length BACKUP_HOSTS ∧
  message_count c2 = message_count c ∧
  reconnect_count c2 = reconnect_count c ∧
  is_running c2 = is_running c ∧
  connected_ordinals (log c2) = connected_ordinals (log c) ∧
  announced_waits (log c2)
  = announced_waits (log c)
    ++ (if is_running c then [_get_reconnect_interval attempt] else []).
Proof.
  unfold _switch_to_next_host, _handle_connection_error, connected_ordinals,
    announced_waits. cbv zeta.
  destruct (is_running c) eqn:Hr; simpl; rewrite Hr; simpl;
    rewrite ?omap_app; simpl; rewrite ?app_nil_r; done.
Qed.

Lemma _connection_loop_frame attempts : ∀ attempt c w,
  current_host_index c < length BACKUP_HOSTS →
  let r := _connection_loop json_loads World data_handler attempts attempt c w in
  stream_path r.1.1 = stream_path c ∧
  current_host_index r.1.1 < length BACKUP_HOSTS ∧
  message_count c ≤ message_count r.1.1 ∧
  ∃ n, n ≤ length attempts ∧
       reconnect_count r.1.1 = reconnect_count c + n ∧
       connected_ordinals (log r.1.1)
       = connected_ordinals (log c) ++ seq (reconnect_count c + 1) n.
Proof.
  induction attempts as [|a attempts IH]; intros attempt c w Hlt; cbn zeta;
    cbn [_connection_loop]; destruct (is_running c) eqn:Hrun.
  - split_and!; try done. exists 0. by rewrite Nat.add_0_r, app_nil_r.
  - simpl. split_and!; try done. exists 0.
    unfold connected_ordinals. rewrite omap_app, Nat.add_0_r. done.
  - destruct (lookup_lt_is_Some_2 BACKUP_HOSTS _ Hlt) as [host Hhost].
    unfold _get_current_url. rewrite Hhost. cbn [mbind option_bind].
    set (url := "wss://" +:+ host +:+ stream_path c).
    set (c0 := logger c (LogConnecting url)).
    assert (connected_ordinals (log c0) = connected_ordinals (log c)) as Hc0.
    { unfold connected_ordinals, c0. simpl. by rewrite omap_app, app_nil_r. }
    destruct a as [e|now events].
    + pose proof (failed_step_frame c0 e attempt)
        as (F1 & F2 & F3 & F4 & F5 & F6 & _).
      cbv zeta in F1, F2, F3, F4, F5, F6.
      set (c2 := _switch_to_next_host (_handle_connection_error c0 e attempt)) in *.
      destruct (IH (attempt + 1) c2 w) as (G1 & G2 & G3 & n & Gn & G4 & G5).
      { rewrite F2. by apply Nat.mod_upper_bound. }
      cbv zeta in *. rewrite G1, F1. split_and!; try done.
      * rewrite F3 in G3. exact G3.
      * exists n. rewrite G4, G5, F4, F6, Hc0. split; [simpl; lia|done].
    + set (c1 := set_connected c0 url now).
      set (c2 := logger c1 (LogConnected (reconnect_count c1))).
      pose proof (_message_loop_frame events c2 w)
        as (M1 & M2 & M3 & M4 & M5 & _ & _ & l & M6 & M7).
      destruct (_message_loop json_loads World data_handler events c2 w)
        as [[c3 w3] status].
      cbn [fst snd] in *.
      assert (connected_ordinals (log c3)
              = connected_ordinals (log c) ++ [reconnect_count c + 1]) as Hc3.
      { rewrite M6. unfold connected_ordinals. rewrite omap_app.
        destruct (loop_events_silent l M7) as [Hl _].
        unfold connected_ordinals in Hl. rewrite Hl, app_nil_r.
        unfold c2. simpl. rewrite !omap_app. simpl.
        by rewrite app_nil_r. }
      assert (reconnect_count c3 = reconnect_count c + 1) as Hrc by (by rewrite M3).
      destruct status.
      * destruct (IH 0 c3 w3) as (G1 & G2 & G3 & n & Gn & G4 & G5);
          [by rewrite M4|].
        cbv zeta in *. rewrite G1, M1. split_and!; try done.
        -- simpl in M5. lia.
        -- exists (S n). rewrite G4, G5, Hc3, Hrc, <- app_assoc. simpl.
           split; [lia|]. split; [lia|].
           by replace (reconnect_count c + 1 + 1) with (S (reconnect_count c + 1))
             by lia.
      * cbn [fst snd]. rewrite M1, M4. split_and!; try done.
        -- simpl in M5. lia.
        -- exists 1. rewrite Hc3, Hrc. simpl. split; [lia|done].
  - simpl. split_and!; try done. exists 0.
    unfold connected_ordinals. rewrite omap_app, Nat.add_0_r. simpl.
    split; [lia|done].
Qed.

Lemma failed_step_log c e attempt :
  current_host_index c < length BACKUP_HOSTS →
  let c2 := _switch_to_next_host (_handle_connection_error c e attempt) in
  is_connected c2 = false ∧
  attempted_urls (log c2) = attempted_urls (log c) ∧
  ∃ host, BACKUP_HOSTS !! current_host_index c2 = Some host ∧
          ClientFacts.switched_hosts (log c2)
          = ClientFacts.switched_hosts (log c) ++ [host].
Proof.
  intros Hlt. cbv zeta.
  assert ((current_host_index c + 1) `mod` length BACKUP_HOSTS < length BACKUP_HOSTS)
    as Hnext by (by apply Nat.mod_upper_bound).
  destruct (lookup_lt_is_Some_2 BACKUP_HOSTS _ Hnext) as [host Hhost].
  unfold _switch_to_next_host, _handle_connection_error, attempted_urls,
    ClientFacts.switched_hosts. cbv zeta.
  destruct (is_running c) eqn:Hr; simpl; rewrite Hr; simpl;
    rewrite ?omap_app; simpl; simpl in Hhost; rewrite Hhost; simpl;
    rewrite ?app_nil_r; (split; [done|]); (split; [done|]); by exists host.
Qed.

(** A run of [_connection_loop] makes the first [k] of the attempts the
    network grants, and logs the URL of each. The connection counter
    rises by the number of connections established among them, the host
    cursor moves by the number of failed attempts among them. A run that
    ends between two attempts made them all. *)
Lemma _connection_loop_attempts attempts : ∀ attempt c w,
  current_host_index c < length BACKUP_HOSTS →
  let r := _connection_loop json_loads World data_handler attempts attempt c w in
  ∃ k, k ≤ length attempts ∧
       length (attempted_urls (log r.1.1)) = length (attempted_urls (log c)) + k ∧
       reconnect_count r.1.1
       = reconnect_count c + length (filter established (take k attempts)) ∧
       connected_ordinals (log r.1.1)
       = connected_ordinals (log c)
         ++ seq (reconnect_count c + 1) (length (filter established (take k attempts))) ∧
       current_host_index r.1.1
       = (current_host_index c + length (filter failed (take k attempts)))
           `mod` length BACKUP_HOSTS ∧
       length (ClientFacts.switched_hosts (log r.1.1))
       = length (ClientFacts.switched_hosts (log c))
         + length (filter failed (take k attempts)) ∧
       (r.2 = Suspended → is_connected r.1.1 = false → k = length attempts).
Proof.
  induction attempts as [|a attempts IH]; intros attempt c w Hlt; cbn zeta;
    cbn [_connection_loop]; destruct (is_running c) eqn:Hrun.
  - exists 0. rewrite take_0, !filter_nil. cbn [length seq fst snd].
    rewrite !Nat.add_0_r, app_nil_r, (Nat.mod_small _ _ Hlt). done.
  - exists 0. rewrite take_0, !filter_nil. cbn [length seq fst snd].
    rewrite !Nat.add_0_r, app_nil_r, (Nat.mod_small _ _ Hlt).
    unfold attempted_urls, connected_ordinals, ClientFacts.switched_hosts.
    cbn [log logger]. rewrite !omap_app. cbn [omap list_omap].
    by rewrite !app_nil_r.
  - destruct (lookup_lt_is_Some_2 BACKUP_HOSTS _ Hlt) as [host Hhost].
    unfold _get_current_url. rewrite Hhost. cbn [mbind option_bind].
    set (url := "wss://" +:+ host +:+ stream_path c).
    set (c0 := logger c (LogConnecting url)).
    assert (connected_ordinals (log c0) = connected_ordinals (log c)) as Hord0.
    { unfold connected_ordinals, c0. simpl. by rewrite omap_app, app_nil_r. }
    assert (attempted_urls (log c0) = attempted_urls (log c) ++ [url]) as Hurl0.
    { unfold attempted_urls, c0. simpl. by rewrite omap_app. }
    assert (ClientFacts.switched_hosts (log c0) = ClientFacts.switched_hosts (log c))
      as Hsw0.
    { unfold ClientFacts.switched_hosts, c0. simpl. by rewrite omap_app, app_nil_r. }
    destruct a as [e|now events].
    + pose proof (failed_step_frame c0 e attempt)
        as (_ & F2 & _ & F4 & _ & F6 & _).
      pose proof (failed_step_log c0 e attempt Hlt) as (L1 & L2 & h & _ & L3).
      cbv zeta in F2, F4, F6, L1, L2, L3.
      set (c2 := _switch_to_next_host (_handle_connection_error c0 e attempt)) in *.
      destruct (IH (attempt + 1) c2 w) as (k & Hk & G1 & G2 & G3 & G4 & G5 & G6).
      { rewrite F2. by apply Nat.mod_upper_bound. }
      cbv zeta in *. exists (S k).
      cbn [take length]. rewrite !filter_cons_False, filter_cons_True by (simpl; tauto).
      rewrite G1, G2, G3, G4, G5, F2, F4, F6, L2, L3, Hord0, Hurl0, Hsw0.
      rewrite !length_app. cbn [length].
      change (current_host_index c0) with (current_host_index c).
      rewrite Nat.Div0.add_mod_idemp_l.
      split_and!; try done; try lia.
      * f_equal. lia.
      * intros Hs Hc. f_equal. by apply G6.
    + set (c1 := set_connected c0 url now).
      set (c2 := logger c1 (LogConnected (reconnect_count c1))).
      pose proof (_message_loop_frame events c2 w)
        as (_ & _ & M3 & M4 & _ & M5 & M6 & l & M7 & M8).
      destruct (_message_loop json_loads World data_handler events c2 w)
        as [[c3 w3] status].
      cbn [fst snd] in *.
      destruct (loop_events_silent l M8) as [Hl1 _].
      destruct (loop_events_unattempted l M8) as [Hl2 Hl3].
      assert (connected_ordinals (log c3)
              = connected_ordinals (log c) ++ [reconnect_count c + 1]) as Hord3.
      { rewrite M7. unfold connected_ordinals in *. rewrite omap_app, Hl1, app_nil_r.
        unfold c2. simpl. rewrite !omap_app. simpl. by rewrite app_nil_r. }
      assert (attempted_urls (log c3) = attempted_urls (log c) ++ [url]) as Hurl3.
      { rewrite M7. unfold attempted_urls in *. rewrite omap_app, Hl2, app_nil_r.
        unfold c2. simpl. rewrite !omap_app. simpl. by rewrite app_nil_r. }
      assert (ClientFacts.switched_hosts (log c3) = ClientFacts.switched_hosts (log c))
        as Hsw3.
      { rewrite M7. unfold ClientFacts.switched_hosts in *.
        rewrite omap_app, Hl3, app_nil_r.
        unfold c2. simpl. rewrite !omap_app. simpl. by rewrite !app_nil_r. }
      assert (reconnect_count c3 = reconnect_count c + 1) as Hrc by (by rewrite M3).
      assert (current_host_index c3 = current_host_index c) as Hidx by (by rewrite M4).
      destruct status.
      * destruct (IH 0 c3 w3) as (k & Hk & G1 & G2 & G3 & G4 & G5 & G6);
          [by rewrite Hidx|].
        cbv zeta in *. exists (S k).
        cbn [take length]. rewrite !filter_cons_True, filter_cons_False by (simpl; tauto).
        rewrite G1, G2, G3, G4, G5, Hord3, Hurl3, Hsw3, Hrc, Hidx.
        rewrite !length_app, <- app_assoc. cbn [length].
        split_and!; try done; try lia.
        -- f_equal. cbn [seq app]. do 2 f_equal. lia.
        -- intros Hs Hc. f_equal. by apply G6.
      * exists 1. cbn [fst snd take length].
        rewrite !filter_cons_True, filter_cons_False by (simpl; tauto).
        rewrite take_0, !filter_nil. cbn [length].
        rewrite Hord3, Hurl3, Hsw3, Hrc, Hidx, length_app, Nat.add_0_r.
        rewrite Nat.mod_small by done.
        split_and!; try done; try (simpl; lia).
        intros _ Hc. destruct (M6 eq_refl) as (Hc3 & _). congruence.
  - exists 0. rewrite take_0, !filter_nil. cbn [length seq fst snd].
    rewrite !Nat.add_0_r, app_nil_r, (Nat.mod_small _ _ Hlt).
    unfold attempted_urls, connected_ordinals, ClientFacts.switched_hosts.
    cbn [log logger]. rewrite !omap_app. cbn [omap list_omap].
    rewrite !app_nil_r. split_and!; try done. lia.
Qed.

(** C9, as the code has it. A failed connection attempt (an exception
    that reaches the [except] of [_connection_loop]: [websockets.connect]
    raised) moves the host cursor one position forward, wrapping at the
    end of the host list; with the three hosts [A; B; C] and the cursor
    on [A], three failed attempts in a row select [B], [C] and [A] in
    that order. A connection that was established and then lost, closed
    by the peer, broken by any other exception of the receive loop or
    left for the 24-hour reconnect, ends inside [_message_loop], which
    never moves the cursor and switches no host. Over any run, of the
    [k] attempts the loop makes (it logs the URL of each), the cursor
    moves by the number of failed attempts, and as many hosts are
    switched to. *)
Theorem host_rotation :
  (∀ c, current_host_index (_switch_to_next_host c)
        = (current_host_index c + 1) `mod` length BACKUP_HOSTS) ∧
  (∀ errors attempt c w,
     is_running c = true →
     current_host_index c < length BACKUP_HOSTS →
     let r := _connection_loop json_loads World data_handler
                (ConnectFailed <$> errors) attempt c w in
     r.2 = Suspended ∧
     current_host_index r.1.1
     = (current_host_index c + length errors) `mod` length BACKUP_HOSTS) ∧
  (∀ path e1 e2 e3 w,
     let c := set_is_running (init path) true in
     let r := _connection_loop json_loads World data_handler
                [ConnectFailed e1; ConnectFailed e2; ConnectFailed e3] 0 c w in
     BACKUP_HOSTS !! current_host_index c = BACKUP_HOSTS !! 0 ∧
     Some <$> ClientFacts.switched_hosts (log r.1.1)
     = [BACKUP_HOSTS !! 1; BACKUP_HOSTS !! 2; BACKUP_HOSTS !! 0]) ∧
  (∀ events c w,
     let r := _message_loop json_loads World data_handler events c w in
     current_host_index r.1.1 = current_host_index c ∧
     ClientFacts.switched_hosts (log r.1.1) = ClientFacts.switched_hosts (log c)) ∧
  (∀ attempts attempt c w,
     current_host_index c < length BACKUP_HOSTS →
     let r := _connection_loop json_loads World data_handler attempts attempt c w in
     ∃ k, k ≤ length attempts ∧
          length (attempted_urls (log r.1.1)) = length (attempted_urls (log c)) + k ∧
          (r.2 = Suspended → is_connected r.1.1 = false → k = length attempts) ∧
          current_host_index r.1.1
          = (current_host_index c + length (filter failed (take k attempts)))
              `mod` length BACKUP_HOSTS ∧
          length (ClientFacts.switched_hosts (log r.1.1))
          = length (ClientFacts.switched_hosts (log c))
            + length (filter failed (take k attempts))).
Proof.
  split; [apply ClientFacts._switch_to_next_host_index|].
  split; [|split; [|split]].
  - intros errors attempt c w Hrun Hlt r. subst r.
    by destruct (ClientFacts.failed_attempts json_loads World data_handler
                   errors attempt c w Hrun Hlt) as (c' & -> & _ & H).
  - intros path e1 e2 e3 w. split; reflexivity.
  - intros events c w r. subst r.
    destruct (_message_loop_frame events c w)
      as (_ & _ & _ & Hidx & _ & _ & _ & l & Hlog & Hl).
    cbv zeta in *. split; [exact Hidx|].
    destruct (loop_events_unattempted l Hl) as [_ Hsw].
    rewrite Hlog. unfold ClientFacts.switched_hosts in *.
    by rewrite omap_app, Hsw, app_nil_r.
  - intros attempts attempt c w Hlt r. subst r.
    destruct (_connection_loop_attempts attempts attempt c w Hlt)
      as (k & Hk & Hurls & _ & _ & Hidx & Hsw & Hall).
    exists k. by split_and!.
Qed.

(** X17. The host cursor never leaves the host list: after any run of
    [_connection_loop], from a cursor inside the list, the cursor is
    inside the list, so [_get_current_url] and [get_status] never raise
    [IndexError]; the URL is always [wss://] + a listed host + the stream
    path the client was created with. *)
Theorem host_cursor_stays_in_range (attempts : list Attempt) (attempt : nat)
    (c : t) (w : World) (now : float) :
  current_host_index c < length BACKUP_HOSTS →
  let c' := (_connection_loop json_loads World data_handler attempts attempt c w).1.1 in
  current_host_index c' < length BACKUP_HOSTS ∧
  ∃ host status,
    host ∈ BACKUP_HOSTS ∧
    BACKUP_HOSTS !! current_host_index c' = Some host ∧
    _get_current_url c' = Some ("wss://" +:+ host +:+ stream_path c) ∧
    get_status c' now = Some status ∧
    status_current_host status = host ∧
    status_current_url status = "wss://" +:+ host +:+ stream_path c.
Proof.
  intros Hlt c'. subst c'.
  destruct (_connection_loop_frame attempts attempt c w Hlt) as (Hpath & Hidx & _).
  cbv zeta in *.
  set (c' := (_connection_loop json_loads World data_handler attempts attempt c w).1.1)
    in *.
  split; [exact Hidx|].
  destruct (lookup_lt_is_Some_2 BACKUP_HOSTS _ Hidx) as [host Hhost].
  unfold get_status, _get_current_url. rewrite Hhost, Hpath. simpl.
  eexists host, _. split; [by eapply list_elem_of_lookup_2|].
  split; [done|]. split; [done|]. split; [done|]. done.
Qed.

(** X18. The connections of a client are numbered consecutively, and
    only connections count. Of the attempts the network grants, a run of
    [_connection_loop] makes the first [k], as many as the URLs it logs
    trying (all of them when it ends between two attempts); with [n] the
    number of connections established among those [k] attempts,
    [reconnect_count] is greater by [n], so a failed attempt is not
    counted, and the log shows the ordinals [reconnect_count + 1], ...,
    [reconnect_count + n] in this order (1, 2, 3, ... on a new client).
    The message counter never decreases. *)
Theorem connections_numbered (attempts : list Attempt) (attempt : nat)
    (c : t) (w : World) :
  current_host_index c < length BACKUP_HOSTS →
  let r := _connection_loop json_loads World data_handler attempts attempt c w in
  let c' := r.1.1 in
  message_count c ≤ message_count c' ∧
  ∃ k, k ≤ length attempts ∧
       length (attempted_urls (log c')) = length (attempted_urls (log c)) + k ∧
       (r.2 = Suspended → is_connected c' = false → k = length attempts) ∧
       let n := length (filter established (take k attempts)) in
       reconnect_count c' = reconnect_count c + n ∧
       connected_ordinals (log c')
       = connected_ordinals (log c) ++ seq (reconnect_count c + 1) n.
Proof.
  intros Hlt r c'. subst c' r.
  destruct (_connection_loop_frame attempts attempt c w Hlt) as (_ & _ & Hm & _).
  destruct (_connection_loop_attempts attempts attempt c w Hlt)
    as (k & Hk & Hurls & Hrc & Hord & _ & _ & Hall).
  split; [exact Hm|]. exists k. by split_and!.
Qed.

(** X19. When [_message_loop] returns, the client is marked
    disconnected and its socket is dropped; while it waits for the next
    frame it is connected and running with the socket it was given. In
    both cases the loop leaves the host cursor, the connection counter,
    the connection start time and the stream path as they were, and
    counts at most one message per pass. *)
Theorem message_loop_exit_state (events : list LoopEvent) (c : t) (w : World) :
  let r := _message_loop json_loads World data_handler events c w in
  (r.2 = Exited → is_connected r.1.1 = false ∧ websocket r.1.1 = None) ∧
  (r.2 = Suspended →
   is_connected r.1.1 = true ∧ is_running r.1.1 = true ∧
   websocket r.1.1 = websocket c) ∧
  current_host_index r.1.1 = current_host_index c ∧
  reconnect_count r.1.1 = reconnect_count c ∧
  connection_start_time r.1.1 = connection_start_time c ∧
  stream_path r.1.1 = stream_path c ∧
  message_count c ≤ message_count r.1.1 ≤ message_count c + length events.
Proof.
  intros r. subst r.
  destruct (_message_loop_frame events c w)
    as (Hpath & Hstart & Hcount & Hhost & Hmsg & Hexit & Hsusp & _).
  cbv zeta in *. split; [exact Hexit|]. split; [exact Hsusp|].
  split_and!; try done; lia.
Qed.

Lemma fmap_seq_S {A} (f : nat → A) (n : nat) :
  f <$> seq 0 (S n) = f 0 :: ((λ k, f (S k)) <$> seq 0 n).
Proof. simpl. f_equal. by rewrite <- fmap_S_seq, <- list_fmap_compose. Qed.

(** X20. After a failed attempt the loop announces one wait and sleeps
    another: the warning it logs for the failure numbered [attempt]
    shows [_get_reconnect_interval attempt], and the loop then sleeps
    [_get_reconnect_interval (attempt + 1)], the next entry of the table.
    After the first failure it announces 1 second and sleeps 2. *)
Theorem slept_wait_is_next_interval (errors : list string) : ∀ (attempt : nat)
    (c : t) (w : World),
  is_running c = true →
  current_host_index c < length BACKUP_HOSTS →
  connection_waits json_loads World data_handler
    (ConnectFailed <$> errors) attempt c w
  = (λ k, _get_reconnect_interval (attempt + 1 + k)) <$> seq 0 (length errors) ∧
  announced_waits
    (log (_connection_loop json_loads World data_handler
            (ConnectFailed <$> errors) attempt c w).1.1)
  = announced_waits (log c)
    ++ ((λ k, _get_reconnect_interval (attempt + k)) <$> seq 0 (length errors)).
Proof.
  induction errors as [|e errors IH]; intros attempt c w Hrun Hlt.
  - simpl. rewrite Hrun. simpl. by rewrite app_nil_r.
  - cbn [fmap list_fmap connection_waits _connection_loop length].
    rewrite Hrun.
    destruct (lookup_lt_is_Some_2 BACKUP_HOSTS _ Hlt) as [host Hhost].
    unfold _get_current_url. rewrite Hhost. cbn [mbind option_bind].
    set (c0 := logger c (LogConnecting ("wss://" +:+ host +:+ stream_path c))).
    assert (announced_waits (log c0) = announced_waits (log c)) as Hc0.
    { unfold announced_waits, c0. simpl. by rewrite omap_app, app_nil_r. }
    pose proof (failed_step_frame c0 e attempt) as (_ & F2 & _ & _ & F5 & _ & F7).
    cbv zeta in F2, F5, F7.
    set (c2 := _switch_to_next_host (_handle_connection_error c0 e attempt)) in *.
    change (is_running c0) with (is_running c) in F5, F7. rewrite Hrun in F5, F7.
    destruct (IH (attempt + 1) c2 w F5) as [Hw Ha].
    { rewrite F2. by apply Nat.mod_upper_bound. }
    fold (fmap (M := list) ConnectFailed errors). rewrite Hw, Ha, F7, Hc0.
    rewrite !fmap_seq_S, !Nat.add_0_r. split.
    + f_equal. apply list_fmap_ext. intros _ k _. f_equal. lia.
    + rewrite <- app_assoc. f_equal. simpl. f_equal.
      apply list_fmap_ext. intros _ k _. f_equal. lia.
Qed.

(** X21. A wait is slept after a failed attempt only, and it is never
    the first entry of the table: every wait of every run is between 2
    and 60 seconds, and a run on which every attempt establishes a
    connection sleeps no wait at all, so a connection that was
    established and then lost is followed at once by the next attempt. *)
Theorem waits_follow_failures_only :
  (∀ attempts attempt c w,
     Forall (λ wait, 2 ≤ wait ≤ 60)
       (connection_waits json_loads World data_handler attempts attempt c w)) ∧
  (∀ attempts attempt c w,
     current_host_index c < length BACKUP_HOSTS →
     Forall established attempts →
     connection_waits json_loads World data_handler attempts attempt c w = []).
Proof.
  split.
  - induction attempts as [|a attempts IH]; intros attempt c w;
      cbn [connection_waits]; destruct (is_running c); try constructor.
    + assert (∀ c0 e,
                Forall (λ wait, 2 ≤ wait ≤ 60)
                  (_get_reconnect_interval (attempt + 1)
                   :: connection_waits json_loads World data_handler attempts
                        (attempt + 1)
                        (_switch_to_next_host
                           (_handle_connection_error c0 e attempt)) w)) as Hfailed.
      { intros c0 e. constructor; [|apply IH].
        rewrite _get_reconnect_interval_table, Nat.add_1_r.
        do 6 (destruct attempt as [|attempt]; [lia|]). lia. }
      destruct (_get_current_url c) as [url|]; [|apply Hfailed].
      destruct a as [e|now events]; [apply Hfailed|].
      destruct (_message_loop _ _ _ _ _ _) as [[c3 w3] []]; [apply IH|constructor].
  - induction attempts as [|a attempts IH]; intros attempt c w Hlt Hall;
      cbn [connection_waits]; destruct (is_running c); try done.
    apply Forall_cons in Hall as [Ha Hall]. destruct a as [e|now events]; [done|].
    destruct (lookup_lt_is_Some_2 BACKUP_HOSTS _ Hlt) as [host Hhost].
    unfold _get_current_url. rewrite Hhost. cbn [mbind option_bind].
    match goal with |- context [_message_loop _ _ _ events ?c2 w] =>
      pose proof (_message_loop_frame events c2 w) as (_ & _ & _ & M4 & _);
      destruct (_message_loop json_loads World data_handler events c2 w)
        as [[c3 w3] status] end.
    cbn [fst snd] in M4. destruct status; [|done].
    apply IH; [by rewrite M4|done].
Qed.

(** The handler run over the payloads in turn: the world it leaves and
    the exceptions it raised, oldest first. *)
Fixpoint run_handler (w : World) (payloads : list json) : World * list string :=
  match payloads with
  | [] => (w, [])
  | data :: payloads' =>
    match data_handler with
    | None => run_handler w payloads'
    | Some handler =>
      let '(w1, raised) := handler data w in
      let '(w2, errors) := run_handler w1 payloads' in
      (w2, match raised with Some e => e :: errors | None => errors end)
    end
  end.

(** X22. An exception of the data handler is logged and goes no
    further: over any frames, the handler is called on each payload that
    decodes, in order and on the world the call before left, whether or
    not an earlier call raised; each exception is logged once, in order;
    the loop stays connected and running and counts every frame. *)
Theorem handler_exception_is_contained (ms : list (float * string)) : ∀ (c : t)
    (w : World),
  is_connected c = true → is_running c = true →
  Forall (λ p, _should_reconnect c p.1 = false) ms →
  let r := _message_loop json_loads World data_handler (ClientFacts.frames ms) c w in
  let h := run_handler w (ClientFacts.decoded json_loads ms) in
  r.2 = Suspended ∧
  is_connected r.1.1 = true ∧ is_running r.1.1 = true ∧
  r.1.2 = h.1 ∧
  handler_failures (log r.1.1) = handler_failures (log c) ++ h.2 ∧
  message_count r.1.1 = message_count c + length ms.
Proof.
  induction ms as [|[now m] ms IH]; intros c w Hc Hr Hall.
  - simpl. rewrite Hc, Hr. simpl. by rewrite Nat.add_0_r, app_nil_r.
  - apply Forall_cons in Hall as [Hnow Hall]. simpl in Hnow.
    cbn [ClientFacts.frames fmap list_fmap _message_loop fst snd].
    rewrite Hc, Hr, Hnow. cbn [andb].
    fold (ClientFacts.frames ms).
    assert (∀ c1 : t,
              is_connected c1 = true → is_running c1 = true →
              connection_start_time c1 = connection_start_time c →
              Forall (λ p, _should_reconnect c1 p.1 = false) ms) as Hall1.
    { intros c1 _ _ Hst. eapply Forall_impl; [exact Hall|]. intros p Hp.
      unfold _should_reconnect in *. by rewrite Hst. }
    unfold ClientFacts.decoded. cbn [omap list_omap snd].
    fold (ClientFacts.decoded json_loads ms).
    unfold _process_message, _call_handler_safely.
    destruct (json_loads m) as [data|]; cbn [run_handler].
    + destruct data_handler as [handler|] eqn:Hh.
      * destruct (handler data w) as [w1 [e|]].
        -- specialize (IH (logger (set_message_count c (message_count c + 1))
                             (LogHandlerFailed e)) w1 Hc Hr
                          (Hall1 _ Hc Hr eq_refl)).
           cbv zeta in IH. cbn [run_handler] in IH.
           destruct (run_handler w1 (ClientFacts.decoded json_loads ms))
             as [w2 errors].
           destruct IH as (I1 & I2 & I3 & I4 & I5 & I6).
           split_and!; try done.
           ++ rewrite I5. unfold handler_failures. simpl.
              by rewrite omap_app, <- app_assoc.
           ++ rewrite I6. simpl. lia.
        -- specialize (IH (set_message_count c (message_count c + 1)) w1 Hc Hr
                          (Hall1 _ Hc Hr eq_refl)).
           cbv zeta in IH. cbn [run_handler] in IH.
           destruct (run_handler w1 (ClientFacts.decoded json_loads ms))
             as [w2 errors].
           destruct IH as (I1 & I2 & I3 & I4 & I5 & I6).
           split_and!; try done. rewrite I6. simpl. lia.
      * specialize (IH (set_message_count c (message_count c + 1)) w Hc Hr
                        (Hall1 _ Hc Hr eq_refl)).
        cbv zeta in IH. cbn [run_handler] in IH.
        destruct IH as (I1 & I2 & I3 & I4 & I5 & I6).
        split_and!; try done. rewrite I6. simpl. lia.
    + specialize (IH (logger (set_message_count c (message_count c + 1))
                        (LogJsonDecodeFailed m)) w Hc Hr (Hall1 _ Hc Hr eq_refl)).
      cbv zeta in IH. destruct IH as (I1 & I2 & I3 & I4 & I5 & I6).
      split_and!; try done.
      * rewrite I5. unfold handler_failures. simpl.
        by rewrite omap_app, app_nil_r.
      * rewrite I6. simpl. lia.
Qed.

End Runs.

End ClientRuns.

(** ** The port search *)

Module PortSearch.

Import PortManager.

Section Search.

Variable has_logger : bool.
Variable bind : string → Z → BindResult.
Variable host : string.

(** The test socket binds to the port. *)
Definition available (port : Z) : bool :=
  (is_port_available has_logger bind host port).1.

(** A port the search passes over: reserved, or not available. *)
Definition passed_over (port : Z) : Prop :=
  _is_reserved_port port = true ∨ available port = false.

Lemma available_Bound port : available port = true ↔ bind host port = Bound.
Proof.
  unfold available, is_port_available. by destruct (bind host port).
Qed.

Lemma search_up_range (k : nat) : ∀ (p m : Z),
  match (search_up has_logger bind host p (seqZ m (Z.of_nat k))).1 with
  | Some q =>
    ∃ o, (m ≤ o < m + Z.of_nat k)%Z ∧ q = (p + o)%Z ∧
         _is_reserved_port q = false ∧ available q = true ∧
         ∀ o', (m ≤ o' < o)%Z → passed_over (p + o')
  | None => ∀ o, (m ≤ o < m + Z.of_nat k)%Z → passed_over (p + o)
  end.
Proof.
  induction k as [|k IH]; intros p m.
  - rewrite seqZ_nil by lia. simpl. intros o Ho. lia.
  - rewrite seqZ_cons by lia.
    replace (Z.pred (Z.of_nat (S k))) with (Z.of_nat k) by lia.
    cbn [search_up]. specialize (IH p (Z.succ m)).
    destruct (_is_reserved_port (p + m)) eqn:Hres.
    + destruct (search_up has_logger bind host p (seqZ (Z.succ m) (Z.of_nat k)))
        as [[q|] log2]; cbn [fst] in *.
      * destruct IH as (o & Ho & -> & Hr & Ha & Hfirst).
        exists o. split_and!; try done; try lia.
        intros o' Ho'. destruct (decide (o' = m)) as [->|Hne]; [by left|].
        apply Hfirst. lia.
      * intros o Ho. destruct (decide (o = m)) as [->|Hne]; [by left|].
        apply IH. lia.
    + pose proof (eq_refl : available (p + m) = available (p + m)) as Hav.
      unfold available at 1 in Hav.
      destruct (is_port_available has_logger bind host (p + m)) as [av log1].
      cbn [fst] in Hav. destruct av.
      * cbn [fst]. exists m. split_and!; try done; try lia.
      * destruct (search_up has_logger bind host p (seqZ (Z.succ m) (Z.of_nat k)))
          as [[q|] log2]; cbn [fst] in *.
        -- destruct IH as (o & Ho & -> & Hr & Ha & Hfirst).
           exists o. split_and!; try done; try lia.
           intros o' Ho'. destruct (decide (o' = m)) as [->|Hne]; [by right|].
           apply Hfirst. lia.
        -- intros o Ho. destruct (decide (o = m)) as [->|Hne]; [by right|].
           apply IH. lia.
Qed.

Lemma search_down_range (k : nat) : ∀ (p m : Z),
  (0 < k → (m + Z.of_nat k - 1 ≤ p - 1024)%Z) →
  match (search_down has_logger bind host p (seqZ m (Z.of_nat k))).1 with
  | Some q =>
    ∃ o, (m ≤ o < m + Z.of_nat k)%Z ∧ q = (p - o)%Z ∧
         _is_reserved_port q = false ∧ available q = true ∧
         ∀ o', (m ≤ o' < o)%Z → passed_over (p - o')
  | None => ∀ o, (m ≤ o < m + Z.of_nat k)%Z → passed_over (p - o)
  end.
Proof.
  induction k as [|k IH]; intros p m Hk.
  - rewrite seqZ_nil by lia. simpl. intros o Ho. lia.
  - specialize (Hk (Nat.lt_0_succ k)). rewrite seqZ_cons by lia.
    replace (Z.pred (Z.of_nat (S k))) with (Z.of_nat k) by lia.
    cbn [search_down].
    replace (p - m <? 1024)%Z with false by (symmetry; apply Z.ltb_ge; lia).
    specialize (IH p (Z.succ m)).
    destruct (_is_reserved_port (p - m)) eqn:Hres.
    + destruct (search_down has_logger bind host p (seqZ (Z.succ m) (Z.of_nat k)))
        as [[q|] log2]; cbn [fst] in *.
      * destruct IH as (o & Ho & -> & Hr & Ha & Hfirst); [lia|].
        exists o. split_and!; try done; try lia.
        intros o' Ho'. destruct (decide (o' = m)) as [->|Hne]; [by left|].
        apply Hfirst. lia.
      * intros o Ho. destruct (decide (o = m)) as [->|Hne]; [by left|].
        apply IH; lia.
    + pose proof (eq_refl : available (p - m) = available (p - m)) as Hav.
      unfold available at 1 in Hav.
      destruct (is_port_available has_logger bind host (p - m)) as [av log1].
      cbn [fst] in Hav. destruct av.
      * cbn [fst]. exists m. split_and!; try done; try lia.
      * destruct (search_down has_logger bind host p (seqZ (Z.succ m) (Z.of_nat k)))
          as [[q|] log2]; cbn [fst] in *.
        -- destruct IH as (o & Ho & -> & Hr & Ha & Hfirst); [lia|].
           exists o. split_and!; try done; try lia.
           intros o' Ho'. destruct (decide (o' = m)) as [->|Hne]; [by right|].
           apply Hfirst. lia.
        -- intros o Ho. destruct (decide (o = m)) as [->|Hne]; [by right|].
           apply IH; lia.
Qed.

Lemma offsets_to_nat (n : Z) : offsets_to n = seqZ 1 (Z.of_nat (Z.to_nat n)).
Proof.
  unfold offsets_to. destruct (decide (0 ≤ n)%Z).
  - by rewrite Z2Nat.id.
  - by rewrite !seqZ_nil by lia.
Qed.

(** What the two loops return, as ranges of ports. *)
Lemma search_up_ports (p n : Z) :
  match (search_up has_logger bind host p (offsets_to n)).1 with
  | Some q =>
    (p < q ≤ p + n)%Z ∧ _is_reserved_port q = false ∧ available q = true ∧
    ∀ q', (p < q' < q)%Z → passed_over q'
  | None => ∀ q, (p < q ≤ p + n)%Z → passed_over q
  end.
Proof.
  rewrite offsets_to_nat.
  pose proof (search_up_range (Z.to_nat n) p 1) as H.
  destruct (search_up has_logger bind host p (seqZ 1 (Z.of_nat (Z.to_nat n))))
    as [[q|] log]; cbn [fst] in *.
  - destruct H as (o & Ho & -> & Hr & Ha & Hfirst).
    split_and!; try done; try lia.
    intros q' Hq'. replace q' with (p + (q' - p))%Z by lia. apply Hfirst. lia.
  - intros q Hq. replace q with (p + (q - p))%Z by lia. apply H. lia.
Qed.

Lemma search_down_ports (p n : Z) :
  match (search_down has_logger bind host p
           (offsets_to (Z.min (p - 1024) n))).1 with
  | Some q =>
    (1024 ≤ q < p)%Z ∧ (p - q ≤ n)%Z ∧
    _is_reserved_port q = false ∧ available q = true ∧
    ∀ q', (q < q' < p)%Z → passed_over q'
  | None => ∀ q, (1024 ≤ q < p)%Z → (p - q ≤ n)%Z → passed_over q
  end.
Proof.
  rewrite offsets_to_nat.
  pose proof (search_down_range (Z.to_nat (Z.min (p - 1024) n)) p 1) as H.
  destruct (search_down has_logger bind host p
              (seqZ 1 (Z.of_nat (Z.to_nat (Z.min (p - 1024) n)))))
    as [[q|] log]; cbn [fst] in *.
  - destruct H as (o & Ho & -> & Hr & Ha & Hfirst); [lia|].
    split_and!; try done; try lia.
    intros q' Hq'. replace q' with (p - (p - q'))%Z by lia. apply Hfirst. lia.
  - intros q Hq Hn. replace q with (p - (p - q))%Z by lia. apply H; lia.
Qed.

(** X23. A port [find_available_port] returns is one the test socket
    binds to, and it is the first in the order of the search: the
    preferred port itself, whatever its number; failing that the nearest
    port above it, up to [port_range] away, that is not reserved and
    binds; failing that the nearest such port below it, not under 1024.
    A port other than the preferred one is never a reserved port. *)
Theorem found_port_is_first_available (preferred_port port_range port : Z) :
  (find_available_port has_logger bind host preferred_port port_range).1
  = Some port →
  bind host port = Bound ∧
  (port = preferred_port ∨
   bind host preferred_port ≠ Bound ∧ _is_reserved_port port = false ∧
   ((preferred_port < port ≤ preferred_port + port_range)%Z ∧
    (∀ q, (preferred_port < q < port)%Z → passed_over q) ∨
    (1024 ≤ port < preferred_port)%Z ∧ (preferred_port - port ≤ port_range)%Z ∧
    (∀ q, (preferred_port < q ≤ preferred_port + port_range)%Z → passed_over q) ∧
    (∀ q, (port < q < preferred_port)%Z → passed_over q))).
Proof.
  unfold find_available_port.
  pose proof (available_Bound preferred_port) as Hp. unfold available in Hp.
  destruct (is_port_available has_logger bind host preferred_port) as [av log0].
  cbn [fst] in Hp. destruct av.
  - cbn [fst]. intros [= <-]. split; [by apply Hp|by left].
  - assert (bind host preferred_port ≠ Bound) as Hnot.
    { intros Hb. apply Hp in Hb. done. }
    pose proof (search_up_ports preferred_port port_range) as Hup.
    destruct (search_up has_logger bind host preferred_port (offsets_to port_range))
      as [[q|] log2]; cbn [fst] in *.
    + intros [= <-]. destruct Hup as (Hr & Hres & Ha & Hfirst).
      split; [by apply available_Bound|]. right. split_and!; try done. by left.
    + pose proof (search_down_ports preferred_port port_range) as Hdown.
      destruct (search_down has_logger bind host preferred_port
                  (offsets_to (Z.min (preferred_port - 1024) port_range)))
        as [[q|] log3]; cbn [fst] in *; [|done].
      intros [= <-]. destruct Hdown as (Hr & Hn & Hres & Ha & Hfirst).
      split; [by apply available_Bound|]. right. split_and!; try done.
      right. split_and!; try done; lia.
Qed.

(** X24. [find_available_port] returns [None] exactly when no port of
    its search binds: not the preferred port, no port that is not
    reserved among the [port_range] ports above it, and none among the
    [port_range] ports below it that are not under 1024. A preferred
    port that binds is returned even when it is a reserved port. *)
Theorem no_port_found_iff (preferred_port port_range : Z) :
  ((find_available_port has_logger bind host preferred_port port_range).1 = None ↔
   bind host preferred_port ≠ Bound ∧
   (∀ q, (preferred_port < q ≤ preferred_port + port_range)%Z → passed_over q) ∧
   (∀ q, (1024 ≤ q < preferred_port)%Z → (preferred_port - q ≤ port_range)%Z →
         passed_over q)) ∧
  (bind host preferred_port = Bound →
   (find_available_port has_logger bind host preferred_port port_range).1
   = Some preferred_port).
Proof.
  unfold find_available_port.
  pose proof (available_Bound preferred_port) as Hp. unfold available in Hp.
  destruct (is_port_available has_logger bind host preferred_port) as [av log0].
  cbn [fst] in Hp. destruct av.
  - cbn [fst]. split; [|done]. split; [done|].
    intros [Hnot _]. destruct Hnot. by apply Hp.
  - assert (bind host preferred_port ≠ Bound) as Hnot.
    { intros Hb. apply Hp in Hb. done. }
    split; [|done].
    assert (∀ q, _is_reserved_port q = false → available q = true →
                 ¬ passed_over q) as Hok.
    { intros q Hr Ha [H|H]; congruence. }
    pose proof (search_up_ports preferred_port port_range) as Hup.
    destruct (search_up has_logger bind host preferred_port (offsets_to port_range))
      as [[q|] log2]; cbn [fst] in *.
    + split; [done|]. intros (_ & Hall & _).
      destruct Hup as (Hr & Hres & Ha & _). destruct (Hok q Hres Ha). by apply Hall.
    + pose proof (search_down_ports preferred_port port_range) as Hdown.
      destruct (search_down has_logger bind host preferred_port
                  (offsets_to (Z.min (preferred_port - 1024) port_range)))
        as [[q|] log3]; cbn [fst] in *.
      * split; [done|]. intros (_ & _ & Hall).
        destruct Hdown as (Hr & Hn & Hres & Ha & _).
        destruct (Hok q Hres Ha). by apply Hall.
      * split; [|done]. intros _. by split_and!.
Qed.

End Search.

End PortSearch.

(** * The theorems on concrete runs *)

(** A core that ingested the BTCUSDT rates 1, 3, 10 at time 0, which made
    a champion of score 5.66, and the rate 2 at time 1, which scored 0.56. *)
Definition run_expired : BusinessCore :=
  Sample.ingest_all (Sample.ingest_all init 0 [1; 3; 10]%float) 1 [2]%float.

(** C1 fails as stated. At time 1000 the champion made at time 0 is past
    the TTL of 900 and the live score, 0.56, is positive and is what the
    ranking uses; yet after the recomputation the table still holds the
    record of score 5.66 made at time 0, no fresh record was established,
    and the displayed score is 5.66, not the live score. *)
Lemma expired_champion_not_renewed :
  let st := run_expired in
  let st' := _update_top5_ranking Numpy.argsort st 1000 in
  champion_of st "BTCUSDT" = Some (5.6568542494923797, 0)%float ∧
  PrimFloat.leb (1000 - 0) (champion_ttl st) = false ∧
  _calculate_current_zscore st "BTCUSDT" = 0.56427649268687863%float ∧
  ranking_score st 1000 "BTCUSDT" = 0.56427649268687863%float ∧
  Float.gtb 0.56427649268687863 0 = true ∧
  top5_symbols st' = ["BTCUSDT"] ∧
  champion_of st' "BTCUSDT" = Some (5.6568542494923797, 0)%float ∧
  entry_volatility <$> get_top5_data st' (λ _, 1000%float) = [5.6568542494923797%float].
Proof. vm_compute. done. Qed.

(** C2 at a failing input. BTCUSDT is ingested with the rates 1, 3, 10 at
    time 0 and ranked at time 1: the snapshot is [BTCUSDT]. The rates 2
    and 4 follow at time 2; 4 is the mean of the four points before it.
    At time 1000 the champion is past the TTL and the live score is 0, so
    no symbol has a positive score and the ranking data is empty; the
    recomputation then skips its whole body and the snapshot still lists
    BTCUSDT. *)
Theorem stale_ranking_snapshot :
  let st0 := Sample.ingest_all init 0 [1; 3; 10]%float in
  let st1 := _update_top5_ranking Numpy.argsort st0 1 in
  let st2 := Sample.ingest_all st1 2 [2; 4]%float in
  let st3 := _update_top5_ranking Numpy.argsort st2 1000 in
  top5_symbols st1 = ["BTCUSDT"] ∧
  ranking_score st2 1000 "BTCUSDT" = 0%float ∧
  ranking_data st2 1000 = [] ∧
  top5_symbols st3 = ["BTCUSDT"] ∧
  st3 = st2.
Proof. vm_compute. done. Qed.

(** The source of the score, at [run_expired]: within the TTL (time 2) the
    ranking uses the record's score, past it (time 1000) the live score. *)
Lemma ranking_score_source_witness :
  let st := run_expired in
  let c := {| max_volatility := 5.6568542494923797;
              z_score := 5.6568542494923797;
              moving_average := 2;
              std_dev := 1.4142135623730951;
              champion_old_rate := 3;
              champion_new_rate := 10;
              champion_timestamp := 0;
              champion_age_hours := 1 / 3600 |}%float in
  (champion_records st !! "BTCUSDT" = Some c ∧
   PrimFloat.leb (2 - champion_timestamp c) (champion_ttl st) = true ∧
   PrimFloat.leb (1000 - champion_timestamp c) (champion_ttl st) = false) ∧
  ranking_score st 2 "BTCUSDT" = max_volatility c ∧
  ranking_score st 1000 "BTCUSDT"
  = default 0%float
      (h ← rate_history st !! "BTCUSDT"; Spec.deviation_score (Pandas.values h)).
Proof.
  set (st := run_expired).
  set (c := {| max_volatility := 5.6568542494923797;
               z_score := 5.6568542494923797;
               moving_average := 2;
               std_dev := 1.4142135623730951;
               champion_old_rate := 3;
               champion_new_rate := 10;
               champion_timestamp := 0;
               champion_age_hours := 1 / 3600 |}%float).
  assert (champion_records st !! "BTCUSDT" = Some c) as Hc by (vm_compute; reflexivity).
  assert (PrimFloat.leb (2 - champion_timestamp c) (champion_ttl st) = true) as Hin
    by (vm_compute; reflexivity).
  assert (PrimFloat.leb (1000 - champion_timestamp c) (champion_ttl st) = false) as Hout
    by (vm_compute; reflexivity).
  split; [split; [exact Hc|split; [exact Hin|exact Hout]]|].
  split.
  - exact (proj1 (ranking_score_source Sample.float_of_str Numpy.argsort st 2 "BTCUSDT")
             c Hc Hin).
  - exact (proj1 (proj2 (ranking_score_source Sample.float_of_str Numpy.argsort
                           st 1000 "BTCUSDT"))
             (or_intror (ex_intro _ c (conj Hc Hout)))).
Defined.

(** The live score on nine points. The historical partition holds the
    eight rates 0.1, ..., 0.8, which NumPy adds pairwise: their mean is
    the float 0.45, so the rate 0.45 that follows them scores exactly 0.
    At time 1000 no record is within the TTL, the ranking's score is
    that live score, and no symbol enters the ranking data. *)
Lemma live_score_of_nine_points :
  let st := Sample.ingest_all init 0 [0.1; 0.2; 0.3; 0.4; 0.5; 0.6; 0.7; 0.8; 0.45]%float in
  (Pandas.mean <$> (Pandas.iloc_init <$> rate_history st !! "BTCUSDT")) = Some 0.45%float ∧
  _calculate_current_zscore st "BTCUSDT" = 0%float ∧
  ranking_score st 1000 "BTCUSDT" = 0%float ∧
  ranking_data st 1000 = [] ∧
  top5_symbols (_update_top5_ranking Numpy.argsort st 1000) = [].
Proof. vm_compute. done. Qed.

(** Champion replacement, at a core whose BTCUSDT window is -1, 0, 1, 1
    and the rate 2 scored at time 10. *)
Lemma champion_replacement_witness :
  let st := Sample.ingest_all init 0 [-1; 0; 1; 1]%float in
  let h := [(0%Z, (-1)%float); (0%Z, 0%float); (0%Z, 1%float); (0%Z, 1%float)] in
  let symbol := "BTCUSDT" in
  let st' := _calculate_volatility st symbol 1 2 10 in
  let hist := Pandas.iloc_init h in
  let fresh := fresh_champion 2 (Pandas.mean hist) (Pandas.std hist) 1 2 10 in
  let installed c :=
    champion_records st' !! symbol
    = Some (set_champion_age_hours c ((10 - champion_timestamp c) / 3600)%float) in
  (rate_history st !! symbol = Some h ∧
   Spec.z_value (scored_window h 2) = Some 2%float) ∧
  (∀ other, other ≠ symbol →
     champion_records st' !! other = champion_records st !! other) ∧
  max_volatility fresh = PrimFloat.abs 2 ∧ champion_timestamp fresh = 10%float ∧
  match champion_records st !! symbol with
  | None => installed fresh
  | Some c =>
    if Float.gtb (10 - champion_timestamp c)%float (champion_ttl st)
    then installed fresh
    else if Float.gtb (PrimFloat.abs 2) (max_volatility c)
         then installed fresh
         else installed c
  end.
Proof.
  set (st := Sample.ingest_all init 0 [-1; 0; 1; 1]%float).
  set (h := [(0%Z, (-1)%float); (0%Z, 0%float); (0%Z, 1%float); (0%Z, 1%float)]).
  assert (rate_history st !! "BTCUSDT" = Some h) as Hh by (vm_compute; reflexivity).
  assert (Spec.z_value (scored_window h 2) = Some 2%float) as Hz
    by (vm_compute; reflexivity).
  split; [split; [exact Hh|exact Hz]|].
  exact (proj1 champion_replacement st "BTCUSDT" 1%float 2%float 10%float h 2%float Hh Hz).
Defined.

(** The score formula, on the historical values 1, 2, 3 with current
    value 5, and on the third observation of a symbol. *)
Lemma deviation_score_formula_witness :
  let st := Sample.ingest_all init 0 [1; 2]%float in
  let item := Sample.observation "BTCUSDT" 3 in
  let clk := Sample.at_time 0 in
  let z := ((3 - Spec.sample_mean [1; 2]) / Spec.sample_std [1; 2])%float in
  let st' := (_process_single_item Sample.float_of_str st clk item).1 in
  let window := Pandas.values (next_series st (pd_now clk) "BTCUSDT" 3) in
  (2 ≤ length [1; 2; 3]%float ∧
   Float.isna (Spec.sample_std [1; 2; 3]%float) = false ∧
   PrimFloat.ltb (Spec.sample_std [1; 2; 3]%float) Spec.epsilon = false ∧
   (0 < window_size st)%Z ∧
   reading Sample.float_of_str item = Some ("BTCUSDT", 3%float) ∧
   rate_changed st "BTCUSDT" 3 = true ∧
   Spec.z_value window = Some z ∧
   kept_champion st "BTCUSDT" (PrimFloat.abs z) (calc_time clk) = None) ∧
  Spec.deviation_score ([1; 2; 3] ++ [5])%float
  = Some (PrimFloat.abs ((5 - Spec.sample_mean [1; 2; 3]) / Spec.sample_std [1; 2; 3]))%float ∧
  Spec.current window = Some 3%float ∧
  ∃ c, champion_records st' !! "BTCUSDT" = Some c ∧
       Some (max_volatility c) = Spec.deviation_score window ∧
       z_score c = z ∧
       moving_average c = Spec.sample_mean (Spec.historical window) ∧
       std_dev c = Spec.sample_std (Spec.historical window).
Proof.
  set (st := Sample.ingest_all init 0 [1; 2]%float).
  set (item := Sample.observation "BTCUSDT" 3).
  set (clk := Sample.at_time 0).
  set (z := ((3 - Spec.sample_mean [1; 2]) / Spec.sample_std [1; 2])%float).
  assert (2 ≤ length [1; 2; 3]%float) as H1 by (simpl; lia).
  assert (Float.isna (Spec.sample_std [1; 2; 3]%float) = false) as H2
    by (vm_compute; reflexivity).
  assert (PrimFloat.ltb (Spec.sample_std [1; 2; 3]%float) Spec.epsilon = false) as H3
    by (vm_compute; reflexivity).
  assert (0 < window_size st)%Z as H4 by (vm_compute; reflexivity).
  assert (reading Sample.float_of_str item = Some ("BTCUSDT", 3%float)) as H5
    by (vm_compute; reflexivity).
  assert (rate_changed st "BTCUSDT" 3 = true) as H6 by (vm_compute; reflexivity).
  assert (Spec.z_value (Pandas.values (next_series st (pd_now clk) "BTCUSDT" 3))
          = Some z) as H7 by (vm_compute; reflexivity).
  assert (kept_champion st "BTCUSDT" (PrimFloat.abs z) (calc_time clk) = None) as H8
    by (vm_compute; reflexivity).
  split; [repeat split; assumption|].
  split.
  - exact (proj1 (deviation_score_formula Sample.float_of_str) [1; 2; 3]%float 5%float
             H1 H2 H3).
  - exact (proj1 (proj2 (proj2 (proj2 (deviation_score_formula Sample.float_of_str))))
             st clk item "BTCUSDT" 3%float z H4 H5 H6 H7 H8).
Defined.

(** The first three observations 1, 2, 3 of BTCUSDT on a fresh core: no
    record after the first and the second, a record after the third. *)
Lemma score_from_third_point_witness :
  let fos := Sample.float_of_str in
  let symbol := "BTCUSDT" in
  let clk := Sample.at_time 0 in
  let st1 := (_process_single_item fos init clk (Sample.observation symbol 1)).1 in
  let st2 := (_process_single_item fos st1 clk (Sample.observation symbol 2)).1 in
  let st3 := (_process_single_item fos st2 clk (Sample.observation symbol 3)).1 in
  let score :=
    PrimFloat.abs ((3 - Spec.sample_mean [1; 2]) / Spec.sample_std [1; 2])%float in
  ((3 ≤ window_size init)%Z ∧
   rate_history init !! symbol = None ∧
   champion_records init !! symbol = None ∧
   reading fos (Sample.observation symbol 1) = Some (symbol, 1%float) ∧
   reading fos (Sample.observation symbol 2) = Some (symbol, 2%float) ∧
   reading fos (Sample.observation symbol 3) = Some (symbol, 3%float) ∧
   Float.gtb (PrimFloat.abs (3 - 2)) 1e-9 = true ∧
   Float.isna (Spec.sample_std [1; 2]%float) = false ∧
   PrimFloat.ltb (Spec.sample_std [1; 2]%float) Spec.epsilon = false) ∧
  (champion_records st1 !! symbol = None ∧
   _calculate_current_zscore st1 symbol = 0%float) ∧
  (champion_records st2 !! symbol = None ∧
   _calculate_current_zscore st2 symbol = 0%float) ∧
  Pandas.values <$> rate_history st3 !! symbol = Some [1; 2; 3]%float ∧
  champion_of st3 symbol = Some (score, calc_time clk) ∧
  _calculate_current_zscore st3 symbol = score.
Proof.
  set (fos := Sample.float_of_str). set (symbol := "BTCUSDT").
  set (clk := Sample.at_time 0).
  assert (3 ≤ window_size init)%Z as H1 by (vm_compute; discriminate).
  assert (rate_history init !! symbol = None) as H2 by reflexivity.
  assert (champion_records init !! symbol = None) as H3 by reflexivity.
  assert (reading fos (Sample.observation symbol 1) = Some (symbol, 1%float)) as H4
    by (vm_compute; reflexivity).
  assert (reading fos (Sample.observation symbol 2) = Some (symbol, 2%float)) as H5
    by (vm_compute; reflexivity).
  assert (reading fos (Sample.observation symbol 3) = Some (symbol, 3%float)) as H6
    by (vm_compute; reflexivity).
  assert (Float.gtb (PrimFloat.abs (3 - 2)) 1e-9 = true) as H7
    by (vm_compute; reflexivity).
  assert (Float.isna (Spec.sample_std [1; 2]%float) = false) as H8
    by (vm_compute; reflexivity).
  assert (PrimFloat.ltb (Spec.sample_std [1; 2]%float) Spec.epsilon = false) as H9
    by (vm_compute; reflexivity).
  split; [repeat split; assumption|].
  destruct (proj2 (proj2 (score_from_third_point fos)) init symbol
              (Sample.observation symbol 1) (Sample.observation symbol 2)
              (Sample.observation symbol 3) clk clk clk 1%float 2%float 3%float
              H1 H2 H3 H4 H5 H6) as (A & B & C & D).
  split; [exact A|]. split; [exact B|]. split; [exact C|].
  exact (D H7 H8 H9).
Defined.

(** The window theorem, at a core of window size 3 that ingests the four
    observations 1, 2, 3, 4 of BTCUSDT: the three most recent are kept. *)
Lemma window_bounded_fifo_witness :
  let st := Sample.core_with_window 3 in
  let items := Sample.observation "BTCUSDT" <$> [1; 2; 3; 4]%float in
  let clk := λ _ : nat, Sample.at_time 0 in
  let st' := (process_items Sample.float_of_str st clk 0 items 0).1 in
  let seen := default [] (rate_history st !! "BTCUSDT")
              ++ rows_of Sample.float_of_str clk 0 items "BTCUSDT" in
  ((0 < window_size st)%Z ∧ window_ok st) ∧
  (default [] (rate_history st' !! "BTCUSDT") = most_recent (window_size st) seen ∧
   length (most_recent (window_size st) seen)
   = Nat.min (length seen) (Z.to_nat (window_size st))) ∧
  Pandas.values (most_recent (window_size st) seen) = [2; 3; 4]%float.
Proof.
  set (st := Sample.core_with_window 3).
  assert (0 < window_size st)%Z as Hw by (vm_compute; reflexivity).
  assert (window_ok st) as Hok.
  { intros symbol h H. simpl in H. by rewrite lookup_empty in H. }
  split; [split; [exact Hw|exact Hok]|].
  split.
  - exact (proj2 (window_bounded_fifo Sample.float_of_str st Hw Hok)
             (Sample.observation "BTCUSDT" <$> [1; 2; 3; 4]%float)
             (λ _ : nat, Sample.at_time 0) 0 0 "BTCUSDT").
  - vm_compute. reflexivity.
Defined.

(** A core that ingested the BTCUSDT rates 1, 3, 10 at time 0. *)
Definition run_ranked : BusinessCore :=
  Sample.ingest_all init 0 [1; 3; 10]%float.

(** The ranking theorem, with the reference [argsort], at [run_ranked]
    and time 1. *)
Lemma ranking_recomputation_witness :
  argsort_spec Numpy.argsort ∧
  let rd := ranking_data run_ranked 1 in
  let st' := _update_top5_ranking Numpy.argsort run_ranked 1 in
  ∃ sorted : list (string * float),
    sorted ≡ₚ rd ∧
    StronglySorted by_score_desc sorted ∧
    Forall (λ p, Float.gtb p.2 0 = true) sorted ∧
    let new_top5 := (take Config.TOP_RANKING_COUNT sorted).*1 in
    length new_top5 = Nat.min Config.TOP_RANKING_COUNT (length rd) ∧
    (rd = [] ∨ new_top5 = top5_symbols run_ranked → st' = run_ranked) ∧
    (rd ≠ [] → new_top5 ≠ top5_symbols run_ranked →
     st' = logger (set_top5_symbols run_ranked new_top5) (LogTop5Updated new_top5)) ∧
    _update_top5_ranking Numpy.argsort st' 1 = st'.
Proof.
  split; [exact numpy_argsort_spec|].
  exact (ranking_recomputation Numpy.argsort numpy_argsort_spec run_ranked 1%float).
Defined.

(** ** The further properties on concrete runs *)

(** One observation of BTCUSDT at rate 1, sent to a new core. *)
Definition first_call : list CoreCall :=
  [CallUpdateData (Sample.observation "BTCUSDT" 1) (λ _, Sample.at_time 0) 0 0].

(** The observations 1, 3, 10 of BTCUSDT at time 0, then a turn of the
    ranking loop at time 1. *)
Definition ranked_calls : list CoreCall :=
  [CallUpdateData (Sample.observation "BTCUSDT" 1) (λ _, Sample.at_time 0) 0 0;
   CallUpdateData (Sample.observation "BTCUSDT" 3) (λ _, Sample.at_time 0) 0 0;
   CallUpdateData (Sample.observation "BTCUSDT" 10) (λ _, Sample.at_time 0) 0 0;
   RankingTurn 1].

(** An accepted item, on a new core. *)
Lemma accepted_item_writes_its_symbol_witness :
  let item := Sample.observation "BTCUSDT" 1 in
  let clk := Sample.at_time 0 in
  let st' := (_process_single_item Sample.float_of_str init clk item).1 in
  reading Sample.float_of_str item = Some ("BTCUSDT", 1%float) ∧
  PyDict.get "BTCUSDT" (current_rates st') = Some 1%float ∧
  symbol_last_seen st' !! "BTCUSDT" = Some (seen_time clk) ∧
  rate_history st' !! "BTCUSDT"
  = Some (next_series init (pd_now clk) "BTCUSDT" 1).
Proof.
  assert (reading Sample.float_of_str (Sample.observation "BTCUSDT" 1)
          = Some ("BTCUSDT", 1%float)) as H by (vm_compute; reflexivity).
  split; [exact H|].
  pose proof (accepted_item_writes_its_symbol Sample.float_of_str init
                (Sample.at_time 0) (Sample.observation "BTCUSDT" 1) "BTCUSDT" 1 H)
    as (H1 & H2 & H3 & _).
  exact (conj H1 (conj H2 H3)).
Defined.

(** A tracked symbol, after one observation. *)
Lemma tracked_symbols_pass_filter_witness :
  tracked (reached Sample.float_of_str Numpy.argsort first_call) "BTCUSDT" ∧
  (∃ a, "BTCUSDT" = a +:+ "USDT") ∧
  ¬ (∃ a b, "BTCUSDT" = a +:+ "UP" +:+ b) ∧
  ¬ (∃ a b, "BTCUSDT" = a +:+ "DOWN" +:+ b).
Proof.
  assert (tracked (reached Sample.float_of_str Numpy.argsort first_call) "BTCUSDT")
    as H by (left; vm_compute; by eexists).
  split; [exact H|].
  exact (tracked_symbols_pass_filter Sample.float_of_str Numpy.argsort first_call
           "BTCUSDT" H).
Defined.

(** The series of BTCUSDT after one observation. *)
Lemma current_rate_is_last_point_witness :
  let st := reached Sample.float_of_str Numpy.argsort first_call in
  rate_history st !! "BTCUSDT" = Some [(0%Z, 1%float)] ∧
  ∃ x, Pandas.iloc_last [(0%Z, 1%float)] = Some x ∧
       PyDict.get "BTCUSDT" (current_rates st) = Some x.
Proof.
  assert (rate_history (reached Sample.float_of_str Numpy.argsort first_call)
            !! "BTCUSDT" = Some [(0%Z, 1%float)]) as H by (vm_compute; reflexivity).
  split; [exact H|].
  exact (current_rate_is_last_point Sample.float_of_str Numpy.argsort first_call
           "BTCUSDT" [(0%Z, 1%float)] H).
Defined.

(** The snapshot after three observations and a ranking turn, with the
    reference [argsort]. *)
Lemma snapshot_bounded_distinct_witness :
  let st := run_calls Sample.float_of_str Numpy.argsort init ranked_calls in
  let now := λ _ : nat, 2%float in
  argsort_spec Numpy.argsort ∧
  top5_symbols st = ["BTCUSDT"] ∧
  length (top5_symbols st) ≤ Config.TOP_RANKING_COUNT ∧
  NoDup (top5_symbols st) ∧
  Forall (λ s, _should_process_symbol s = true) (top5_symbols st) ∧
  entry_symbol <$> get_top5_data st now
  = omap (λ s, (λ _, s) <$> volatility_data st !! s) (top5_symbols st) ∧
  length (get_top5_data st now) ≤ Config.TOP_RANKING_COUNT ∧
  NoDup (entry_symbol <$> get_top5_data st now).
Proof.
  split; [exact numpy_argsort_spec|].
  split; [vm_compute; reflexivity|].
  exact (snapshot_bounded_distinct Sample.float_of_str Numpy.argsort
           numpy_argsort_spec ranked_calls (λ _ : nat, 2%float)).
Defined.

(** The snapshot that lists BTCUSDT, through two more observations and a
    ranking turn that finds no positive score. *)
Lemma snapshot_never_emptied_witness :
  let st := run_calls Sample.float_of_str Numpy.argsort init ranked_calls in
  let cs := [CallUpdateData (Sample.observation "BTCUSDT" 2) (λ _, Sample.at_time 2) 2 2;
             CallUpdateData (Sample.observation "BTCUSDT" 4) (λ _, Sample.at_time 2) 2 2;
             RankingTurn 1000] in
  argsort_spec Numpy.argsort ∧
  0 < length (top5_symbols st) ∧
  ranking_data (run_calls Sample.float_of_str Numpy.argsort st (take 2 cs)) 1000 = [] ∧
  0 < length (top5_symbols (run_calls Sample.float_of_str Numpy.argsort st cs)).
Proof.
  assert (0 < length (top5_symbols
            (run_calls Sample.float_of_str Numpy.argsort init ranked_calls))) as H
    by (vm_compute; constructor).
  split; [exact numpy_argsort_spec|]. split; [exact H|].
  split; [vm_compute; reflexivity|].
  exact (snapshot_never_emptied Sample.float_of_str Numpy.argsort numpy_argsort_spec
           _ _ H).
Defined.

(** The entry displayed after three observations and a ranking turn. *)
Lemma displayed_entry_consistent_witness :
  let st := run_calls Sample.float_of_str Numpy.argsort init ranked_calls in
  let now := λ _ : nat, 2%float in
  ∃ e, e ∈ get_top5_data st now ∧
       entry_symbol e ∈ top5_symbols st ∧
       entry_volatility e = PrimFloat.abs (entry_z_score e) ∧
       entry_z_score e
       = ((entry_current_rate e - entry_moving_average e) / entry_std_dev e)%float.
Proof.
  assert (∃ e l, get_top5_data
                   (run_calls Sample.float_of_str Numpy.argsort init ranked_calls)
                   (λ _ : nat, 2%float) = e :: l) as (e & l & Hl)
    by (vm_compute; eauto).
  exists e.
  assert (e ∈ get_top5_data
                (run_calls Sample.float_of_str Numpy.argsort init ranked_calls)
                (λ _ : nat, 2%float)) as He by (rewrite Hl; left).
  split; [exact He|].
  pose proof (displayed_entry_consistent Sample.float_of_str Numpy.argsort
                ranked_calls (λ _ : nat, 2%float) e He) as (H1 & H2 & H3 & _).
  exact (conj H1 (conj H2 H3)).
Defined.

(** An accepted item, on a core of window size 0 that holds one row. *)
Lemma zero_window_keeps_every_row_witness :
  let st := Sample.ingest (Sample.core_with_window 0) 0 1 in
  let item := Sample.observation "BTCUSDT" 2 in
  let clk := Sample.at_time 0 in
  let st' := (_process_single_item Sample.float_of_str st clk item).1 in
  (window_size st = 0%Z ∧
   reading Sample.float_of_str item = Some ("BTCUSDT", 2%float)) ∧
  rate_history st !! "BTCUSDT" = Some [(0%Z, 1%float)] ∧
  rate_history st' !! "BTCUSDT"
  = Some (default [] (rate_history st !! "BTCUSDT") ++ [(pd_now clk, 2%float)]) ∧
  window_size st' = 0%Z.
Proof.
  assert (window_size (Sample.ingest (Sample.core_with_window 0) 0 1) = 0%Z) as Hw
    by (vm_compute; reflexivity).
  assert (reading Sample.float_of_str (Sample.observation "BTCUSDT" 2)
          = Some ("BTCUSDT", 2%float)) as Hr by (vm_compute; reflexivity).
  split; [exact (conj Hw Hr)|]. split; [vm_compute; reflexivity|].
  exact (zero_window_keeps_every_row Sample.float_of_str _ (Sample.at_time 0) _ _ _
           Hw Hr).
Defined.

(** A running client through a failed attempt and a connection that
    receives one frame and is closed. *)
Definition mixed_attempts : list BinanceWebSocketClient.Attempt :=
  [BinanceWebSocketClient.ConnectFailed "timeout";
   BinanceWebSocketClient.ConnectOk 0
     [BinanceWebSocketClient.Pass 1 (BinanceWebSocketClient.RecvMessage "[]");
      BinanceWebSocketClient.Pass 2 BinanceWebSocketClient.RecvConnectionClosed];
   BinanceWebSocketClient.ConnectOk 3 []].

Definition running_client : BinanceWebSocketClient.t :=
  BinanceWebSocketClient.set_is_running
    (BinanceWebSocketClient.init "/ws/!markPrice@arr@1s") true.

Lemma host_cursor_stays_in_range_witness :
  let c' := (BinanceWebSocketClient._connection_loop Sample.json_loads unit None
               mixed_attempts 0 running_client ()).1.1 in
  BinanceWebSocketClient.current_host_index running_client
  < length BinanceWebSocketClient.BACKUP_HOSTS ∧
  BinanceWebSocketClient.current_host_index c' = 1 ∧
  BinanceWebSocketClient.current_host_index c'
  < length BinanceWebSocketClient.BACKUP_HOSTS ∧
  ∃ host status,
    host ∈ BinanceWebSocketClient.BACKUP_HOSTS ∧
    BinanceWebSocketClient.BACKUP_HOSTS
      !! BinanceWebSocketClient.current_host_index c' = Some host ∧
    BinanceWebSocketClient._get_current_url c'
    = Some ("wss://" +:+ host
            +:+ BinanceWebSocketClient.stream_path running_client) ∧
    BinanceWebSocketClient.get_status c' 5 = Some status ∧
    BinanceWebSocketClient.status_current_host status = host ∧
    BinanceWebSocketClient.status_current_url status
    = "wss://" +:+ host +:+ BinanceWebSocketClient.stream_path running_client.
Proof.
  assert (BinanceWebSocketClient.current_host_index running_client
          < length BinanceWebSocketClient.BACKUP_HOSTS) as H by (simpl; lia).
  split; [exact H|]. split; [vm_compute; reflexivity|].
  exact (ClientRuns.host_cursor_stays_in_range Sample.json_loads unit None
           mixed_attempts 0 running_client () 5%float H).
Defined.

Lemma connections_numbered_witness :
  let r := BinanceWebSocketClient._connection_loop Sample.json_loads unit None
             mixed_attempts 0 running_client () in
  let c' := r.1.1 in
  BinanceWebSocketClient.current_host_index running_client
  < length BinanceWebSocketClient.BACKUP_HOSTS ∧
  ClientRuns.connected_ordinals (BinanceWebSocketClient.log c') = [1; 2] ∧
  length (ClientRuns.attempted_urls (BinanceWebSocketClient.log c')) = 3 ∧
  length (filter ClientRuns.established mixed_attempts) = 2 ∧
  BinanceWebSocketClient.reconnect_count c' = 2 ∧
  BinanceWebSocketClient.message_count running_client
  ≤ BinanceWebSocketClient.message_count c' ∧
  ∃ k, k ≤ length mixed_attempts ∧
       length (ClientRuns.attempted_urls (BinanceWebSocketClient.log c'))
       = length (ClientRuns.attempted_urls (BinanceWebSocketClient.log running_client))
         + k ∧
       (r.2 = BinanceWebSocketClient.Suspended →
        BinanceWebSocketClient.is_connected c' = false →
        k = length mixed_attempts) ∧
       let n := length (filter ClientRuns.established (take k mixed_attempts)) in
       BinanceWebSocketClient.reconnect_count c'
       = BinanceWebSocketClient.reconnect_count running_client + n ∧
       ClientRuns.connected_ordinals (BinanceWebSocketClient.log c')
       = ClientRuns.connected_ordinals (BinanceWebSocketClient.log running_client)
         ++ seq (BinanceWebSocketClient.reconnect_count running_client + 1) n.
Proof.
  assert (BinanceWebSocketClient.current_host_index running_client
          < length BinanceWebSocketClient.BACKUP_HOSTS) as H by (simpl; lia).
  split; [exact H|]. split; [vm_compute; reflexivity|].
  split; [vm_compute; reflexivity|]. split; [vm_compute; reflexivity|].
  split; [vm_compute; reflexivity|].
  exact (ClientRuns.connections_numbered Sample.json_loads unit None
           mixed_attempts 0 running_client () H).
Defined.

(** C9 fails as stated. A new client connects to the first host three
    times: the first connection is closed by the peer, the second is
    broken by an exception of the receive loop, and each loss is followed
    by an attempt on the same host. The cursor is still on the first
    host and no host was switched to. *)
Lemma lost_connection_keeps_host :
  let url := "wss://fstream.binance.com/ws/!markPrice@arr@1s" in
  let r := BinanceWebSocketClient._connection_loop Sample.json_loads unit None
             [BinanceWebSocketClient.ConnectOk 0
                [BinanceWebSocketClient.Pass 1
                   BinanceWebSocketClient.RecvConnectionClosed];
              BinanceWebSocketClient.ConnectOk 2
                [BinanceWebSocketClient.Pass 3
                   (BinanceWebSocketClient.RecvError "no close frame received")];
              BinanceWebSocketClient.ConnectOk 4 []]
             0 running_client () in
  BinanceWebSocketClient.current_host_index running_client = 0 ∧
  BinanceWebSocketClient.log r.1.1
  = [BinanceWebSocketClient.LogClientInit;
     BinanceWebSocketClient.LogConnecting url;
     BinanceWebSocketClient.LogConnected 1;
     BinanceWebSocketClient.LogConnectionClosed;
     BinanceWebSocketClient.LogConnecting url;
     BinanceWebSocketClient.LogConnected 2;
     BinanceWebSocketClient.LogMessageLoopError "no close frame received";
     BinanceWebSocketClient.LogConnecting url;
     BinanceWebSocketClient.LogConnected 3] ∧
  ClientFacts.switched_hosts (BinanceWebSocketClient.log r.1.1) = [] ∧
  BinanceWebSocketClient.current_host_index r.1.1 = 0 ∧
  BinanceWebSocketClient.BACKUP_HOSTS
    !! BinanceWebSocketClient.current_host_index r.1.1 = Some "fstream.binance.com".
Proof. vm_compute. done. Qed.

(** The rotation theorem at a running client and two failed attempts. *)
Lemma host_rotation_witness :
  let r := BinanceWebSocketClient._connection_loop Sample.json_loads unit None
             (BinanceWebSocketClient.ConnectFailed <$> ["timeout"; "refused"])
             0 running_client () in
  (BinanceWebSocketClient.is_running running_client = true ∧
   BinanceWebSocketClient.current_host_index running_client
   < length BinanceWebSocketClient.BACKUP_HOSTS) ∧
  r.2 = BinanceWebSocketClient.Suspended ∧
  BinanceWebSocketClient.current_host_index r.1.1
  = (BinanceWebSocketClient.current_host_index running_client + 2)
      `mod` length BinanceWebSocketClient.BACKUP_HOSTS.
Proof.
  assert (BinanceWebSocketClient.current_host_index running_client
          < length BinanceWebSocketClient.BACKUP_HOSTS) as Hlt by (simpl; lia).
  split; [split; [reflexivity|exact Hlt]|].
  exact (proj1 (proj2 (ClientRuns.host_rotation Sample.json_loads unit None))
           ["timeout"; "refused"] 0 running_client () eq_refl Hlt).
Defined.

(** Two failed attempts of a running client: 1 and 2 seconds are
    announced, 2 and 5 seconds are slept. *)
Lemma slept_wait_is_next_interval_witness :
  let errors := ["timeout"; "refused"] in
  let attempts := BinanceWebSocketClient.ConnectFailed <$> errors in
  (BinanceWebSocketClient.is_running running_client = true ∧
   BinanceWebSocketClient.current_host_index running_client
   < length BinanceWebSocketClient.BACKUP_HOSTS) ∧
  (BinanceWebSocketClient.connection_waits Sample.json_loads unit None
     attempts 0 running_client ()
   = (λ k, BinanceWebSocketClient._get_reconnect_interval (0 + 1 + k))
       <$> seq 0 (length errors) ∧
   ClientRuns.announced_waits
     (BinanceWebSocketClient.log
        (BinanceWebSocketClient._connection_loop Sample.json_loads unit None
           attempts 0 running_client ()).1.1)
   = ClientRuns.announced_waits (BinanceWebSocketClient.log running_client)
     ++ ((λ k, BinanceWebSocketClient._get_reconnect_interval (0 + k))
           <$> seq 0 (length errors))) ∧
  BinanceWebSocketClient.connection_waits Sample.json_loads unit None
    attempts 0 running_client () = [2; 5] ∧
  ClientRuns.announced_waits
    (BinanceWebSocketClient.log
       (BinanceWebSocketClient._connection_loop Sample.json_loads unit None
          attempts 0 running_client ()).1.1) = [1; 2].
Proof.
  assert (BinanceWebSocketClient.current_host_index running_client
          < length BinanceWebSocketClient.BACKUP_HOSTS) as H by (simpl; lia).
  split; [exact (conj eq_refl H)|].
  split; [|split; vm_compute; reflexivity].
  exact (ClientRuns.slept_wait_is_next_interval Sample.json_loads unit None
           ["timeout"; "refused"] 0 running_client () eq_refl H).
Defined.

(** A handler that counts its calls and raises on a list payload, on a
    connected client that receives a list, an undecodable frame and a
    dict. *)
Definition counting_handler (data : json) (calls : nat) : nat * option string :=
  (S calls, match data with JList _ => Some "boom" | _ => None end).

Definition connected_client : BinanceWebSocketClient.t :=
  BinanceWebSocketClient.set_connected running_client
    "wss://fstream.binance.com/ws/!markPrice@arr@1s" 0.

Lemma handler_exception_is_contained_witness :
  let ms := [(1%float, "[]"); (2%float, "not json"); (3%float, "{}")] in
  let r := BinanceWebSocketClient._message_loop Sample.json_loads nat
             (Some counting_handler) (ClientFacts.frames ms) connected_client 0 in
  (BinanceWebSocketClient.is_connected connected_client = true ∧
   BinanceWebSocketClient.is_running connected_client = true ∧
   Forall (λ p, BinanceWebSocketClient._should_reconnect connected_client p.1 = false)
     ms) ∧
  r.2 = BinanceWebSocketClient.Suspended ∧
  r.1.2 = 2 ∧
  ClientRuns.handler_failures (BinanceWebSocketClient.log r.1.1) = ["boom"] ∧
  BinanceWebSocketClient.message_count r.1.1 = 3.
Proof.
  assert (Forall (λ p : float * string,
                    BinanceWebSocketClient._should_reconnect connected_client p.1
                    = false)
            [(1%float, "[]"); (2%float, "not json"); (3%float, "{}")]) as Hall
    by (repeat constructor).
  split; [exact (conj eq_refl (conj eq_refl Hall))|].
  pose proof (ClientRuns.handler_exception_is_contained Sample.json_loads nat
                (Some counting_handler)
                [(1%float, "[]"); (2%float, "not json"); (3%float, "{}")]
                connected_client 0 eq_refl eq_refl Hall)
    as (H1 & _ & _ & H4 & H5 & H6).
  exact (conj H1 (conj H4 (conj H5 H6))).
Defined.

(** A host on which only port 8082 binds, 8081 being refused: the
    search from 8080 returns 8082. *)
Definition only_8082 (host : string) (port : Z) : PortManager.BindResult :=
  if (port =? 8082)%Z then PortManager.Bound
  else PortManager.BindOSError "Address already in use".

Lemma found_port_is_first_available_witness :
  (PortManager.find_available_port true only_8082 "localhost" 8080 50).1
  = Some 8082%Z ∧
  only_8082 "localhost" 8082 = PortManager.Bound ∧
  (8082%Z = 8080%Z ∨
   only_8082 "localhost" 8080 ≠ PortManager.Bound ∧
   PortManager._is_reserved_port 8082 = false ∧
   ((8080 < 8082 ≤ 8080 + 50)%Z ∧
    (∀ q, (8080 < q < 8082)%Z →
          PortSearch.passed_over true only_8082 "localhost" q) ∨
    (1024 ≤ 8082 < 8080)%Z ∧ (8080 - 8082 ≤ 50)%Z ∧
    (∀ q, (8080 < q ≤ 8080 + 50)%Z →
          PortSearch.passed_over true only_8082 "localhost" q) ∧
    (∀ q, (8082 < q < 8080)%Z →
          PortSearch.passed_over true only_8082 "localhost" q))).
Proof.
  assert ((PortManager.find_available_port true only_8082 "localhost" 8080 50).1
          = Some 8082%Z) as H by (vm_compute; reflexivity).
  split; [exact H|].
  exact (PortSearch.found_port_is_first_available true only_8082 "localhost"
           8080 50 8082 H).
Defined.
